(** * NanoWeb Forge: the workflow orchestration of [src/App.tsx]

    A shallow embedding of the state handlers of the [App] component
    ([src/App.tsx]) over the data model of [src/types.ts], and the
    properties of the workflow that the specification states about them.

    - [JsString] : the string primitives the handlers call ([split],
      [join], [includes], truthiness), on sequences of code units;
      [Overlap] : how two references, and a reference and a text, can lie
      in one another.
    - The records and enumerations of [src/types.ts], one module per
      interface, under the source's field names.
    - [Updaters] : every [setState] updater of [src/App.tsx] as a pure
      function on [WorkflowState].
    - [Handlers] : the (asynchronous) handlers, as programs of a small
      state-and-outcome monad over an explicit external world.
    - [Reach] : the updaters as the actions of a transition system.
    - [Phases], [Scripted] : names for the stages of a run, and worlds
      that follow a script.
    - [Storage] : the wrapper around [localStorage] and the stored
      gallery; [Views] : the conditions under which the parts of the page
      are rendered; [Ui] : the component as its user meets it.
    - [JsStringFacts], [OverlapFacts], [MirrorFacts], [PatcherFacts],
      [RunFacts], [Cases] : the properties, and runs that show them at
      work.
    - [StorageFacts], [UploadFacts], [AssetFacts], [SiteFacts],
      [LogFacts], [ViewFacts], [UiFacts] : what the storage wrapper, the
      upload, the slots, deployment, hot swap, remix, the log and the
      rendering conditions guarantee besides. *)

From Stdlib Require Import Ascii String.
From stdpp Require Import gmap strings list fin_maps pretty.

(** ** JavaScript string primitives *)
Module JsString.

(** *** On sequences of code units *)
Section CodeUnits.
Context {A : Type} `{EqDecision A}.
Implicit Types (s sep u : list A) (l : list (list A)).

(** The left-to-right scan of [String.prototype.split] for a non-empty
    separator: at each position either the separator starts here, a chunk
    is closed and the separator's units are skipped, or the unit joins the
    current chunk.  [skip] counts the units of a matched separator still
    to be passed over. *)
Fixpoint split_scan (sep : list A) (skip : nat) (s : list A) : list (list A) :=
  match s with
  | [] => [[]]
  | c :: s' =>
    match skip with
    | S k => split_scan sep k s'
    | O =>
      if decide (sep `prefix_of` s)
      then [] :: split_scan sep (length sep - 1) s'
      else match split_scan sep 0 s' with
           | chunk :: rest => (c :: chunk) :: rest
           | [] => [[c]]
           end
    end
  end.

(** [s.split(sep)]: an empty separator cuts between all code units (and
    the empty string yields the empty array). *)
Definition split_units (sep s : list A) : list (list A) :=
  match sep with
  | [] => (λ c, [c]) <$> s
  | _ :: _ => split_scan sep 0 s
  end.

(** [l.join(sep)] *)
Fixpoint join_units (sep : list A) (l : list (list A)) : list A :=
  match l with
  | [] => []
  | [x] => x
  | x :: rest => x ++ sep ++ join_units sep rest
  end.

(** [s.includes(u)], as a proposition and as a test. *)
Definition occurs (u s : list A) : Prop := ∃ pre post, s = pre ++ u ++ post.

Fixpoint includes_units (u s : list A) : bool :=
  bool_decide (u `prefix_of` s) ||
  match s with
  | [] => false
  | _ :: s' => includes_units u s'
  end.

End CodeUnits.

(** *** On strings

    A string is the sequence of its UTF-16 code units, one [ascii] for
    each: the strings of the model are the texts whose code units are
    below 256.  What is defined and proved on sequences above is for any
    alphabet of code units. *)
Definition chars : string → list ascii := String.list_ascii_of_string.
Definition of_chars : list ascii → string := String.string_of_list_ascii.

Definition split (sep s : string) : list string :=
  of_chars <$> split_units (chars sep) (chars s).

Definition join (sep : string) (l : list string) : string :=
  of_chars (join_units (chars sep) (chars <$> l)).

Definition includes (s u : string) : bool := includes_units (chars u) (chars s).

(** The text [s] contains [u]. *)
Definition contains (s u : string) : Prop := ∃ pre post, s = pre +:+ u +:+ post.

(** [code.split(old).join(new)] *)
Definition replace_all (code old new : string) : string :=
  join new (split old code).

(** A value used as a condition: [undefined] and the empty string are falsy. *)
Definition truthy (v : option string) : bool :=
  match v with
  | Some s => negb (String.eqb s "")
  | None => false
  end.

(** [a || b] on a string that may be [undefined]. *)
Definition or_else (v : option string) (d : string) : string :=
  if truthy v then default d v else d.

(** [`${v}`] for a value that may be [undefined]. *)
Definition show (v : option string) : string := default "undefined" v.

End JsString.

(** ** References that overlap

    What [code.split(old).join(new)] leaves of [old], and whether
    [split(new).join(old)] undoes it, depends on how the two references
    and the text lie in one another. *)
Module Overlap.
Import JsString.

Section CodeUnits.
Context {A : Type} `{EqDecision A}.
Implicit Types (s u v k old new : list A).

(** The end of [u] is the start of [v]: some non-empty [k] ends [u] and
    starts [v]. *)
Definition borders (u v : list A) : Prop :=
  ∃ k, k ≠ [] ∧ k `suffix_of` u ∧ k `prefix_of` v.





End CodeUnits.

(** Neither of [u] and [v] contains the other, and neither ends with a
    start of the other. *)
Definition apart (u v : string) : Prop :=
  ¬ contains u v ∧ ¬ contains v u
  ∧ ¬ borders (chars u) (chars v) ∧ ¬ borders (chars v) (chars u).




End Overlap.

(** ** The data model of [src/types.ts] *)

Inductive WorkflowStep :=
  | UPLOAD | RECIPE | ANALYSIS | RESEARCH | EDITOR | GENERATION | CODING | PREVIEW.

Inductive ForgeRecipe :=
  | recipe_default | neo_brutalism | glassmorphism | saas_minimal | cyberpunk_dark.

Module DeploymentState.
Inductive Status := idle | authorizing | uploading | ready | error.
Inductive Platform := netlify | github.
Record t := mk {
  status : Status;
  url : option string;
  siteId : option string;
  repoUrl : option string;
  repoName : option string;
  prUrl : option string;
  platform : option Platform;
  timestamp : option Z
}.
End DeploymentState.

Module AnalysisResult.
Record t := mk {
  pageType : string;
  industry : string;
  intent : string;
  targetAudience : string;
  colorPalette : list string;
  layoutStructure : list string;
  uxPatterns : list string;
  isEcommerce : bool
}.
End AnalysisResult.

Module PaymentConfig.
Inductive Method := upi | qr.
Record t := mk {
  method : Method;
  upiId : option string;
  qrImage : option string
}.
End PaymentConfig.

Module ProductItem.
Record t := mk {
  id : string;
  name : string;
  price : string;
  description : option string;
  image : option string
}.
End ProductItem.

(** [ResearchResult] is the one interface the handlers treat as a bag of
    keys: [handleRefineryConfirm] spreads a [Partial<ResearchResult>] over
    it.  An object of that interface is therefore a finite map from its
    top-level keys to their values; a key may be absent, and a key may be
    present and hold [undefined]. *)
Module ResearchResult.
Record DesignSystem := mkDesign {
  primaryColor : string;
  fontStyle : string;
  borderRadius : string
}.
Record Source := mkSource { title : string; uri : string }.
Record MarketContent := mkMarket {
  aboutUs : string;
  services : list string;
  valueProposition : string
}.
(** What a top-level key may hold: [trends], [competitors] and [keywords]
    hold [Strings], [recommendedDesignSystem] a [Design], [sources]
    [Sources], [marketContent] a [Market], [paymentConfig] a [Payment],
    [products] [Products]. *)
Inductive Value :=
  | Strings (l : list string)
  | Design (d : DesignSystem)
  | Sources (l : list Source)
  | Market (m : MarketContent)
  | Payment (p : PaymentConfig.t)
  | Products (l : list ProductItem.t)
  | Undefined.
(** The object itself, and [Partial<ResearchResult>], which has the same
    shape with every key optional. *)
Abbreviation t := (gmap string Value).
Abbreviation Partial := (gmap string Value).

(** [{ ...base, ...overrides }] *)
Definition spread (base overrides : gmap string Value) : gmap string Value :=
  overrides ∪ base.

(** [r.marketContent] and [r.products], read at the type the interface
    gives the key; [None] is [undefined]. *)
Definition marketContent (r : gmap string Value) : option MarketContent :=
  match r !! "marketContent" with
  | Some (Market m) => Some m
  | _ => None
  end.
Definition products (r : gmap string Value) : option (list ProductItem.t) :=
  match r !! "products" with
  | Some (Products l) => Some l
  | _ => None
  end.
End ResearchResult.

Module GeneratedAsset.
Inductive Kind := hero | feature | product | abstract | icon | car.
(** [existingUrl] is no field of the interface; the objects pushed by
    [runAssetPhase] carry it all the same when the slot had one, because
    the slot is spread into the asset. *)
Record t := mk {
  id : string;
  type : Kind;
  url : string;
  prompt : string;
  existingUrl : option string
}.
Definition kind_name (k : Kind) : string :=
  match k with
  | hero => "hero" | feature => "feature" | product => "product"
  | abstract => "abstract" | icon => "icon" | car => "car"
  end.
(** [{ ...a, url: u }] *)
Definition with_url (u : string) (a : t) : t :=
  mk (id a) (type a) u (prompt a) (existingUrl a).
End GeneratedAsset.

Module WebPage.
Record t := mk { name : string; filename : string; code : string }.
(** [{ ...page, code: c }] *)
Definition with_code (c : string) (p : t) : t := mk (name p) (filename p) c.
End WebPage.

Module GeneratedSite.
Record t := mk {
  id : string;
  name : string;
  pages : list WebPage.t;
  activePageIndex : Z;
  timestamp : Z;
  assets : list GeneratedAsset.t;
  deployment : option DeploymentState.t;
  analysis : option AnalysisResult.t;
  recipe : option ForgeRecipe
}.
End GeneratedSite.

(** An entry of [uploadedImages]: the text after the first comma of a data
    URL, [undefined] ([None]) when the URL holds no comma. *)
Abbreviation EncodedImage := (option string).

Record WorkflowState := mkState {
  step : WorkflowStep;
  uploadedImages : list EncodedImage;
  analysis : option AnalysisResult.t;
  research : option (gmap string ResearchResult.Value);
  researchOverrides : option (gmap string ResearchResult.Value);
  generatedAssets : list GeneratedAsset.t;
  site : option GeneratedSite.t;
  previousSite : option GeneratedSite.t;
  isProcessing : bool;
  deployment : option DeploymentState.t;
  error : option string;
  logs : list string;
  gallery : list GeneratedSite.t;
  selectedRecipe : ForgeRecipe
}.

(** Modelled from the spec: [src/types.ts] breaks off inside
    [INITIAL_STATE], after [step], [uploadedImages], [analysis] and
    [research] and at the key [researchOverrides].  The fields from
    [researchOverrides] on are given the defaults of the specification's
    data model ("restored gallery from durable storage, everything else
    default"): nothing overridden, no assets, no site, not processing, no
    error, no logs, an empty gallery, the default recipe.  [reset_to] below
    takes the constant as a parameter, so that what is proved of [reset]
    can be proved of every completion of the constant. *)
Definition INITIAL_STATE : WorkflowState := {|
  step := UPLOAD;
  uploadedImages := [];
  analysis := None;
  research := None;
  researchOverrides := None;
  generatedAssets := [];
  site := None;
  previousSite := None;
  isProcessing := false;
  deployment := None;
  error := None;
  logs := [];
  gallery := [];
  selectedRecipe := recipe_default
|}.

(** ** The [setState] updaters of [src/App.tsx]

    Every mutation of the workflow state is [setState(prev => next)]: a
    function of the previous state.  Each updater of the source is one
    definition here, named after what it does and marked with its line. *)
Module Updaters.

Definition set_step (v : WorkflowStep) (s : WorkflowState) : WorkflowState :=
  mkState v (uploadedImages s) (analysis s) (research s) (researchOverrides s)
    (generatedAssets s) (site s) (previousSite s) (isProcessing s)
    (deployment s) (error s) (logs s) (gallery s) (selectedRecipe s).
Definition set_uploadedImages (v : list EncodedImage) (s : WorkflowState) : WorkflowState :=
  mkState (step s) v (analysis s) (research s) (researchOverrides s)
    (generatedAssets s) (site s) (previousSite s) (isProcessing s)
    (deployment s) (error s) (logs s) (gallery s) (selectedRecipe s).
Definition set_analysis (v : option AnalysisResult.t) (s : WorkflowState) : WorkflowState :=
  mkState (step s) (uploadedImages s) v (research s) (researchOverrides s)
    (generatedAssets s) (site s) (previousSite s) (isProcessing s)
    (deployment s) (error s) (logs s) (gallery s) (selectedRecipe s).
Definition set_research (v : option ResearchResult.t) (s : WorkflowState) : WorkflowState :=
  mkState (step s) (uploadedImages s) (analysis s) v (researchOverrides s)
    (generatedAssets s) (site s) (previousSite s) (isProcessing s)
    (deployment s) (error s) (logs s) (gallery s) (selectedRecipe s).
Definition set_researchOverrides (v : option ResearchResult.Partial) (s : WorkflowState) : WorkflowState :=
  mkState (step s) (uploadedImages s) (analysis s) (research s) v
    (generatedAssets s) (site s) (previousSite s) (isProcessing s)
    (deployment s) (error s) (logs s) (gallery s) (selectedRecipe s).
Definition set_generatedAssets (v : list GeneratedAsset.t) (s : WorkflowState) : WorkflowState :=
  mkState (step s) (uploadedImages s) (analysis s) (research s) (researchOverrides s)
    v (site s) (previousSite s) (isProcessing s)
    (deployment s) (error s) (logs s) (gallery s) (selectedRecipe s).
Definition set_site (v : option GeneratedSite.t) (s : WorkflowState) : WorkflowState :=
  mkState (step s) (uploadedImages s) (analysis s) (research s) (researchOverrides s)
    (generatedAssets s) v (previousSite s) (isProcessing s)
    (deployment s) (error s) (logs s) (gallery s) (selectedRecipe s).
Definition set_isProcessing (v : bool) (s : WorkflowState) : WorkflowState :=
  mkState (step s) (uploadedImages s) (analysis s) (research s) (researchOverrides s)
    (generatedAssets s) (site s) (previousSite s) v
    (deployment s) (error s) (logs s) (gallery s) (selectedRecipe s).
Definition set_error (v : option string) (s : WorkflowState) : WorkflowState :=
  mkState (step s) (uploadedImages s) (analysis s) (research s) (researchOverrides s)
    (generatedAssets s) (site s) (previousSite s) (isProcessing s)
    (deployment s) v (logs s) (gallery s) (selectedRecipe s).
Definition set_logs (v : list string) (s : WorkflowState) : WorkflowState :=
  mkState (step s) (uploadedImages s) (analysis s) (research s) (researchOverrides s)
    (generatedAssets s) (site s) (previousSite s) (isProcessing s)
    (deployment s) (error s) v (gallery s) (selectedRecipe s).
Definition set_gallery (v : list GeneratedSite.t) (s : WorkflowState) : WorkflowState :=
  mkState (step s) (uploadedImages s) (analysis s) (research s) (researchOverrides s)
    (generatedAssets s) (site s) (previousSite s) (isProcessing s)
    (deployment s) (error s) (logs s) v (selectedRecipe s).

(** line 61, [addLog]: [logs: [...prev.logs, entry]] *)
Definition append_log (entry : string) (prev : WorkflowState) : WorkflowState :=
  set_logs (logs prev ++ [entry]) prev.

(** line 68 *)
Definition begin_upload (prev : WorkflowState) : WorkflowState :=
  set_logs [] (set_error None (set_step UPLOAD (set_isProcessing true prev))).

(** line 81 *)
Definition store_uploads (base64Images : list EncodedImage) (prev : WorkflowState) : WorkflowState :=
  set_uploadedImages base64Images prev.

(** line 86 *)
Definition fail_run (message : string) (prev : WorkflowState) : WorkflowState :=
  set_error (Some message) (set_isProcessing false prev).

(** lines 92, 95, 97 and 100 *)
Definition enter_analysis (prev : WorkflowState) : WorkflowState := set_step ANALYSIS prev.
Definition store_analysis (a : AnalysisResult.t) (prev : WorkflowState) : WorkflowState :=
  set_analysis (Some a) prev.
Definition enter_research (prev : WorkflowState) : WorkflowState := set_step RESEARCH prev.
Definition store_research (r : ResearchResult.t) (prev : WorkflowState) : WorkflowState :=
  set_isProcessing false (set_step EDITOR (set_research (Some r) prev)).

(** line 105 *)
Definition lock_refinery (overrides : ResearchResult.Partial) (prev : WorkflowState) : WorkflowState :=
  set_isProcessing true (set_step GENERATION (set_researchOverrides (Some overrides) prev)).

(** lines 153 and 155 *)
Definition store_assets (assets : list GeneratedAsset.t) (prev : WorkflowState) : WorkflowState :=
  set_generatedAssets assets prev.
Definition enter_coding (prev : WorkflowState) : WorkflowState := set_step CODING prev.

(** lines 169-175: [gallery: [newSite, ...prev.gallery].slice(0, 20)] *)
Definition complete_site (newSite : GeneratedSite.t) (prev : WorkflowState) : WorkflowState :=
  set_isProcessing false (set_step PREVIEW
    (set_gallery (take 20 (newSite :: gallery prev)) (set_site (Some newSite) prev))).

(** [prev.gallery.map(s => s.id === updatedSite.id ? updatedSite : s)] *)
Definition mirror (updatedSite : GeneratedSite.t) (g : list GeneratedSite.t) : list GeneratedSite.t :=
  (λ s, if decide (GeneratedSite.id s = GeneratedSite.id updatedSite) then updatedSite else s) <$> g.

(** lines 182-188: [{ ...prev.site, deployment: { ...deployment, siteId: deployment.siteId } }] *)
Definition attach_deployment (d : DeploymentState.t) (st : GeneratedSite.t) : GeneratedSite.t :=
  GeneratedSite.mk (GeneratedSite.id st) (GeneratedSite.name st) (GeneratedSite.pages st)
    (GeneratedSite.activePageIndex st) (GeneratedSite.timestamp st) (GeneratedSite.assets st)
    (Some (DeploymentState.mk (DeploymentState.status d) (DeploymentState.url d)
             (DeploymentState.siteId d) (DeploymentState.repoUrl d) (DeploymentState.repoName d)
             (DeploymentState.prUrl d) (DeploymentState.platform d) (DeploymentState.timestamp d)))
    (GeneratedSite.analysis st) (GeneratedSite.recipe st).

(** lines 180-191 *)
Definition deployment_update (d : DeploymentState.t) (prev : WorkflowState) : WorkflowState :=
  match site prev with
  | None => prev
  | Some st =>
    let updatedSite := attach_deployment d st in
    let updatedGallery := mirror updatedSite (gallery prev) in
    set_gallery updatedGallery (set_site (Some updatedSite) prev)
  end.

(** lines 198 and 199 *)
Definition swap_url (assetId newUrl : string) (assets : list GeneratedAsset.t) : list GeneratedAsset.t :=
  (λ a, if decide (GeneratedAsset.id a = assetId) then GeneratedAsset.with_url newUrl a else a) <$> assets.
Definition find_asset (assetId : string) (assets : list GeneratedAsset.t) : option GeneratedAsset.t :=
  List.find (λ a, bool_decide (GeneratedAsset.id a = assetId)) assets.

(** lines 202-205 *)
Definition patch_pages (old new : string) (pages : list WebPage.t) : list WebPage.t :=
  (λ page, WebPage.with_code (JsString.replace_all (WebPage.code page) old new) page) <$> pages.

(** line 207: [{ ...prev.site, pages: updatedPages, assets: updatedAssets }] *)
Definition with_pages_assets (pages : list WebPage.t) (assets : list GeneratedAsset.t)
    (st : GeneratedSite.t) : GeneratedSite.t :=
  GeneratedSite.mk (GeneratedSite.id st) (GeneratedSite.name st) pages
    (GeneratedSite.activePageIndex st) (GeneratedSite.timestamp st) assets
    (GeneratedSite.deployment st) (GeneratedSite.analysis st) (GeneratedSite.recipe st).

(** lines 196-214 *)
Definition asset_update (assetId newUrl : string) (prev : WorkflowState) : WorkflowState :=
  match site prev with
  | None => prev
  | Some st =>
    let updatedAssets := swap_url assetId newUrl (generatedAssets prev) in
    match find_asset assetId (generatedAssets prev) with
    | None => prev
    | Some oldAsset =>
      let updatedPages := patch_pages (GeneratedAsset.url oldAsset) newUrl (GeneratedSite.pages st) in
      let updatedSite := with_pages_assets updatedPages updatedAssets st in
      set_gallery (mirror updatedSite (gallery prev))
        (set_site (Some updatedSite) (set_generatedAssets updatedAssets prev))
    end
  end.

(** lines 219-227: [analysis: site.analysis || null] *)
Definition remix_update (st : GeneratedSite.t) (prev : WorkflowState) : WorkflowState :=
  set_isProcessing false (set_generatedAssets (GeneratedSite.assets st)
    (set_analysis (GeneratedSite.analysis st) (set_uploadedImages []
      (set_step PREVIEW (set_site (Some st) prev))))).

(** line 334: [{ ...prev.site, activePageIndex: index }] *)
Definition with_activePageIndex (index : Z) (st : GeneratedSite.t) : GeneratedSite.t :=
  GeneratedSite.mk (GeneratedSite.id st) (GeneratedSite.name st) (GeneratedSite.pages st)
    index (GeneratedSite.timestamp st) (GeneratedSite.assets st)
    (GeneratedSite.deployment st) (GeneratedSite.analysis st) (GeneratedSite.recipe st).
Definition page_change (index : Z) (prev : WorkflowState) : WorkflowState :=
  set_site (with_activePageIndex index <$> site prev) prev.

(** line 235: [setState(INITIAL_STATE)], with the constant as a parameter,
    and with the constant of this file. *)
Definition reset_to (initial : WorkflowState) (prev : WorkflowState) : WorkflowState := initial.
Definition reset (prev : WorkflowState) : WorkflowState := reset_to INITIAL_STATE prev.

(** lines 47-50: the state a session starts in, [saved] being the stored
    gallery ([[]] when nothing is stored). *)
Definition session_start (saved : list GeneratedSite.t) : WorkflowState :=
  set_gallery saved INITIAL_STATE.

End Updaters.

(** ** The handlers of [src/App.tsx]

    The handlers interleave state updates with calls that leave the
    component: the four generation services of [./services/gemini], the
    browser's [FileReader], [Math.random] and the clock.  The external
    world is an explicit value threaded through every such call; a call
    may resolve, reject, or never settle. *)
Module Handlers.
Import Updaters.

(** A thrown value; [err.message] may be [undefined]. *)
Record JsError := mkError { message : option string }.

Inductive Outcome (A : Type) :=
  | Resolved (a : A)
  | Rejected (e : JsError)
  | Pending.
Arguments Resolved {A} a.
Arguments Rejected {A} e.
Arguments Pending {A}.

(** What a [FileReader] does with one file: [readAsDataURL] throws inside
    the promise's executor, or [onloadend] fires with [reader.result] a
    data URL or [null]. *)
Inductive ReadEvent :=
  | ReadThrows (e : JsError)
  | LoadEnd (result : option string).

Record World := mkWorld {
  W : Type;
  File : Type;
  (** [Math.random().toString(36).substr(2, 9)] *)
  random_id : W → string * W;
  (** [new Date().toLocaleTimeString()] and [Date.now()] *)
  locale_time : W → string * W;
  date_now : W → Z * W;
  (** [reader.readAsDataURL(file)] up to the reader's [loadend] *)
  read_file : File → W → ReadEvent * W;
  analyzeScreenshot : list EncodedImage → W → Outcome AnalysisResult.t * W;
  conductResearch : AnalysisResult.t → W → Outcome ResearchResult.t * W;
  generateNanoImage : string → GeneratedAsset.Kind → W → Outcome string * W;
  generateSiteCode :
    AnalysisResult.t → ResearchResult.t → list string → W → Outcome (list WebPage.t) * W
}.

(** What reading a property of [null] or [undefined] throws. *)
Definition type_error : JsError := mkError (Some "TypeError").

(** The fallback reference of line 150. *)
Definition FALLBACK_URL : string :=
  "https://images.unsplash.com/photo-1618005182384-a83a8bd57fbe?q=80&w=2564&auto=format&fit=crop".

(** One entry of [assetPrompts] (line 113). *)
Record Slot := mkSlot {
  slot_type : GeneratedAsset.Kind;
  slot_prompt : string;
  slot_existingUrl : option string
}.

(** [{ id, ...req, url }] (lines 140, 147 and 150) *)
Definition asset_of (id : string) (req : Slot) (url : string) : GeneratedAsset.t :=
  GeneratedAsset.mk id (slot_type req) url (slot_prompt req) (slot_existingUrl req).

(** lines 113-134 *)
Definition product_slot (product : ProductItem.t) : Slot :=
  if JsString.truthy (ProductItem.image product)
  then mkSlot GeneratedAsset.product
         ("User uploaded product: " +:+ ProductItem.name product)
         (ProductItem.image product)
  else mkSlot GeneratedAsset.product
         ("High-end commercial photography of " +:+ ProductItem.name product
            +:+ ". 8K, Clean background.")
         None.

Definition assetPrompts (analysis : AnalysisResult.t) (mc : ResearchResult.MarketContent)
    (finalResearch : ResearchResult.t) : list Slot :=
  [ mkSlot GeneratedAsset.hero
      ("High-end minimalist hero visual for " +:+ AnalysisResult.industry analysis
         +:+ ". Theme: " +:+ ResearchResult.valueProposition mc)
      None;
    mkSlot GeneratedAsset.feature
      ("Abstract high-tech professional background for " +:+ AnalysisResult.industry analysis)
      None ]
  ++ match ResearchResult.products finalResearch with
     | Some products => product_slot <$> products
     | None => []
     end.

(** The promise made for one file (lines 72-76): it rejects when the
    executor throws, resolves with [result.split(',')[1]] when the reader
    ends with a result, and is never settled when the reader ends with
    [null], the handler throwing before it calls [resolve]. *)
Definition promise_of (ev : ReadEvent) : Outcome EncodedImage :=
  match ev with
  | ReadThrows e => Rejected e
  | LoadEnd None => Pending
  | LoadEnd (Some result) => Resolved (JsString.split "," result !! 1)
  end.

(** [Promise.all]: the first rejection wins; otherwise all must resolve. *)
Fixpoint promise_all {A} (ps : list (Outcome A)) : Outcome (list A) :=
  match ps with
  | [] => Resolved []
  | p :: ps' =>
    match p, promise_all ps' with
    | Rejected e, _ => Rejected e
    | _, Rejected e => Rejected e
    | Pending, _ => Pending
    | _, Pending => Pending
    | Resolved a, Resolved l => Resolved (a :: l)
    end
  end.

Section WithWorld.
Variable E : World.

(** The component's state together with the world outside it. *)
Definition Sys : Type := WorkflowState * W E.

(** A handler's code: it runs from a system state, ends in an outcome and
    leaves a system state behind. *)
Definition M (A : Type) : Type := Sys → Outcome A * Sys.

Definition ret {A} (a : A) : M A := λ sys, (Resolved a, sys).
Definition bind {A B} (m : M A) (k : A → M B) : M B :=
  λ sys,
    match m sys with
    | (Resolved a, sys') => k a sys'
    | (Rejected e, sys') => (Rejected e, sys')
    | (Pending, sys') => (Pending, sys')
    end.
Definition throw {A} (e : JsError) : M A := λ sys, (Rejected e, sys).

(** [try { body } catch (err) { handler }] *)
Definition try_catch {A} (body : M A) (handler : JsError → M A) : M A :=
  λ sys,
    match body sys with
    | (Rejected e, sys') => handler e sys'
    | r => r
    end.

(** A call of an [async] function that is neither awaited nor caught: the
    caller goes on, whatever becomes of the call.  One handler runs at a
    time: the call is followed to its end before anything else happens. *)
Definition detached {A} (m : M A) : M unit :=
  λ sys, (Resolved tt, snd (m sys)).

(** Awaiting a promise whose fate is known. *)
Definition settled {A} (o : Outcome A) : M A := λ sys, (o, sys).

Definition setState (f : WorkflowState → WorkflowState) : M unit :=
  λ sys, (Resolved tt, (f (fst sys), snd sys)).

(** A call into the world. *)
Definition call {A} (f : W E → A * W E) : M A :=
  λ sys, let (a, w) := f (snd sys) in (Resolved a, (fst sys, w)).
Definition await {A} (f : W E → Outcome A * W E) : M A :=
  λ sys, let (r, w) := f (snd sys) in (r, (fst sys, w)).

End WithWorld.

Arguments ret {E A} a.
Arguments bind {E A B} m k.
Arguments throw {E A} e.
Arguments try_catch {E A} body handler.
Arguments detached {E A} m.
Arguments settled {E A} o.
Arguments setState {E} f.
Arguments call {E A} f.
Arguments await {E A} f.

(** The handlers are written with stdpp's monad notations. *)
#[global] Instance M_ret {E} : MRet (M E) := λ A a, ret a.
#[global] Instance M_bind {E} : MBind (M E) := λ A B k m, bind m k.

Section Code.
Variable E : World.
Abbreviation M := (M E).

(** lines 60-62 *)
Definition log_entry (time msg : string) : string := "[" +:+ time +:+ "] " +:+ msg.
Definition addLog (msg : string) : M unit :=
  time ← call (locale_time E);
  setState (append_log (log_entry time msg)).

(** lines 71-77: [files.map] makes one promise per file, starting the
    readers one after the other. *)
Fixpoint read_files (files : list (File E)) (w : W E) : list (Outcome EncodedImage) * W E :=
  match files with
  | [] => ([], w)
  | file :: rest =>
    let (ev, w1) := read_file E file w in
    let (ps, w2) := read_files rest w1 in
    (promise_of ev :: ps, w2)
  end.

(** lines 91-102 *)
Definition runAnalysisPhase (base64Images : list EncodedImage) : M unit :=
  setState enter_analysis;;
  addLog "Deconstructing visual hierarchy...";;
  analysis ← await (analyzeScreenshot E base64Images);
  setState (store_analysis analysis);;
  setState enter_research;;
  addLog "Mining sector intelligence & trending design patterns...";;
  research ← await (conductResearch E analysis);
  setState (store_research research);;
  addLog "Harvest complete. Ready for catalog setup.".

(** lines 64-89 *)
Definition handleFileUpload (files : list (File E)) : M unit :=
  match files with
  | [] => ret tt
  | _ :: _ =>
    setState begin_upload;;
    addLog "Initializing Neural Forge kernel...";;
    promises ← call (read_files files);
    try_catch
      (base64Images ← settled (promise_all promises);
       setState (store_uploads base64Images);;
       addLog ("Blueprints received: " +:+ pretty (length files) +:+ " design files.");;
       runAnalysisPhase base64Images)
      (λ err,
       setState (fail_run (JsString.or_else (message err) "Forge sequence failed to initialize."));;
       addLog ("[ERROR] " +:+ JsString.show (message err)))
  end.

(** lines 137-152: one turn of the loop over [assetPrompts]. *)
Definition forge_slot (req : Slot) : M GeneratedAsset.t :=
  if JsString.truthy (slot_existingUrl req)
  then
    addLog ("Using user-uploaded artifact for "
              +:+ GeneratedAsset.kind_name (slot_type req) +:+ "...");;
    id ← call (random_id E);
    ret (asset_of id req (default "" (slot_existingUrl req)))
  else
    addLog ("Forging " +:+ GeneratedAsset.kind_name (slot_type req) +:+ " artifact: "
              +:+ String.substring 0 30 (slot_prompt req) +:+ "...");;
    try_catch
      (url ← await (generateNanoImage E (slot_prompt req) (slot_type req));
       id ← call (random_id E);
       ret (asset_of id req url))
      (λ _,
       addLog ("[WARN] Generation for " +:+ GeneratedAsset.kind_name (slot_type req)
                 +:+ " failed. Using placeholder.");;
       id ← call (random_id E);
       ret (asset_of id req FALLBACK_URL)).

Fixpoint forge_slots (reqs : list Slot) : M (list GeneratedAsset.t) :=
  match reqs with
  | [] => ret []
  | req :: rest =>
    asset ← forge_slot req;
    assets ← forge_slots rest;
    ret (asset :: assets)
  end.

(** lines 159-167 *)
Definition new_site (id : string) (mc : ResearchResult.MarketContent)
    (pages : list WebPage.t) (now : Z) (assets : list GeneratedAsset.t)
    (analysis : AnalysisResult.t) : GeneratedSite.t :=
  GeneratedSite.mk id
    (JsString.or_else (Some (ResearchResult.valueProposition mc)) "AI Generated Store")
    pages 0 now assets None (Some analysis) None.

(** lines 110-177.  [state] is the state the component was rendered with
    when the handler was made: [state.analysis!] is read from it, and a
    [null] there, or a missing [marketContent], throws when the prompts
    are built. *)
Definition runAssetPhase (state : WorkflowState) (finalResearch : ResearchResult.t) : M unit :=
  match analysis state with
  | None => throw type_error
  | Some analysis =>
    match ResearchResult.marketContent finalResearch with
    | None => throw type_error
    | Some mc =>
      assets ← forge_slots (assetPrompts analysis mc finalResearch);
      setState (store_assets assets);;
      setState enter_coding;;
      addLog "Architecting multi-page source via Gemini Forge...";;
      pages ← await (generateSiteCode E analysis finalResearch (GeneratedAsset.url <$> assets));
      id ← call (random_id E);
      now ← call (date_now E);
      setState (complete_site (new_site id mc pages now assets analysis));;
      addLog "Foundry sequence complete. Store is live for testing."
    end
  end.

(** line 107: [{ ...state.research!, ...overrides }]; spreading [null]
    adds no key. *)
Definition finalResearch_of (state : WorkflowState) (overrides : ResearchResult.Partial)
    : ResearchResult.t :=
  ResearchResult.spread (default ∅ (research state)) overrides.

(** lines 104-108 *)
Definition handleRefineryConfirm (overrides : ResearchResult.Partial) : M unit :=
  λ sys,
    let state := fst sys in
    (setState (lock_refinery overrides);;
     addLog "Refinery settings locked. Casting production assets...";;
     detached (runAssetPhase state (finalResearch_of state overrides))) sys.

(** lines 179-193 *)
Definition handleDeploymentComplete (d : DeploymentState.t) : M unit :=
  setState (deployment_update d);;
  addLog ("DEPLOYMENT SYNC VERIFIED: " +:+ JsString.show (DeploymentState.url d)).

(** lines 195-216 *)
Definition handleAssetUpdated (assetId newUrl : string) : M unit :=
  setState (asset_update assetId newUrl);;
  addLog ("Asset " +:+ assetId +:+ " hot-swapped.").

(** lines 218-229 *)
Definition handleRemix (st : GeneratedSite.t) : M unit :=
  setState (remix_update st);;
  addLog ("Reloading archive: " +:+ GeneratedSite.name st).

(** line 235, the header's [onClick], and lines 332 and 334, the handlers
    given to [PreviewFrame]. *)
Definition handleReset : M unit := setState reset.
Definition onRetry : M unit :=
  λ sys, detached (runAnalysisPhase (uploadedImages (fst sys))) sys.
Definition onPageChange (index : Z) : M unit := setState (page_change index).

(** The system a handler leaves behind, and the workflow state in it. *)
Definition run {A} (m : M A) (sys : Sys E) : Sys E := snd (m sys).
Definition state_after {A} (m : M A) (sys : Sys E) : WorkflowState := fst (run m sys).

End Code.
End Handlers.

(** ** The workflow as a transition system

    The states the component can be in are those that the updaters build
    from the state a session starts in.  [ACompleteSite] carries the site
    that [runAssetPhase] assembles, whose identifier is drawn afresh;
    [ARemix] carries the gallery entry the user picked. *)
Module Reach.
Import Updaters.

Inductive Action :=
  | ALog (entry : string)
  | ABeginUpload
  | AStoreUploads (base64Images : list EncodedImage)
  | AFailRun (message : string)
  | AEnterAnalysis
  | AStoreAnalysis (a : AnalysisResult.t)
  | AEnterResearch
  | AStoreResearch (r : ResearchResult.t)
  | ALockRefinery (overrides : ResearchResult.Partial)
  | AStoreAssets (assets : list GeneratedAsset.t)
  | AEnterCoding
  | ACompleteSite (newSite : GeneratedSite.t)
  | ADeployment (d : DeploymentState.t)
  | AAssetUpdate (assetId newUrl : string)
  | ARemix (st : GeneratedSite.t)
  | APageChange (index : Z)
  | AReset.

Definition apply (a : Action) : WorkflowState → WorkflowState :=
  match a with
  | ALog entry => append_log entry
  | ABeginUpload => begin_upload
  | AStoreUploads imgs => store_uploads imgs
  | AFailRun message => fail_run message
  | AEnterAnalysis => enter_analysis
  | AStoreAnalysis a => store_analysis a
  | AEnterResearch => enter_research
  | AStoreResearch r => store_research r
  | ALockRefinery overrides => lock_refinery overrides
  | AStoreAssets assets => store_assets assets
  | AEnterCoding => enter_coding
  | ACompleteSite newSite => complete_site newSite
  | ADeployment d => deployment_update d
  | AAssetUpdate assetId newUrl => asset_update assetId newUrl
  | ARemix st => remix_update st
  | APageChange index => page_change index
  | AReset => reset
  end.

(** The identifiers of the gallery's entries. *)
Definition gallery_ids (s : WorkflowState) : list string :=
  GeneratedSite.id <$> gallery s.

(** What the surroundings of an updater guarantee when it runs: a new
    site's identifier is none of the gallery's, and a remixed site is an
    entry of the gallery. *)
Definition enabled (a : Action) (s : WorkflowState) : Prop :=
  match a with
  | ACompleteSite newSite => GeneratedSite.id newSite ∉ gallery_ids s
  | ARemix st => st ∈ gallery s
  | _ => True
  end.

Definition is_page_change (a : Action) : bool :=
  match a with APageChange _ => true | _ => false end.

(** The states reached by the actions that [allowed] admits. *)
Inductive reachable (allowed : Action → Prop) : WorkflowState → Prop :=
  | reach_start saved :
      NoDup (GeneratedSite.id <$> saved) → reachable allowed (session_start saved)
  | reach_step s a :
      reachable allowed s → allowed a → enabled a s → reachable allowed (apply a s).

(** The active site and the gallery agree: an entry with the active
    site's identifier is the active site. *)
Definition synced (s : WorkflowState) : Prop :=
  ∀ st g, site s = Some st → g ∈ gallery s →
    GeneratedSite.id g = GeneratedSite.id st → g = st.

(** The invariant that the induction over the reachable states carries:
    distinct identifiers in the gallery, and the active site in step with
    its entry. *)
Definition inv (s : WorkflowState) : Prop := NoDup (gallery_ids s) ∧ synced s.

(** One state follows another by some updater. *)
Definition step_to (s s' : WorkflowState) : Prop := ∃ a, s' = apply a s.

(** The active site and the gallery agree but for the page that is
    shown: an entry with the active site's identifier is the active site
    once it is given the active site's page index. *)
Definition synced_but_page (s : WorkflowState) : Prop :=
  ∀ st g, site s = Some st → g ∈ gallery s →
    GeneratedSite.id g = GeneratedSite.id st →
    with_activePageIndex (GeneratedSite.activePageIndex st) g = st.

Definition inv_but_page (s : WorkflowState) : Prop :=
  NoDup (gallery_ids s) ∧ synced_but_page s.

End Reach.

(** ** The phases of a run, seen from outside

    Names for the systems a handler passes through and for the calls it
    makes there, for the statements below to speak of "the call made for
    this slot" or "the state in which the code service is called". *)
Module Phases.
Import JsString Updaters Handlers.

(** Only the log has grown from [s] to [s']. *)
Definition logs_grow (s s' : WorkflowState) : Prop :=
  ∃ extra, s' = set_logs (logs s ++ extra) s.

(** [page'] is [page] with the text between the occurrences of [old]
    kept and [new] in the place of each [old] between them: the text of
    [page] is [chunks.join(old)], that of [page'] is [chunks.join(new)],
    and no chunk contains [old]. *)
Definition patched (old new : string) (page page' : WebPage.t) : Prop :=
  WebPage.name page' = WebPage.name page
  ∧ WebPage.filename page' = WebPage.filename page
  ∧ ∃ chunks,
      WebPage.code page = join old chunks
      ∧ WebPage.code page' = join new chunks
      ∧ (old ≠ "" → Forall (λ chunk, ¬ contains chunk old) chunks).

Section WithWorld.
Variable E : World.
Implicit Types (sys : Sys E) (s : WorkflowState) (w : W E).

(** The system in which the loop over the slots makes its call for
    [req], reached in [sys]: the call is made after the log line. *)
Definition image_call (req : Slot) sys : Outcome string * W E :=
  generateNanoImage E (slot_prompt req) (slot_type req) (snd (locale_time E (snd sys))).

Definition forging_entry (req : Slot) sys : string :=
  log_entry (fst (locale_time E (snd sys)))
    ("Forging " +:+ GeneratedAsset.kind_name (slot_type req) +:+ " artifact: "
       +:+ String.substring 0 30 (slot_prompt req) +:+ "...").

Definition warning (req : Slot) : string :=
  "[WARN] Generation for " +:+ GeneratedAsset.kind_name (slot_type req)
    +:+ " failed. Using placeholder.".

(** An asset made for a slot. *)
Definition made_for (req : Slot) (a : GeneratedAsset.t) : Prop :=
  GeneratedAsset.type a = slot_type req
  ∧ GeneratedAsset.prompt a = slot_prompt req
  ∧ GeneratedAsset.existingUrl a = slot_existingUrl req.

(** The image service never leaves a call unsettled. *)
Definition images_settle : Prop :=
  ∀ prompt kind w, fst (generateNanoImage E prompt kind w) ≠ Pending.

(** The code service resolves whatever it is asked. *)
Definition code_resolves : Prop :=
  ∀ a r urls w, ∃ pages, fst (generateSiteCode E a r urls w) = Resolved pages.

(** [runAssetPhase] from line 153 on, the assets being made. *)
Definition code_phase (analysis : AnalysisResult.t) (mc : ResearchResult.MarketContent)
    (finalResearch : ResearchResult.t) (assets : list GeneratedAsset.t) : M E unit :=
  setState (store_assets assets);;
  setState enter_coding;;
  addLog E "Architecting multi-page source via Gemini Forge...";;
  pages ← await (generateSiteCode E analysis finalResearch (GeneratedAsset.url <$> assets));
  id ← call (random_id E);
  now ← call (date_now E);
  setState (complete_site (new_site id mc pages now assets analysis));;
  addLog E "Foundry sequence complete. Store is live for testing.".

(** The state in which the code service is called, and the call. *)
Definition coding_state (assets : list GeneratedAsset.t) sys : WorkflowState :=
  append_log
    (log_entry (fst (locale_time E (snd sys)))
       "Architecting multi-page source via Gemini Forge...")
    (enter_coding (store_assets assets (fst sys))).

Definition code_call (a : AnalysisResult.t) (fr : ResearchResult.t)
    (assets : list GeneratedAsset.t) sys : Outcome (list WebPage.t) * W E :=
  generateSiteCode E a fr (GeneratedAsset.url <$> assets) (snd (locale_time E (snd sys))).

(** [handleRefineryConfirm] with its asset phase awaited: the same
    effects, and the outcome of the phase in sight. *)
Definition refinery_run (overrides : ResearchResult.Partial) : M E unit :=
  λ sys,
    let state := fst sys in
    (setState (lock_refinery overrides);;
     addLog E "Refinery settings locked. Casting production assets...";;
     runAssetPhase E state (finalResearch_of state overrides)) sys.

(** The system in which the asset phase starts. *)
Definition locked (overrides : ResearchResult.Partial) sys : Sys E :=
  (append_log
     (log_entry (fst (locale_time E (snd sys)))
        "Refinery settings locked. Casting production assets...")
     (lock_refinery overrides (fst sys)),
   snd (locale_time E (snd sys))).

Definition analysis_entry sys : string :=
  log_entry (fst (locale_time E (snd sys))) "Deconstructing visual hierarchy...".

(** The state in which [analyze()] is called, and the call. *)
Definition analysing sys : WorkflowState :=
  append_log (analysis_entry sys) (enter_analysis (fst sys)).

Definition analyze_call (imgs : list EncodedImage) sys : Outcome AnalysisResult.t * W E :=
  analyzeScreenshot E imgs (snd (locale_time E (snd sys))).

(** The system in which [research()] is called, and the call. *)
Definition researching (a : AnalysisResult.t) (imgs : list EncodedImage) sys : Sys E :=
  let w2 := snd (analyze_call imgs sys) in
  (append_log
     (log_entry (fst (locale_time E w2))
        "Mining sector intelligence & trending design patterns...")
     (enter_research (store_analysis a (analysing sys))),
   snd (locale_time E w2)).

Definition research_call (a : AnalysisResult.t) (imgs : list EncodedImage) sys
    : Outcome ResearchResult.t * W E :=
  conductResearch E a (snd (researching a imgs sys)).

(** The promises [handleFileUpload] makes for [files]: the readers are
    started after the first log line. *)
Definition conversions (files : list (File E)) sys : list (Outcome EncodedImage) :=
  fst (read_files E files (snd (locale_time E (snd sys)))).

(** The system in which the conversions are awaited. *)
Definition converting (files : list (File E)) sys : Sys E :=
  (append_log
     (log_entry (fst (locale_time E (snd sys))) "Initializing Neural Forge kernel...")
     (begin_upload (fst sys)),
   snd (read_files E files (snd (locale_time E (snd sys))))).

(** What the [catch] of lines 84-88 does. *)
Definition caught (err : JsError) sys : Sys E :=
  (append_log
     (log_entry (fst (locale_time E (snd sys))) ("[ERROR] " +:+ JsString.show (message err)))
     (fail_run (JsString.or_else (message err) "Forge sequence failed to initialize.")
        (fst sys)),
   snd (locale_time E (snd sys))).

(** The system in which the analysis phase starts. *)
Definition received (files : list (File E)) (imgs : list EncodedImage) sys : Sys E :=
  let sys1 := converting files sys in
  (append_log
     (log_entry (fst (locale_time E (snd sys1)))
        ("Blueprints received: " +:+ pretty (length files) +:+ " design files."))
     (store_uploads imgs (fst sys1)),
   snd (locale_time E (snd sys1))).

(** A piece of handler code under which the state moves by updaters only. *)
Definition traced {A} (m : M E A) : Prop :=
  ∀ sys, rtc Reach.step_to (fst sys) (fst (snd (m sys))).

End WithWorld.

Arguments traced E {A} m.

End Phases.

(** ** Scripted worlds

    A world whose services answer as a script says, whatever they are
    asked: identifiers are numbered, the clock stands still, and a file
    is the event its reader will end with. *)
Module Scripted.
Import Handlers.

Record Script := mkScript {
  on_analyze : Outcome AnalysisResult.t;
  on_research : Outcome ResearchResult.t;
  on_image : GeneratedAsset.Kind → Outcome string;
  on_code : Outcome (list WebPage.t)
}.

Definition world (sc : Script) : World := {|
  W := nat;
  File := ReadEvent;
  random_id n := ("id" +:+ pretty n, S n);
  locale_time n := ("10:00:00", n);
  date_now n := (1700000000000%Z, n);
  read_file f n := (f, n);
  analyzeScreenshot _ n := (on_analyze sc, n);
  conductResearch _ n := (on_research sc, n);
  generateNanoImage _ k n := (on_image sc k, n);
  generateSiteCode _ _ _ n := (on_code sc, n)
|}.

Definition an_analysis : AnalysisResult.t :=
  AnalysisResult.mk "landing" "retail" "sell" "everyone" [] [] [] true.

Definition a_market : ResearchResult.MarketContent :=
  ResearchResult.mkMarket "about" [] "Fresh bread daily".

Definition a_product : ProductItem.t :=
  ProductItem.mk "p1" "Loaf" "3" None None.

Definition a_research : ResearchResult.t :=
  {[ "marketContent" := ResearchResult.Market a_market;
     "trends" := ResearchResult.Strings ["warm"];
     "products" := ResearchResult.Products [a_product] ]}.

Definition a_page : WebPage.t := WebPage.mk "Home" "index.html" "<img src=u1>".

(** Every call succeeds. *)
Definition all_well : Script :=
  mkScript (Resolved an_analysis) (Resolved a_research)
    (λ _, Resolved "data:img") (Resolved [a_page]).

(** The hero image cannot be generated. *)
Definition hero_fails : Script :=
  mkScript (Resolved an_analysis) (Resolved a_research)
    (λ k, match k with
          | GeneratedAsset.hero => Rejected (mkError (Some "quota"))
          | _ => Resolved "data:img"
          end)
    (Resolved [a_page]).

(** The site code cannot be generated. *)
Definition code_fails : Script :=
  mkScript (Resolved an_analysis) (Resolved a_research)
    (λ _, Resolved "data:img") (Rejected (mkError (Some "code generation failed"))).

(** The state of a session that has reached the refinery. *)
Definition at_editor : WorkflowState :=
  Updaters.store_research a_research
    (Updaters.store_analysis an_analysis
       (Updaters.store_uploads [Some "AAAA"] (Updaters.begin_upload INITIAL_STATE))).

(** An asset and a one-page site to build states from. *)
Definition asset_x (url : string) : GeneratedAsset.t :=
  GeneratedAsset.mk "x" GeneratedAsset.hero url "a hero" None.
Definition site_of (id : string) (code : string) (assets : list GeneratedAsset.t) : GeneratedSite.t :=
  GeneratedSite.mk id "Store" [WebPage.mk "Home" "index.html" code] 0 0 assets None None None.


(** A session in preview of the site [site_of "s1" code [asset_x url]],
    which is also the gallery's only entry. *)
Definition previewing (code url : string) : WorkflowState :=
  Updaters.store_assets [asset_x url]
    (Updaters.complete_site (site_of "s1" code [asset_x url]) INITIAL_STATE).

(** A gallery of twenty earlier sites. *)
Definition full_gallery : list GeneratedSite.t :=
  (λ n : nat, site_of ("old" +:+ pretty n) "<p>" []) <$> seq 0 20.

Definition a_deployment : DeploymentState.t :=
  DeploymentState.mk DeploymentState.ready (Some "https://store.example") (Some "n1")
    None None None (Some DeploymentState.netlify) None.

(** A first run completes, and then the site is deployed. *)
Definition first_run : WorkflowState :=
  Reach.apply (Reach.ACompleteSite (site_of "s1" "<p>" [])) (Updaters.session_start []).
Definition deployed : WorkflowState := Reach.apply (Reach.ADeployment a_deployment) first_run.

(** A run completes with a site of two pages, and then the second page
    is shown. *)
Definition two_pages : GeneratedSite.t :=
  GeneratedSite.mk "s1" "Store"
    [WebPage.mk "Home" "index.html" "<p>"; WebPage.mk "About" "about.html" "<p>"]
    0 0 [] None None None.
Definition shown : WorkflowState :=
  Reach.apply (Reach.ACompleteSite two_pages) (Updaters.session_start []).
Definition paged : WorkflowState := Reach.apply (Reach.APageChange 1) shown.

(** A run from [at_editor] whose site code cannot be generated: the
    assets are made, and there is no site. *)
Definition stalled : WorkflowState :=
  Eval vm_compute in
    state_after (world code_fails) (handleRefineryConfirm (world code_fails) ∅) (at_editor, 0).

(** The first slot of a run from [at_editor]. *)
Definition hero_slot : Slot :=
  mkSlot GeneratedAsset.hero
    "High-end minimalist hero visual for retail. Theme: Fresh bread daily" None.

End Scripted.

(** ** The storage wrapper and the stored gallery

    Lines 27-58 of [src/App.tsx]: the wrapper [storage] around the
    browser's [localStorage], the initializer of the component's state,
    which reads the stored gallery, and the effect that stores the
    gallery whenever it changes. *)
Module Storage.
Import Updaters.

(** The browser's [localStorage] as the wrapper meets it.  Access may be
    denied, and every call then throws; a write may be refused (the quota
    is exceeded), and [setItem] then throws; otherwise the store is a map
    from keys to strings. *)
Record LocalStorage := mkLocalStorage {
  denied : bool;
  items : gmap string string;
  refuses : gmap string string → string → string → bool
}.

(** The two properties of [window] that the wrapper touches.
    [_nanoForgeCache] is [undefined] until the first write that falls
    back on it, and from then on the plain object [{}] with the own
    properties that the writes have given it. *)
Record Window := mkWindow {
  localStorage : LocalStorage;
  _nanoForgeCache : option (gmap string string)
}.

(** What [getItem] returns: [null], a string, or, out of the fallback
    cache, the member of that name which the cache inherits from
    [Object.prototype]. *)
Inductive Item :=
  | Null
  | Text (value : string)
  | Inherited (name : string).

(** The names that a plain object inherits from [Object.prototype]. *)
Definition prototype_members : list string :=
  [ "constructor"; "hasOwnProperty"; "isPrototypeOf"; "propertyIsEnumerable";
    "toLocaleString"; "toString"; "valueOf";
    "__defineGetter__"; "__defineSetter__"; "__lookupGetter__"; "__lookupSetter__";
    "__proto__" ].

(** [cache[key]] and [cache[key] = value] on the plain object with the
    own properties [own].  An own property hides the inherited member of
    its name; [__proto__] is an accessor: it reads as the prototype, and
    a string assigned to it is dropped.  [Null] stands for [undefined]
    here. *)
Definition cache_read (key : string) (own : gmap string string) : Item :=
  if decide (key = "__proto__") then Inherited key
  else match own !! key with
       | Some value => Text value
       | None => if decide (key ∈ prototype_members) then Inherited key else Null
       end.

Definition cache_write (key value : string) (own : gmap string string) : gmap string string :=
  if decide (key = "__proto__") then own else <[key := value]> own.

(** [window.localStorage.getItem(key)] and [window.localStorage.setItem(key,
    value)]: [None] when the call throws. *)
Definition ls_getItem (key : string) (ls : LocalStorage) : option (option string) :=
  if denied ls then None else Some (items ls !! key).

Definition ls_setItem (key value : string) (ls : LocalStorage) : option LocalStorage :=
  if denied ls then None
  else if refuses ls (items ls) key value then None
  else Some (mkLocalStorage (denied ls) (<[key := value]> (items ls)) (refuses ls)).

(** [item || null] *)
Definition or_null (item : Item) : Item :=
  match item with
  | Text "" => Null
  | _ => item
  end.

(** lines 28-35.  In the [catch], [_nanoForgeCache?.[key] || null] gives
    [null] for a missing cache, a missing key, and for the empty
    string. *)
Definition getItem (key : string) (win : Window) : Item :=
  match ls_getItem key (localStorage win) with
  | Some (Some value) => Text value
  | Some None => Null
  | None =>
    match _nanoForgeCache win with
    | Some own => or_null (cache_read key own)
    | None => Null
    end
  end.

(** lines 36-43 *)
Definition setItem (key value : string) (win : Window) : Window :=
  match ls_setItem key value (localStorage win) with
  | Some ls' => mkWindow ls' (_nanoForgeCache win)
  | None =>
    mkWindow (localStorage win)
      (Some (cache_write key value (default ∅ (_nanoForgeCache win))))
  end.

Definition GALLERY_KEY : string := "nano-forge-gallery".

Section Codec.
(** [JSON.stringify] and [JSON.parse] on galleries; [parse] gives [None]
    where [JSON.parse] throws. *)
Variable stringify : list GeneratedSite.t → string.
Variable parse : string → option (list GeneratedSite.t).

(** lines 47-50: [{ ...INITIAL_STATE, gallery: saved ? JSON.parse(saved) : [] }];
    [None] when the initializer throws, as it does when [JSON.parse] is
    given what is no JSON text, a member of [Object.prototype] among
    that. *)
Definition initial_state (win : Window) : option WorkflowState :=
  match getItem GALLERY_KEY win with
  | Null => Some (set_gallery [] INITIAL_STATE)
  | Text saved =>
    if JsString.truthy (Some saved)
    then (λ g, set_gallery g INITIAL_STATE) <$> parse saved
    else Some (set_gallery [] INITIAL_STATE)
  | Inherited _ => None
  end.

(** lines 56-58: the effect run when [state.gallery] has changed. *)
Definition persist_gallery (state : WorkflowState) (win : Window) : Window :=
  setItem GALLERY_KEY (stringify (gallery state)) win.

End Codec.

End Storage.

(** ** What is rendered

    The conditions under which [App] renders its parts (lines 245-369),
    as tests on the state. *)
Module Views.

#[global] Instance WorkflowStep_eq_dec : EqDecision WorkflowStep.
Proof. solve_decision. Defined.

Definition some {A} (v : option A) : bool :=
  match v with Some _ => true | None => false end.

(** line 245: the header's Studio button *)
Definition studio_button (s : WorkflowState) : bool := bool_decide (step s = PREVIEW).

(** line 266: the upload area, with the gallery of line 296 *)
Definition upload_view (s : WorkflowState) : bool :=
  bool_decide (step s = UPLOAD) && negb (isProcessing s).

(** line 300: the refinery *)
Definition refinery_view (s : WorkflowState) : bool :=
  bool_decide (step s = EDITOR) && some (research s).

(** line 304: the block that holds the analysis, the spinner and the
    preview; lines 306, 308 and 329: its three parts *)
Definition progress_view (s : WorkflowState) : bool :=
  (isProcessing s || bool_decide (step s = PREVIEW)) && negb (bool_decide (step s = EDITOR)).
Definition analysis_view (s : WorkflowState) : bool := progress_view s && some (analysis s).
Definition spinner (s : WorkflowState) : bool := progress_view s && isProcessing s.
Definition preview_frame (s : WorkflowState) : bool :=
  progress_view s && (bool_decide (step s = PREVIEW) && some (site s)).

(** line 364: the asset studio *)
Definition asset_studio (isAssetStudioOpen : bool) (s : WorkflowState) : bool :=
  isAssetStudioOpen && bool_decide (0 < length (generatedAssets s)).

End Views.

(** ** The component and its user

    A screen is the workflow state, the world, and the flag
    [isAssetStudioOpen] of line 52.  An event is a handler called through
    a part that is rendered: the upload area and the gallery call
    [handleFileUpload] and [handleRemix], the refinery
    [handleRefineryConfirm], the preview frame [onRetry],
    [handleDeploymentComplete] and [onPageChange], the header's button
    opens the studio, the studio calls [handleAssetUpdated] and closes
    itself, and the logo resets.  One handler runs at a time, to its
    end. *)
Module Ui.
Import Updaters Handlers Views.

Section WithWorld.
Variable E : World.

Record Screen := mkScreen {
  sys : Sys E;
  isAssetStudioOpen : bool
}.

Inductive Event :=
  | Upload (files : list (File E))
  | Remix (st : GeneratedSite.t)
  | Confirm (overrides : ResearchResult.Partial)
  | Retry
  | DeploymentComplete (d : DeploymentState.t)
  | PageChange (index : Z)
  | OpenStudio
  | CloseStudio
  | AssetUpdated (assetId newUrl : string)
  | Reset.

(** The part that calls the handler is rendered. *)
Definition offered (ev : Event) (u : Screen) : bool :=
  let s := fst (sys u) in
  match ev with
  | Upload _ | Remix _ => upload_view s
  | Confirm _ => refinery_view s
  | Retry | DeploymentComplete _ | PageChange _ => preview_frame s
  | OpenStudio => studio_button s
  | CloseStudio | AssetUpdated _ _ => asset_studio (isAssetStudioOpen u) s
  | Reset => true
  end.

Definition perform (ev : Event) (u : Screen) : Screen :=
  match ev with
  | Upload files => mkScreen (run E (handleFileUpload E files) (sys u)) (isAssetStudioOpen u)
  | Remix st => mkScreen (run E (handleRemix E st) (sys u)) (isAssetStudioOpen u)
  | Confirm overrides =>
    mkScreen (run E (handleRefineryConfirm E overrides) (sys u)) (isAssetStudioOpen u)
  | Retry => mkScreen (run E (onRetry E) (sys u)) (isAssetStudioOpen u)
  | DeploymentComplete d =>
    mkScreen (run E (handleDeploymentComplete E d) (sys u)) (isAssetStudioOpen u)
  | PageChange index => mkScreen (run E (onPageChange E index) (sys u)) (isAssetStudioOpen u)
  | OpenStudio => mkScreen (sys u) true
  | CloseStudio => mkScreen (sys u) false
  | AssetUpdated assetId newUrl =>
    mkScreen (run E (handleAssetUpdated E assetId newUrl) (sys u)) (isAssetStudioOpen u)
  | Reset => mkScreen (run E (handleReset E) (sys u)) (isAssetStudioOpen u)
  end.

(** The screens of a session that starts with the gallery [saved]. *)
Inductive reachable (saved : list GeneratedSite.t) : Screen → Prop :=
  | reach_start w : reachable saved (mkScreen (session_start saved, w) false)
  | reach_event u ev :
      reachable saved u → offered ev u = true → reachable saved (perform ev u).

(** The workflow state of a screen. *)
Definition state (u : Screen) : WorkflowState := fst (sys u).

End WithWorld.

(** Nothing of an earlier run is held. *)
Definition fresh (s : WorkflowState) : Prop :=
  uploadedImages s = [] ∧ analysis s = None ∧ research s = None
  ∧ generatedAssets s = [] ∧ site s = None.

(** What the parts that are rendered can count on: the upload area
    comes with a fresh state, the step [EDITOR] with an analysis and a
    research, the step [PREVIEW] with a site whose assets are the working
    ones. *)
Definition coherent (s : WorkflowState) : Prop :=
  (upload_view s = true → fresh s)
  ∧ (step s = EDITOR → is_Some (analysis s) ∧ is_Some (research s))
  ∧ (step s = PREVIEW →
     ∃ st, site s = Some st ∧ GeneratedSite.assets st = generatedAssets s).

Arguments mkScreen {E} sys isAssetStudioOpen.
Arguments sys {E} s.
Arguments isAssetStudioOpen {E} s.
Arguments Upload {E} files.
Arguments Remix {E} st.
Arguments Confirm {E} overrides.
Arguments Retry {E}.
Arguments DeploymentComplete {E} d.
Arguments PageChange {E} index.
Arguments OpenStudio {E}.
Arguments CloseStudio {E}.
Arguments AssetUpdated {E} assetId newUrl.
Arguments Reset {E}.
Arguments offered {E} ev u.
Arguments perform {E} ev u.
Arguments state {E} u.

End Ui.

(** ** Worlds that differ in one service, and what a run may do to the log *)
Module Conduct.
Import Updaters Handlers.

(** The world [E] with another image service. *)
Definition with_image_service (E : World)
    (service : string → GeneratedAsset.Kind → W E → Outcome string * W E) : World :=
  mkWorld (W E) (File E) (random_id E) (locale_time E) (date_now E) (read_file E)
    (analyzeScreenshot E) (conductResearch E) service (generateSiteCode E).

(** A piece of handler code that only adds to the log. *)
Definition appends (E : World) {A} (m : M E A) : Prop :=
  ∀ sys, logs (fst sys) `prefix_of` logs (fst (snd (m sys))).

(** An asset that carries the picture its slot came with; an asset that
    pictures a product of the catalog (lines 124-132). *)
Definition keeps_supplied (req : Slot) (a : GeneratedAsset.t) : Prop :=
  JsString.truthy (slot_existingUrl req) = true →
  Some (GeneratedAsset.url a) = slot_existingUrl req.

Definition pictures (p : ProductItem.t) (a : GeneratedAsset.t) : Prop :=
  GeneratedAsset.type a = GeneratedAsset.product
  ∧ if JsString.truthy (ProductItem.image p)
    then Some (GeneratedAsset.url a) = ProductItem.image p
         ∧ GeneratedAsset.prompt a = "User uploaded product: " +:+ ProductItem.name p
    else GeneratedAsset.prompt a =
           "High-end commercial photography of " +:+ ProductItem.name p
             +:+ ". 8K, Clean background.".

(** The steps in which nothing is being processed. *)
Definition settled_steps (s : WorkflowState) : Prop :=
  step s ≠ RECIPE ∧ (step s = EDITOR ∨ step s = PREVIEW → isProcessing s = false).

(** Two states that differ in their logs at most. *)
Definition same_but_logs (s s' : WorkflowState) : Prop := set_logs [] s = set_logs [] s'.

End Conduct.

(** ** More scripted worlds and states *)
Module Samples.
Import Updaters Handlers Scripted.

(** The research cannot be made. *)
Definition research_fails : Script :=
  mkScript (Resolved an_analysis) (Rejected (mkError (Some "search down")))
    (λ _, Resolved "data:img") (Resolved [a_page]).

(** The image service never answers. *)
Definition images_hang : Script :=
  mkScript (Resolved an_analysis) (Resolved a_research) (λ _, Pending) (Resolved [a_page]).

Definition png (payload : string) : ReadEvent :=
  LoadEnd (Some ("data:image/png;base64," +:+ payload)).

(** A product that comes with the user's picture. *)
Definition own_product : ProductItem.t :=
  ProductItem.mk "p2" "Bun" "1" None (Some "data:image/png;base64,QlVO").

Definition catalog : ResearchResult.Partial :=
  {[ "products" := ResearchResult.Products [a_product; own_product] ]}.

(** A window whose storage works, one whose storage is denied, one
    whose storage is denied and whose cache holds a key, and one whose
    storage is full. *)
Definition open_window : Storage.Window :=
  Storage.mkWindow (Storage.mkLocalStorage false ∅ (λ _ _ _, false)) None.
Definition private_window : Storage.Window :=
  Storage.mkWindow (Storage.mkLocalStorage true ∅ (λ _ _ _, false)) None.
Definition themed_window : Storage.Window :=
  Storage.mkWindow (Storage.mkLocalStorage true ∅ (λ _ _ _, false))
    (Some {[ "theme" := "dark" ]}).
Definition full_window : Storage.Window :=
  Storage.mkWindow
    (Storage.mkLocalStorage false {[ Storage.GALLERY_KEY := "[]" ]} (λ _ _ _, true)) None.

(** A gallery of two sites without assets, and a codec for such
    galleries: a site is stored as its identifier. *)
Definition two_sites : list GeneratedSite.t := [site_of "s2" "<p>" []; site_of "s1" "<p>" []].
Definition ids_stringify (g : list GeneratedSite.t) : string :=
  JsString.join "," (GeneratedSite.id <$> g).
Definition ids_parse (text : string) : option (list GeneratedSite.t) :=
  Some ((λ id, site_of id "<p>" []) <$> JsString.split "," text).

(** A session that starts with twenty stored sites: the opening screen,
    the screen after an upload of one file that cannot be read, after an
    upload of one file that can, and after the refinery is confirmed. *)
Definition opening : Ui.Screen (world all_well) :=
  @Ui.mkScreen (world all_well) (Updaters.session_start full_gallery, 0) false.
Definition after_failed_upload : Ui.Screen (world all_well) :=
  Ui.perform (@Ui.Upload (world all_well) [ReadThrows (mkError (Some "unreadable"))]) opening.
Definition at_refinery : Ui.Screen (world all_well) :=
  Ui.perform (@Ui.Upload (world all_well) [png "AAAA"]) opening.
Definition at_preview : Ui.Screen (world all_well) :=
  Ui.perform (Ui.Confirm ∅) at_refinery.

End Samples.

(** ** Facts

    *** Splitting, joining and replacing *)
Module JsStringFacts.
Import JsString.

Example split_ex1 : split "," "a,b,,c" = ["a"; "b"; ""; "c"].
Proof. reflexivity. Qed.
Example split_ex2 : split "ab" "xabyabab" = ["x"; "y"; ""; ""].
Proof. reflexivity. Qed.
Example split_ex3 : split "" "abc" = ["a"; "b"; "c"].
Proof. reflexivity. Qed.
Example split_ex4 : split "aa" "aaa" = [""; "a"].
Proof. reflexivity. Qed.
Example split_ex5 : split "x" "" = [""] ∧ split "" "" = [].
Proof. split; reflexivity. Qed.
Example join_ex1 : join "--" ["a"; "b"; ""] = "a--b--".
Proof. reflexivity. Qed.
Example replace_ex1 : replace_all "img=u1;bg=u1" "u1" "u2" = "img=u2;bg=u2".
Proof. reflexivity. Qed.

Section UnitFacts.
Context {A : Type} `{EqDecision A}.
Implicit Types (s sep u : list A) (l : list (list A)).

Lemma split_scan_skip sep k s : split_scan sep k s = split_scan sep 0 (drop k s).
Proof.
  revert k. induction s as [|c s IH]; intros [|k]; try reflexivity.
  simpl split_scan at 1. rewrite IH. reflexivity.
Qed.

Lemma split_scan_match sep s :
  sep ≠ [] → sep `prefix_of` s →
  split_scan sep 0 s = [] :: split_scan sep 0 (drop (length sep) s).
Proof.
  intros Hne Hp. destruct s as [|c s'].
  - apply prefix_nil_inv in Hp. contradiction.
  - simpl. rewrite decide_True by done. rewrite split_scan_skip.
    destruct sep as [|a sep']; [done|]. simpl. by rewrite Nat.sub_0_r.
Qed.

Lemma split_scan_nomatch sep c s :
  ¬ sep `prefix_of` (c :: s) →
  split_scan sep 0 (c :: s) =
    match split_scan sep 0 s with
    | chunk :: rest => (c :: chunk) :: rest
    | [] => [[c]]
    end.
Proof. intros Hp. simpl. by rewrite decide_False. Qed.

Lemma split_scan_nonempty sep k s : split_scan sep k s ≠ [].
Proof.
  revert k. induction s as [|c s IH]; intros k; [done|].
  destruct k as [|k]; simpl; [|apply IH].
  case_decide; [done|]. by destruct (split_scan sep 0 s).
Qed.

Lemma join_units_cons sep x l :
  l ≠ [] → join_units sep (x :: l) = x ++ sep ++ join_units sep l.
Proof. by destruct l. Qed.

Lemma join_units_cons_head sep c x l :
  join_units sep ((c :: x) :: l) = c :: join_units sep (x :: l).
Proof. by destruct l. Qed.

Lemma join_split_scan sep s :
  sep ≠ [] → join_units sep (split_scan sep 0 s) = s.
Proof.
  intros Hne. remember (length s) as n eqn:Hn.
  revert s Hn. induction n as [n IH] using lt_wf_ind. intros s Hn.
  destruct s as [|c s']; [done|].
  destruct (decide (sep `prefix_of` (c :: s'))) as [Hp|Hp].
  - rewrite split_scan_match by done.
    rewrite join_units_cons by apply split_scan_nonempty.
    destruct Hp as [k Hk]. rewrite Hk at 1 2. rewrite drop_app_length.
    rewrite (IH (length k)); [done| |done].
    subst n. rewrite Hk, length_app. destruct sep; [done|simpl; lia].
  - rewrite split_scan_nomatch by done.
    pose proof (IH (length s') ltac:(subst n; simpl; lia) s' eq_refl) as IHs.
    pose proof (split_scan_nonempty sep 0 s') as Hnil.
    destruct (split_scan sep 0 s') as [|chunk rest]; [done|].
    rewrite join_units_cons_head. by rewrite IHs.
Qed.

Lemma join_split_units sep s : join_units sep (split_units sep s) = s.
Proof.
  destruct sep as [|a sep']; [|by apply join_split_scan].
  simpl. induction s as [|c s IH]; [done|].
  simpl. destruct s as [|c' s']; [done|].
  simpl in *. by rewrite IH.
Qed.

(** The first chunk of a scan starts the text. *)
Lemma split_scan_head_prefix sep s chunk rest :
  sep ≠ [] → split_scan sep 0 s = chunk :: rest → chunk `prefix_of` s.
Proof.
  intros Hne Hs. pose proof (join_split_scan sep s Hne) as Hj.
  rewrite Hs in Hj. destruct rest as [|r rest].
  - simpl in Hj. by subst.
  - rewrite join_units_cons in Hj by done. rewrite <- Hj. by eexists.
Qed.

Lemma occurs_nil_inv u : occurs u [] → u = [].
Proof.
  intros (pre & post & H'). symmetry in H'.
  apply app_eq_nil in H' as [_ H']. by apply app_eq_nil in H' as [? _].
Qed.

Lemma occurs_cons_inv u c s :
  occurs u (c :: s) → u `prefix_of` (c :: s) ∨ occurs u s.
Proof.
  intros (pre & post & Heq). destruct pre as [|p pre].
  - left. exists post. done.
  - right. simplify_eq/=. by exists pre, post.
Qed.

Lemma split_scan_chunks_free sep s :
  sep ≠ [] → Forall (λ chunk, ¬ occurs sep chunk) (split_scan sep 0 s).
Proof.
  intros Hne. remember (length s) as n eqn:Hn.
  revert s Hn. induction n as [n IH] using lt_wf_ind. intros s Hn.
  destruct s as [|c s'].
  - repeat constructor. by intros ?%occurs_nil_inv.
  - destruct (decide (sep `prefix_of` (c :: s'))) as [Hp|Hp].
    + rewrite split_scan_match by done. constructor.
      * by intros ?%occurs_nil_inv.
      * apply (IH (length (drop (length sep) (c :: s')))); [|done].
        subst n. rewrite length_drop. destruct sep; [done|simpl; lia].
    + rewrite split_scan_nomatch by done.
      pose proof (IH (length s') ltac:(subst n; simpl; lia) s' eq_refl) as IHs.
      pose proof (split_scan_head_prefix sep s') as Hpre.
      destruct (split_scan sep 0 s') as [|chunk rest].
      * repeat constructor. intros [Hc|Hc%occurs_nil_inv]%occurs_cons_inv; [|done].
        apply Hp. destruct Hc as [k Hk]. destruct sep as [|a [|]]; [done| |done].
        simplify_eq/=. by exists s'.
      * apply Forall_cons in IHs as [Hchunk Hrest]. constructor; [|done].
        intros [Hc|Hc]%occurs_cons_inv; [|done].
        apply Hp. etrans; [exact Hc|]. apply prefix_cons. by eapply Hpre.
Qed.

(** A chunk without the marker [c] is passed over whole by a scan for a
    separator that holds [c]. *)
Lemma marker_not_prefix sep c x t :
  c ∈ sep → c ∉ x → x ≠ [] → ¬ sep `prefix_of` (x ++ sep ++ t).
Proof.
  intros Hc Hx Hne Hp.
  apply list_elem_of_split_l in Hc as (p & q & -> & Hp').
  rewrite <- !(assoc_L (++)) in Hp. rewrite (assoc_L (++) x p) in Hp.
  apply prefix_not_elem_of_app_cons_inv in Hp as (Heq & _); [| |done].
  - apply (f_equal length) in Heq. rewrite length_app in Heq.
    destruct x; [done|simpl in Heq; lia].
  - rewrite not_elem_of_app. done.
Qed.

Lemma split_scan_no_marker sep c x :
  c ∈ sep → c ∉ x → split_scan sep 0 x = [x].
Proof.
  intros Hc. induction x as [|a x IH]; intros Hx; [done|].
  apply not_elem_of_cons in Hx as [Hca Hx].
  rewrite split_scan_nomatch, IH; [done..|].
  intros [k Hk]. assert (c ∈ a :: x) as Hin by (rewrite Hk; apply elem_of_app; by left).
  apply elem_of_cons in Hin as [->|?]; done.
Qed.

Lemma split_scan_chunk_sep sep c x t :
  c ∈ sep → c ∉ x →
  split_scan sep 0 (x ++ sep ++ t) = x :: split_scan sep 0 t.
Proof.
  intros Hc. assert (sep ≠ []) as Hne by (intros ->; by apply elem_of_nil in Hc).
  induction x as [|a x IH]; intros Hx.
  - simpl. rewrite split_scan_match; [|done|by eexists].
    by rewrite drop_app_length.
  - pose proof Hx as Hx'. apply not_elem_of_cons in Hx' as [Hca Hx'].
    change ((a :: x) ++ sep ++ t) with (a :: (x ++ sep ++ t)).
    rewrite split_scan_nomatch, IH; [done..|].
    change (a :: (x ++ sep ++ t)) with ((a :: x) ++ sep ++ t).
    by eapply marker_not_prefix.
Qed.

Lemma includes_units_spec u s : includes_units u s = true ↔ occurs u s.
Proof.
  induction s as [|c s IH]; simpl.
  - rewrite orb_false_r, bool_decide_eq_true. split.
    + intros ->%prefix_nil_inv. by exists [], [].
    + intros ->%occurs_nil_inv. done.
  - rewrite orb_true_iff, bool_decide_eq_true, IH. split.
    + intros [[k ->]|(pre & post & ->)].
      * by exists [], k.
      * by exists (c :: pre), post.
    + apply occurs_cons_inv.
Qed.
End UnitFacts.

(** *** From code units to strings *)

Lemma of_chars_chars s : of_chars (chars s) = s.
Proof. apply String.string_of_list_ascii_of_string. Qed.

Lemma chars_of_chars l : chars (of_chars l) = l.
Proof. apply String.list_ascii_of_string_of_list_ascii. Qed.

Lemma chars_app a b : chars (a +:+ b) = chars a ++ chars b.
Proof. induction a as [|c a IH]; [done|]. simpl. by rewrite <- IH. Qed.

Lemma chars_inj a b : chars a = chars b → a = b.
Proof. intros Heq. by rewrite <- (of_chars_chars a), Heq, of_chars_chars. Qed.

Lemma chars_nil_inv a : chars a = [] → a = "".
Proof. intros Heq. by apply chars_inj. Qed.

Lemma fmap_chars_of_chars (l : list (list ascii)) : chars <$> (of_chars <$> l) = l.
Proof.
  rewrite <- list_fmap_compose. rewrite <- (list_fmap_id l) at 2.
  apply list_fmap_ext. intros _ x _. apply chars_of_chars.
Qed.

Lemma chars_replace_all code old new :
  chars (replace_all code old new)
  = join_units (chars new) (split_units (chars old) (chars code)).
Proof.
  unfold replace_all, join, split. by rewrite chars_of_chars, fmap_chars_of_chars.
Qed.

Lemma contains_occurs s u : contains s u ↔ occurs (chars u) (chars s).
Proof.
  split.
  - intros (pre & post & ->). exists (chars pre), (chars post).
    by rewrite !chars_app.
  - intros (pre & post & Heq). exists (of_chars pre), (of_chars post).
    apply chars_inj. by rewrite !chars_app, !chars_of_chars.
Qed.

Lemma includes_spec s u : includes s u = true ↔ contains s u.
Proof. unfold includes. by rewrite includes_units_spec, contains_occurs. Qed.

(** Joining the parts of a split gives the text back. *)
Lemma join_split s sep : join sep (split sep s) = s.
Proof.
  unfold join, split. rewrite fmap_chars_of_chars, join_split_units.
  apply of_chars_chars.
Qed.

Lemma split_chunks_free sep s :
  sep ≠ "" → Forall (λ chunk, ¬ contains chunk sep) (split sep s).
Proof.
  intros Hne. unfold split. apply Forall_fmap.
  assert (chars sep ≠ []) as Hsep by (by intros ?%chars_nil_inv).
  destruct (chars sep) as [|c sep'] eqn:Hc; [done|]. simpl.
  eapply Forall_impl; [apply split_scan_chunks_free; done|].
  intros chunk Hfree. simpl. by rewrite contains_occurs, chars_of_chars, Hc.
Qed.

End JsStringFacts.

(** *** References that overlap *)
Module OverlapFacts.
Import JsString JsStringFacts Overlap.

Section UnitFacts.
Context {A : Type} `{EqDecision A}.
Implicit Types (s u v k sep x t old new chunk a b : list A) (l : list (list A)).


Lemma occurs_trans u v s : occurs u v → occurs v s → occurs u s.
Proof.
  intros (p & q & ->) (p' & q' & ->). exists (p' ++ p), (q ++ q').
  by rewrite <- !(assoc_L (++)).
Qed.

Lemma occurs_prefix u v : u `prefix_of` v → occurs u v.
Proof. intros [k ->]. by exists [], k. Qed.

Lemma occurs_suffix u v : u `suffix_of` v → occurs u v.
Proof. intros [k ->]. exists k, []. by rewrite app_nil_r. Qed.



(** An occurrence in [a ++ b] lies in [a], lies in [b], or runs from the
    end of [a] into the start of [b]. *)
Lemma occurs_app_inv u a b :
  occurs u (a ++ b) →
  occurs u a ∨ occurs u b
  ∨ ∃ u1 u2, u1 ≠ [] ∧ u2 ≠ [] ∧ u = u1 ++ u2 ∧ u1 `suffix_of` a ∧ u2 `prefix_of` b.
Proof.
  intros (pre & post & Heq).
  apply app_eq_inv in Heq as [(k & -> & Hk)|(k & -> & ->)].
  - apply app_eq_inv in Hk as [(k' & -> & ->)|(k' & -> & ->)].
    + destruct k as [|c k].
      * right. left. simpl. by exists [], post.
      * destruct k' as [|c' k'].
        -- left. rewrite app_nil_r. exists pre, []. by rewrite app_nil_r.
        -- right. right. exists (c :: k), (c' :: k'). repeat split; try done.
           ++ by exists pre.
           ++ by exists post.
    + left. by exists pre, k'.
  - right. left. by exists k, post.
Qed.

(** When the two references are apart, no [old] is left in
    [chunks.join(new)] if none is in a chunk. *)
Lemma join_apart_free old new l :
  ¬ occurs old new → ¬ occurs new old → ¬ borders new old → ¬ borders old new →
  Forall (λ chunk, ¬ occurs old chunk) l →
  ¬ occurs old (join_units new l).
Proof.
  intros Hon Hno Hbn Hbo Hl. induction Hl as [|x l Hx Hl IH].
  - intros ->%occurs_nil_inv. apply Hon. by exists [], new.
  - destruct l as [|x' l']; [done|].
    rewrite join_units_cons by done.
    intros [Hc|[Hc|(u1 & u2 & Hu1 & Hu2 & -> & Hs & Hp)]]%occurs_app_inv; [done| |].
    + apply occurs_app_inv in Hc as [Hc|[Hc|(u1 & u2 & Hu1 & Hu2 & -> & Hs & Hp)]]; [done..|].
      apply Hbn. exists u1. split; [done|]. split; [done|]. by exists u2.
    + destruct (prefix_weak_total u2 new (new ++ join_units new (x' :: l')) Hp)
        as [Hpn|Hnp]; [by exists (join_units new (x' :: l'))| |].
      * apply Hbo. exists u2. split; [done|]. split; [by exists u1|done].
      * apply Hno. eapply occurs_trans; [apply occurs_prefix, Hnp|].
        apply occurs_suffix. by exists u1.
Qed.

Lemma replace_units_apart old new s :
  ¬ occurs old new → ¬ occurs new old → ¬ borders new old → ¬ borders old new →
  ¬ occurs old (join_units new (split_units old s)).
Proof.
  intros Hon Hno Hbn Hbo. apply join_apart_free; [done..|].
  destruct old as [|c old']; [|by apply split_scan_chunks_free].
  exfalso. apply Hon. by exists [], new.
Qed.










End UnitFacts.



(** After [code.split(old).join(new)] no [old] is left when the two
    references are apart. *)
Lemma replace_all_apart code old new :
  apart old new → ¬ contains (replace_all code old new) old.
Proof.
  intros (Hno & Hon & Hbo & Hbn). rewrite contains_occurs, chars_replace_all.
  apply replace_units_apart; by rewrite <- ?contains_occurs.
Qed.


End OverlapFacts.

(** *** The gallery and the active site *)
Module MirrorFacts.
Import Updaters Reach.

Lemma mirror_ids u g : GeneratedSite.id <$> mirror u g = GeneratedSite.id <$> g.
Proof.
  unfold mirror. rewrite <- list_fmap_compose. apply list_fmap_ext.
  intros _ x _. simpl. by case_decide.
Qed.

Lemma mirror_elem u g x :
  x ∈ mirror u g → GeneratedSite.id x = GeneratedSite.id u → x = u.
Proof.
  unfold mirror. intros (y & -> & _)%list_elem_of_fmap.
  by case_decide.
Qed.

(** A gallery of distinct identifiers holds one entry per identifier. *)
Lemma gallery_ids_inj (g : list GeneratedSite.t) x y :
  NoDup (GeneratedSite.id <$> g) → x ∈ g → y ∈ g →
  GeneratedSite.id x = GeneratedSite.id y → x = y.
Proof.
  intros Hnd Hx Hy Hid.
  apply list_elem_of_lookup in Hx as [i Hi]. apply list_elem_of_lookup in Hy as [j Hj].
  assert (i = j) as ->; [|congruence].
  eapply NoDup_lookup; [exact Hnd| |]; rewrite list_lookup_fmap.
  - by rewrite Hi.
  - by rewrite Hj, Hid.
Qed.

Lemma inv_frame s s' :
  gallery s' = gallery s → site s' = site s → inv s → inv s'.
Proof.
  unfold inv, synced, gallery_ids. intros -> ->. done.
Qed.

Lemma inv_start saved : NoDup (GeneratedSite.id <$> saved) → inv (session_start saved).
Proof. intros Hnd. split; [done|]. intros st g Hst. done. Qed.

Lemma inv_complete_site newSite s :
  GeneratedSite.id newSite ∉ gallery_ids s → inv s → inv (complete_site newSite s).
Proof.
  intros Hfresh [Hnd _]. split.
  - unfold gallery_ids.
    change (gallery (complete_site newSite s)) with (take 20 (newSite :: gallery s)).
    rewrite fmap_take. eapply sublist_NoDup; [|apply sublist_take].
    rewrite fmap_cons. by apply NoDup_cons.
  - intros st g [= <-] Hg Hid.
    change (gallery (complete_site newSite s)) with (take 20 (newSite :: gallery s)) in Hg.
    apply elem_of_take in Hg as (i & Hi & _). apply list_elem_of_lookup_2 in Hi.
    apply elem_of_cons in Hi as [->|Hi]; [done|].
    exfalso. apply Hfresh. rewrite <- Hid. by apply list_elem_of_fmap_2.
Qed.

Lemma inv_deployment_update d s : inv s → inv (deployment_update d s).
Proof.
  intros [Hnd Hs]. unfold deployment_update. destruct (site s) as [st|] eqn:Hst; [|done].
  split.
  - unfold gallery_ids. simpl. by rewrite mirror_ids.
  - intros st' g [= <-] Hg Hid. simpl in Hg. by apply mirror_elem in Hg.
Qed.

Lemma inv_asset_update assetId newUrl s : inv s → inv (asset_update assetId newUrl s).
Proof.
  intros [Hnd Hs]. unfold asset_update. destruct (site s) as [st|] eqn:Hst; [|done].
  destruct (find_asset assetId (generatedAssets s)) as [old|]; [|done].
  split.
  - unfold gallery_ids. simpl. by rewrite mirror_ids.
  - intros st' g [= <-] Hg Hid. simpl in Hg. by apply mirror_elem in Hg.
Qed.

Lemma inv_remix_update st s : st ∈ gallery s → inv s → inv (remix_update st s).
Proof.
  intros Hin [Hnd Hs]. split; [done|].
  intros st' g [= <-] Hg Hid. simpl in Hg. by eapply gallery_ids_inj.
Qed.

Lemma inv_reset s : inv (reset s).
Proof. split; [constructor|]. intros st g Hst. done. Qed.

(** The part of the invariant that a page change keeps. *)
Lemma page_change_gallery index s : gallery (page_change index s) = gallery s.
Proof. done. Qed.

Lemma inv_apply a s :
  is_page_change a = false → enabled a s → inv s → inv (apply a s).
Proof.
  destruct a; simpl; intros Hpc Hen Hinv; try discriminate;
    try (by eapply inv_frame; [| |exact Hinv]).
  - by apply inv_complete_site.
  - by apply inv_deployment_update.
  - by apply inv_asset_update.
  - by apply inv_remix_update.
  - apply inv_reset.
Qed.

Lemma reachable_inv_allowed allowed s :
  (∀ a, allowed a → is_page_change a = false) → reachable allowed s → inv s.
Proof.
  intros Hal. induction 1 as [saved Hnd|s a _ IH Ha Hen].
  - by apply inv_start.
  - apply inv_apply; [by apply Hal|done..].
Qed.

(** **** With the page changes *)

Lemma with_activePageIndex_own st :
  with_activePageIndex (GeneratedSite.activePageIndex st) st = st.
Proof. by destruct st. Qed.

Lemma with_activePageIndex_twice i j st :
  with_activePageIndex i (with_activePageIndex j st) = with_activePageIndex i st.
Proof. done. Qed.

Lemma synced_synced_but_page s : synced s → synced_but_page s.
Proof.
  intros Hs st g Hst Hg Hid. rewrite (Hs st g Hst Hg Hid).
  apply with_activePageIndex_own.
Qed.

Lemma inv_inv_but_page s : inv s → inv_but_page s.
Proof. intros [Hnd Hs]. split; [done|]. by apply synced_synced_but_page. Qed.

Lemma inv_but_page_frame s s' :
  gallery s' = gallery s → site s' = site s → inv_but_page s → inv_but_page s'.
Proof.
  unfold inv_but_page, synced_but_page, gallery_ids. intros -> ->. done.
Qed.

(** A deployment record attached, and an asset swapped, are mirrored
    whatever the state was. *)
Lemma synced_deployment_update d s : synced (deployment_update d s).
Proof.
  unfold deployment_update. destruct (site s) as [st|] eqn:Hst.
  - intros st' g [= <-] Hg Hid. simpl in Hg. by apply mirror_elem in Hg.
  - intros st' g Hst'. congruence.
Qed.

Lemma synced_asset_update assetId newUrl s a :
  find_asset assetId (generatedAssets s) = Some a → synced (asset_update assetId newUrl s).
Proof.
  intros Ha. unfold asset_update. destruct (site s) as [st|] eqn:Hst.
  - rewrite Ha. intros st' g [= <-] Hg Hid. simpl in Hg. by apply mirror_elem in Hg.
  - intros st' g Hst'. congruence.
Qed.

Lemma inv_but_page_apply a s :
  enabled a s → inv_but_page s → inv_but_page (apply a s).
Proof.
  destruct a; simpl; intros Hen Hinv;
    try (by eapply inv_but_page_frame; [| |exact Hinv]).
  - (* a new site *)
    destruct Hinv as [Hnd _]. apply inv_inv_but_page. split.
    + unfold gallery_ids.
      change (gallery (complete_site newSite s)) with (take 20 (newSite :: gallery s)).
      rewrite fmap_take. eapply sublist_NoDup; [|apply sublist_take].
      rewrite fmap_cons. by apply NoDup_cons.
    + intros st g [= <-] Hg Hid.
      change (gallery (complete_site newSite s)) with (take 20 (newSite :: gallery s)) in Hg.
      apply elem_of_take in Hg as (i & Hi & _). apply list_elem_of_lookup_2 in Hi.
      apply elem_of_cons in Hi as [->|Hi]; [done|].
      exfalso. apply Hen. rewrite <- Hid. by apply list_elem_of_fmap_2.
  - (* a deployment *)
    destruct Hinv as [Hnd Hs]. split.
    + unfold deployment_update, gallery_ids. destruct (site s); [|done].
      simpl. by rewrite mirror_ids.
    + apply synced_synced_but_page, synced_deployment_update.
  - (* a swap *)
    destruct Hinv as [Hnd Hs]. unfold asset_update.
    destruct (site s) as [st|] eqn:Hst; [|by split].
    destruct (find_asset assetId (generatedAssets s)) as [old|] eqn:Ha; [|by split].
    split.
    + unfold gallery_ids. simpl. by rewrite mirror_ids.
    + apply synced_synced_but_page. intros st' g [= <-] Hg Hid. simpl in Hg.
      by apply mirror_elem in Hg.
  - (* a remix *)
    destruct Hinv as [Hnd Hs]. apply inv_inv_but_page. split; [done|].
    intros st' g [= <-] Hg Hid. simpl in Hg. by eapply gallery_ids_inj.
  - (* a page change *)
    destruct Hinv as [Hnd Hs]. split; [done|].
    intros st' g Hst' Hg Hid. unfold page_change in Hst'. simpl in Hst', Hg.
    destruct (site s) as [st|] eqn:Hst; [|done]. simpl in Hst'. injection Hst' as <-.
    simpl in *. rewrite <- (Hs st g Hst Hg Hid). done.
  - (* a reset *)
    apply inv_inv_but_page, inv_reset.
Qed.

Lemma reachable_inv_but_page allowed s : reachable allowed s → inv_but_page s.
Proof.
  induction 1 as [saved Hnd|s a _ IH Ha Hen].
  - by apply inv_inv_but_page, inv_start.
  - by apply inv_but_page_apply.
Qed.

(** Claim C3 (amended): in every state reached from the start of a
    session by the updaters, the page changes among them (a new site's
    identifier being none of the gallery's, a remixed site being an entry
    of the gallery, the stored gallery holding distinct identifiers), a
    gallery entry with the active site's identifier is the active site
    but for the page index; it is the active site where the state is
    reached without a page change; and a deployment record attached, or
    an asset swapped, makes the entry the active site again, page index
    included.  The change of the active page is the one change that is
    not mirrored. *)
Theorem mirrored_mutations_synced allowed s :
  reachable allowed s →
  synced_but_page s
  ∧ ((∀ a, allowed a → is_page_change a = false) → synced s)
  ∧ (∀ d, synced (deployment_update d s))
  ∧ (∀ assetId newUrl a,
       find_asset assetId (generatedAssets s) = Some a →
       synced (asset_update assetId newUrl s)).
Proof.
  intros Hreach. split; [by apply (reachable_inv_but_page allowed)|].
  split; [intros Hal; by apply (reachable_inv_allowed allowed)|].
  split; [intros d; apply synced_deployment_update|].
  intros assetId newUrl a. apply synced_asset_update.
Qed.

End MirrorFacts.

(** *** The asset patcher *)
Module PatcherFacts.
Import JsString JsStringFacts Overlap OverlapFacts Updaters Handlers.

Lemma find_asset_Some assetId assets a :
  find_asset assetId assets = Some a → GeneratedAsset.id a = assetId ∧ a ∈ assets.
Proof.
  unfold find_asset. intros Hf. apply find_some in Hf as [Hin Hid].
  apply bool_decide_eq_true in Hid. split; [done|]. by apply list_elem_of_In.
Qed.

Lemma find_asset_swap assetId u assets a :
  find_asset assetId assets = Some a →
  find_asset assetId (swap_url assetId u assets) = Some (GeneratedAsset.with_url u a).
Proof.
  unfold find_asset, swap_url. induction assets as [|b assets IH]; [done|].
  simpl. destruct (decide (GeneratedAsset.id b = assetId)) as [Hb|Hb].
  - rewrite !bool_decide_eq_true_2 by done. by intros [= ->].
  - rewrite !bool_decide_eq_false_2 by done. exact IH.
Qed.

Lemma swap_url_entry assetId u assets a :
  a ∈ swap_url assetId u assets → GeneratedAsset.id a = assetId → GeneratedAsset.url a = u.
Proof.
  unfold swap_url. intros (b & -> & _)%list_elem_of_fmap.
  by case_decide.
Qed.



Lemma patch_pages_codes old new pages :
  WebPage.code <$> patch_pages old new pages
  = (λ code, replace_all code old new) <$> (WebPage.code <$> pages).
Proof. unfold patch_pages. rewrite <- !list_fmap_compose. done. Qed.

Lemma patch_pages_patched old new pages :
  Forall2 (Phases.patched old new) pages (patch_pages old new pages).
Proof.
  unfold patch_pages. apply Forall2_fmap_r, Forall_Forall2_diag, Forall_forall.
  intros page _. repeat split. exists (split old (WebPage.code page)).
  split; [by rewrite join_split|]. split; [done|]. apply split_chunks_free.
Qed.

Lemma patch_pages_apart old new pages page :
  apart old new → page ∈ patch_pages old new pages → ¬ contains (WebPage.code page) old.
Proof.
  intros Hapart (p & -> & _)%list_elem_of_fmap. simpl. by apply replace_all_apart.
Qed.


(** What the updater does when it finds the site and the asset. *)
Lemma asset_update_found assetId newUrl s st a :
  site s = Some st → find_asset assetId (generatedAssets s) = Some a →
  asset_update assetId newUrl s =
    let updatedAssets := swap_url assetId newUrl (generatedAssets s) in
    let updatedSite :=
      with_pages_assets (patch_pages (GeneratedAsset.url a) newUrl (GeneratedSite.pages st))
        updatedAssets st in
    set_gallery (mirror updatedSite (gallery s))
      (set_site (Some updatedSite) (set_generatedAssets updatedAssets s)).
Proof. intros Hst Ha. unfold asset_update. by rewrite Hst, Ha. Qed.

Lemma asset_update_no_site assetId newUrl s :
  site s = None → asset_update assetId newUrl s = s.
Proof. intros Hst. unfold asset_update. by rewrite Hst. Qed.

Lemma asset_update_unknown assetId newUrl s :
  find_asset assetId (generatedAssets s) = None → asset_update assetId newUrl s = s.
Proof. intros Ha. unfold asset_update. rewrite Ha. by destruct (site s). Qed.

Section Handler.
Variable E : World.

(** The handler is its updater followed by one log line. *)
Lemma handleAssetUpdated_run assetId newUrl (sys : Sys E) :
  run E (handleAssetUpdated E assetId newUrl) sys =
    (append_log
       (log_entry (fst (locale_time E (snd sys))) ("Asset " +:+ assetId +:+ " hot-swapped."))
       (asset_update assetId newUrl (fst sys)),
     snd (locale_time E (snd sys))).
Proof.
  destruct sys as [s w]. unfold run, handleAssetUpdated, addLog. simpl.
  unfold mbind, M_bind, bind, setState, call. simpl.
  by destruct (locale_time E w).
Qed.

Lemma handleAssetUpdated_state assetId newUrl (sys : Sys E) :
  ∃ time,
    state_after E (handleAssetUpdated E assetId newUrl) sys =
      append_log (log_entry time ("Asset " +:+ assetId +:+ " hot-swapped."))
        (asset_update assetId newUrl (fst sys)).
Proof. eexists. unfold state_after. by rewrite handleAssetUpdated_run. Qed.

(** What a swap does when a site is active and the asset is found. *)
Lemma hot_swap_effect assetId newRef (sys : Sys E) st a :
  site (fst sys) = Some st →
  find_asset assetId (generatedAssets (fst sys)) = Some a →
  let old := GeneratedAsset.url a in
  let s' := state_after E (handleAssetUpdated E assetId newRef) sys in
  ∃ st',
    site s' = Some st'
    ∧ GeneratedSite.pages st' = patch_pages old newRef (GeneratedSite.pages st)
    ∧ Forall2 (Phases.patched old newRef) (GeneratedSite.pages st) (GeneratedSite.pages st')
    ∧ GeneratedSite.assets st' = generatedAssets s'
    ∧ find_asset assetId (generatedAssets s') = Some (GeneratedAsset.with_url newRef a)
    ∧ (∀ a', a' ∈ generatedAssets s' → GeneratedAsset.id a' = assetId →
         GeneratedAsset.url a' = newRef)
    ∧ (apart old newRef →
       ∀ page, page ∈ GeneratedSite.pages st' → ¬ contains (WebPage.code page) old).
Proof.
  intros Hst Ha old s'.
  destruct (handleAssetUpdated_state assetId newRef sys) as [time Hs'].
  subst s'. rewrite Hs', (asset_update_found _ _ _ _ _ Hst Ha). simpl.
  eexists. split; [reflexivity|]. simpl.
  split; [done|]. split; [apply patch_pages_patched|]. repeat split.
  - by apply find_asset_swap.
  - intros a'. apply swap_url_entry.
  - intros Hapart page. by apply patch_pages_apart.
Qed.



(** Claim C10 (amended): without an active site the updater of
    [handleAssetUpdated] returns the state as it is, whatever the asset
    list holds, and the handler then appends its one log line: after the
    call every field but [logs] is as before. *)
Theorem hot_swap_without_site assetId newRef (sys : Sys E) :
  site (fst sys) = None →
  asset_update assetId newRef (fst sys) = fst sys
  ∧ ∃ time,
      state_after E (handleAssetUpdated E assetId newRef) sys =
        append_log (log_entry time ("Asset " +:+ assetId +:+ " hot-swapped.")) (fst sys).
Proof.
  intros Hst. split; [by apply asset_update_no_site|].
  destruct (handleAssetUpdated_state assetId newRef sys) as [time Hs'].
  exists time. by rewrite Hs', asset_update_no_site.
Qed.

End Handler.

End PatcherFacts.

(** *** The runs *)
Module RunFacts.
Import JsString Updaters Handlers Phases.

(** **** The log only grows *)

Lemma logs_grow_refl s : logs_grow s s.
Proof. exists []. rewrite app_nil_r. by destruct s. Qed.

Lemma logs_grow_trans s1 s2 s3 : logs_grow s1 s2 → logs_grow s2 s3 → logs_grow s1 s3.
Proof.
  intros [e1 ->] [e2 ->]. exists (e1 ++ e2). simpl. by rewrite (assoc_L (++)).
Qed.

Lemma logs_grow_append entry s : logs_grow s (append_log entry s).
Proof. by exists [entry]. Qed.

Lemma logs_grow_elem s s' entry : logs_grow s s' → entry ∈ logs s → entry ∈ logs s'.
Proof. intros [extra ->] Hin. simpl. apply elem_of_app. by left. Qed.

Section Steps.
Variable E : World.
Implicit Types (sys : Sys E) (s : WorkflowState) (w : W E).

(** **** One step of a handler *)

Lemma bind_unfold {A B} (m : M E A) (k : A → M E B) sys :
  (m ≫= k) sys =
    match m sys with
    | (Resolved a, sys') => k a sys'
    | (Rejected e, sys') => (Rejected e, sys')
    | (Pending, sys') => (Pending, sys')
    end.
Proof. reflexivity. Qed.

Lemma bind_setState {B} f (k : unit → M E B) sys :
  (setState f ≫= k) sys = k tt (f (fst sys), snd sys).
Proof. reflexivity. Qed.

Lemma addLog_unfold msg sys :
  addLog E msg sys =
    (Resolved tt,
     (append_log (log_entry (fst (locale_time E (snd sys))) msg) (fst sys),
      snd (locale_time E (snd sys)))).
Proof.
  unfold addLog. rewrite bind_unfold. unfold call.
  by destruct (locale_time E (snd sys)).
Qed.

Lemma bind_addLog {B} msg (k : unit → M E B) sys :
  (addLog E msg ≫= k) sys =
    k tt (append_log (log_entry (fst (locale_time E (snd sys))) msg) (fst sys),
          snd (locale_time E (snd sys))).
Proof. by rewrite bind_unfold, addLog_unfold. Qed.

Lemma bind_call {A B} (f : W E → A * W E) (k : A → M E B) sys :
  (call f ≫= k) sys = k (fst (f (snd sys))) (fst sys, snd (f (snd sys))).
Proof. rewrite bind_unfold. unfold call. by destruct (f (snd sys)). Qed.

Lemma bind_await {A B} (f : W E → Outcome A * W E) (k : A → M E B) sys :
  (await f ≫= k) sys =
    match fst (f (snd sys)) with
    | Resolved a => k a (fst sys, snd (f (snd sys)))
    | Rejected e => (Rejected e, (fst sys, snd (f (snd sys))))
    | Pending => (Pending, (fst sys, snd (f (snd sys))))
    end.
Proof.
  rewrite bind_unfold. unfold await. by destruct (f (snd sys)) as [[a|e|] w'].
Qed.

Lemma bind_ret {A B} (a : A) (k : A → M E B) sys : (mret a ≫= k) sys = k a sys.
Proof. reflexivity. Qed.

Lemma forge_slot_rejected req sys e w1 :
  truthy (slot_existingUrl req) = false →
  image_call E req sys = (Rejected e, w1) →
  ∃ time id w2,
    forge_slot E req sys =
      (Resolved (asset_of id req FALLBACK_URL),
       (append_log (log_entry time (warning req)) (append_log (forging_entry E req sys) (fst sys)),
        w2)).
Proof.
  intros Hex Hcall. unfold forge_slot. rewrite Hex, bind_addLog.
  unfold try_catch. rewrite bind_await. cbn [fst snd].
  change (generateNanoImage E _ _ _) with (image_call E req sys). rewrite Hcall. simpl.
  rewrite bind_addLog, bind_call. simpl. by eexists _, _, _.
Qed.

(** One turn of the loop never throws; it only adds to the log; and the
    asset it makes is made for its slot. *)
Lemma forge_slot_spec req sys :
  match forge_slot E req sys with
  | (Resolved a, sys') => made_for req a ∧ logs_grow (fst sys) (fst sys')
  | (Rejected _, _) => False
  | (Pending, sys') => fst (image_call E req sys) = Pending
  end.
Proof.
  unfold forge_slot. destruct (truthy (slot_existingUrl req)) eqn:Hex.
  - rewrite bind_addLog, bind_call. simpl. split; [done|]. apply logs_grow_append.
  - rewrite bind_addLog. unfold try_catch. rewrite bind_await. cbn [fst snd].
    change (generateNanoImage E _ _ _) with (image_call E req sys).
    destruct (image_call E req sys) as [[url|e|] w1]; simpl.
    + rewrite bind_call. simpl. split; [done|]. apply logs_grow_append.
    + rewrite bind_addLog, bind_call. simpl. split; [done|].
      eapply logs_grow_trans; apply logs_grow_append.
    + done.
Qed.

Lemma forge_slots_cons req rest sys :
  forge_slots E (req :: rest) sys =
    match forge_slot E req sys with
    | (Resolved a, sys1) =>
      match forge_slots E rest sys1 with
      | (Resolved assets, sys2) => (Resolved (a :: assets), sys2)
      | (Rejected e, sys2) => (Rejected e, sys2)
      | (Pending, sys2) => (Pending, sys2)
      end
    | (Rejected e, sys1) => (Rejected e, sys1)
    | (Pending, sys1) => (Pending, sys1)
    end.
Proof.
  simpl. rewrite bind_unfold. destruct (forge_slot E req sys) as [[a|e|] sys1]; [|done..].
  rewrite bind_unfold. by destruct (forge_slots E rest sys1) as [[assets|e|] sys2].
Qed.

Lemma forge_slots_app pre post sys assets_pre sys1 :
  forge_slots E pre sys = (Resolved assets_pre, sys1) →
  forge_slots E (pre ++ post) sys =
    match forge_slots E post sys1 with
    | (Resolved assets, sys2) => (Resolved (assets_pre ++ assets), sys2)
    | (Rejected e, sys2) => (Rejected e, sys2)
    | (Pending, sys2) => (Pending, sys2)
    end.
Proof.
  revert sys assets_pre. induction pre as [|req pre IH]; intros sys assets_pre.
  - simpl. intros [= <- <-]. by destruct (forge_slots E post sys) as [[?|?|] ?].
  - rewrite <- app_comm_cons, !forge_slots_cons.
    destruct (forge_slot E req sys) as [[a|e|] sys0]; [|done..].
    destruct (forge_slots E pre sys0) as [[assets|e|] sys0'] eqn:Hpre; [|done..].
    intros [= <- <-]. rewrite (IH _ _ Hpre).
    by destruct (forge_slots E post sys0') as [[?|?|] ?].
Qed.

(** The loop never throws: it resolves or hangs. *)
Lemma forge_slots_spec reqs sys :
  match forge_slots E reqs sys with
  | (Resolved assets, sys') => Forall2 made_for reqs assets ∧ logs_grow (fst sys) (fst sys')
  | (Rejected _, _) => False
  | (Pending, _) => ¬ images_settle E
  end.
Proof.
  revert sys. induction reqs as [|req reqs IH]; intros sys.
  - simpl. split; [constructor|apply logs_grow_refl].
  - rewrite forge_slots_cons. pose proof (forge_slot_spec req sys) as H1.
    destruct (forge_slot E req sys) as [[a|e|] sys1]; [|done|].
    + destruct H1 as [Hmade Hgrow]. pose proof (IH sys1) as H2.
      destruct (forge_slots E reqs sys1) as [[assets|e|] sys2]; [|done..].
      destruct H2 as [Hall Hgrow2]. split; [by constructor|].
      by eapply logs_grow_trans.
    + intros Hs. by eapply Hs.
Qed.

Lemma forge_slots_settle reqs sys :
  images_settle E →
  ∃ assets sys',
    forge_slots E reqs sys = (Resolved assets, sys')
    ∧ Forall2 made_for reqs assets ∧ logs_grow (fst sys) (fst sys').
Proof.
  intros Hs. pose proof (forge_slots_spec reqs sys) as H1.
  destruct (forge_slots E reqs sys) as [[assets|e|] sys']; [|done..].
  by exists assets, sys'.
Qed.

(** *** The asset and code phases *)

Lemma runAssetPhase_unfold state fr a mc sys :
  analysis state = Some a → ResearchResult.marketContent fr = Some mc →
  runAssetPhase E state fr sys =
    match forge_slots E (assetPrompts a mc fr) sys with
    | (Resolved assets, sys1) => code_phase E a mc fr assets sys1
    | (Rejected e, sys1) => (Rejected e, sys1)
    | (Pending, sys1) => (Pending, sys1)
    end.
Proof.
  intros Ha Hmc. unfold runAssetPhase. rewrite Ha, Hmc. by rewrite bind_unfold.
Qed.

Lemma code_phase_spec a mc fr assets sys :
  match code_call E a fr assets sys with
  | (Resolved pages, _) =>
    ∃ id now time w',
      code_phase E a mc fr assets sys =
        (Resolved tt,
         (append_log (log_entry time "Foundry sequence complete. Store is live for testing.")
            (complete_site (new_site id mc pages now assets a) (coding_state E assets sys)),
          w'))
  | (Rejected e, w') =>
    code_phase E a mc fr assets sys = (Rejected e, (coding_state E assets sys, w'))
  | (Pending, w') =>
    code_phase E a mc fr assets sys = (Pending, (coding_state E assets sys, w'))
  end.
Proof.
  unfold code_phase. rewrite !bind_setState, bind_addLog, bind_await. cbn [fst snd].
  change (generateSiteCode E _ _ _ _) with (code_call E a fr assets sys).
  fold (coding_state E assets sys).
  destruct (code_call E a fr assets sys) as [[pages|e|] w1]; cbn [fst snd]; [|done..].
  rewrite !bind_call, bind_setState, addLog_unfold. cbn [fst snd].
  by eexists _, _, _, _.
Qed.

Lemma refinery_run_unfold overrides sys :
  refinery_run E overrides sys =
    runAssetPhase E (fst sys) (finalResearch_of (fst sys) overrides) (locked E overrides sys).
Proof. unfold refinery_run. by rewrite bind_setState, bind_addLog. Qed.

Lemma handleRefineryConfirm_run overrides sys :
  run E (handleRefineryConfirm E overrides) sys = run E (refinery_run E overrides) sys.
Proof.
  unfold run, handleRefineryConfirm, refinery_run.
  by rewrite !bind_setState, !bind_addLog.
Qed.

(** What a resolved asset-and-code phase leaves behind. *)
Lemma runAssetPhase_resolved state fr sys sys' :
  runAssetPhase E state fr sys = (Resolved tt, sys') →
  ∃ a mc assets sys1 pages id now time,
    analysis state = Some a
    ∧ ResearchResult.marketContent fr = Some mc
    ∧ forge_slots E (assetPrompts a mc fr) sys = (Resolved assets, sys1)
    ∧ fst (code_call E a fr assets sys1) = Resolved pages
    ∧ fst sys' =
        append_log (log_entry time "Foundry sequence complete. Store is live for testing.")
          (complete_site (new_site id mc pages now assets a) (coding_state E assets sys1)).
Proof.
  intros Hrun. destruct (analysis state) as [a|] eqn:Ha; [|by unfold runAssetPhase in Hrun; rewrite Ha in Hrun].
  destruct (ResearchResult.marketContent fr) as [mc|] eqn:Hmc;
    [|by unfold runAssetPhase in Hrun; rewrite Ha, Hmc in Hrun].
  rewrite (runAssetPhase_unfold _ _ _ _ _ Ha Hmc) in Hrun.
  destruct (forge_slots E (assetPrompts a mc fr) sys) as [[assets|e|] sys1] eqn:Hforge; [|done..].
  pose proof (code_phase_spec a mc fr assets sys1) as Hcode.
  destruct (code_call E a fr assets sys1) as [[pages|e|] w1] eqn:Hcall.
  - destruct Hcode as (id & now & time & w' & Hcode). rewrite Hcode in Hrun.
    injection Hrun as <-. eexists a, mc, assets, sys1, pages, id, now, time.
    repeat split; try done. by rewrite Hcall.
  - by rewrite Hcode in Hrun.
  - by rewrite Hcode in Hrun.
Qed.

(** The last stage of a run: when the asset and code phases resolve, the
    site they assemble is the active site and heads the gallery. *)
Lemma confirmed_run_heads_gallery overrides sys :
  fst (refinery_run E overrides sys) = Resolved tt →
  let s := fst sys in
  let s' := state_after E (handleRefineryConfirm E overrides) sys in
  ∃ newSite,
    site s' = Some newSite
    ∧ gallery s' = newSite :: take 19 (gallery s)
    ∧ length (gallery s') ≤ 20
    ∧ GeneratedSite.assets newSite = generatedAssets s'
    ∧ GeneratedSite.activePageIndex newSite = 0%Z
    ∧ step s' = PREVIEW
    ∧ isProcessing s' = false.
Proof.
  intros Hres s s'. subst s'. unfold state_after. rewrite handleRefineryConfirm_run.
  unfold run. destruct (refinery_run E overrides sys) as [r sys'] eqn:Hrun.
  simpl in Hres. subst r. rewrite refinery_run_unfold in Hrun.
  apply runAssetPhase_resolved in Hrun
    as (a & mc & assets & sys1 & pages & id & now & time & Ha & Hmc & Hforge & Hcall & Hs').
  pose proof (forge_slots_spec (assetPrompts a mc (finalResearch_of (fst sys) overrides))
                (locked E overrides sys)) as Hspec.
  rewrite Hforge in Hspec. destruct Hspec as [_ [extra Hgrow]].
  cbn [snd]. rewrite Hs'. unfold coding_state. rewrite Hgrow.
  exists (new_site id mc pages now assets a). simpl.
  repeat split; try done.
  rewrite length_take. lia.
Qed.

(** Claim C8: a slot whose image call is rejected gets one asset, with the
    fallback reference, between the assets of the slots before and after
    it; the warning is in the log; and, the other calls settling and the
    code service resolving, the run resolves in [PREVIEW], not
    processing, with the error field as it was. *)
Theorem failed_slot_gets_fallback overrides sys a mc pre req post assets_pre sys1 e w1 :
  let s := fst sys in
  let fr := finalResearch_of s overrides in
  analysis s = Some a →
  ResearchResult.marketContent fr = Some mc →
  assetPrompts a mc fr = pre ++ req :: post →
  forge_slots E pre (locked E overrides sys) = (Resolved assets_pre, sys1) →
  truthy (slot_existingUrl req) = false →
  image_call E req sys1 = (Rejected e, w1) →
  images_settle E → code_resolves E →
  let s' := state_after E (handleRefineryConfirm E overrides) sys in
  fst (refinery_run E overrides sys) = Resolved tt
  ∧ step s' = PREVIEW ∧ isProcessing s' = false ∧ error s' = error s
  ∧ ∃ asset assets_post time,
      generatedAssets s' = assets_pre ++ asset :: assets_post
      ∧ GeneratedAsset.url asset = FALLBACK_URL
      ∧ made_for req asset
      ∧ Forall2 made_for pre assets_pre
      ∧ Forall2 made_for post assets_post
      ∧ log_entry time (warning req) ∈ logs s'.
Proof.
  intros s fr Ha Hmc Hslots Hpre Hex Hcall Hsettle Hcode s'.
  subst s'. unfold state_after. rewrite handleRefineryConfirm_run. unfold run.
  rewrite refinery_run_unfold. fold s fr. rewrite (runAssetPhase_unfold _ _ _ _ _ Ha Hmc).
  rewrite Hslots.
  (* the slots before: as given *)
  pose proof (forge_slots_spec pre (locked E overrides sys)) as Hspec_pre.
  rewrite Hpre in Hspec_pre. destruct Hspec_pre as [Hmade_pre [extra0 Hgrow0]].
  (* the failing slot *)
  destruct (forge_slot_rejected req sys1 e w1 Hex Hcall) as (time & id & w2 & Hslot).
  (* the slots after *)
  set (sys2 := (append_log (log_entry time (warning req))
                  (append_log (forging_entry E req sys1) (fst sys1)), w2)) in Hslot.
  destruct (forge_slots_settle post sys2 Hsettle)
    as (assets_post & sys3 & Hpost & Hmade_post & [extra3 Hgrow3]).
  rewrite (forge_slots_app pre (req :: post) _ _ _ Hpre).
  rewrite forge_slots_cons, Hslot, Hpost.
  (* the code phase *)
  set (assets := assets_pre ++ asset_of id req FALLBACK_URL :: assets_post).
  pose proof (code_phase_spec a mc fr assets sys3) as Hphase.
  destruct (Hcode a fr (GeneratedAsset.url <$> assets) (snd (locale_time E (snd sys3))))
    as [pages Hpages].
  destruct (code_call E a fr assets sys3) as [[pages'|e'|] w4] eqn:Hcc;
    unfold code_call in Hcc; rewrite Hcc in Hpages; simpl in Hpages; try done.
  destruct Hphase as (id' & now & time' & w' & ->).
  cbn [fst snd]. unfold coding_state. rewrite Hgrow3. subst sys2. cbn [fst snd].
  rewrite Hgrow0. simpl.
  repeat split.
  exists (asset_of id req FALLBACK_URL), assets_post, time.
  repeat split; try done.
  rewrite !elem_of_app, !list_elem_of_singleton. tauto.
Qed.

(** *** The refinery's merge *)

Lemma spread_lookup (base overrides : gmap string ResearchResult.Value) key :
  ResearchResult.spread base overrides !! key =
    match overrides !! key with
    | Some v => Some v
    | None => base !! key
    end.
Proof.
  unfold ResearchResult.spread. rewrite lookup_union.
  destruct (overrides !! key) as [v|]; [|by rewrite (left_id_L None _)].
  by destruct (base !! key).
Qed.

(** Claim C7: the research handed to the asset phase holds, for every key of
    the overrides, the overrides' value, and for every other key what the
    stored research holds for it (nothing, when it holds nothing). *)
Theorem confirm_merges_shallowly overrides sys base :
  research (fst sys) = Some base →
  ∃ merged,
    run E (handleRefineryConfirm E overrides) sys =
      run E (runAssetPhase E (fst sys) merged) (locked E overrides sys)
    ∧ (∀ key v, overrides !! key = Some v → merged !! key = Some v)
    ∧ (∀ key, overrides !! key = None → merged !! key = base !! key).
Proof.
  intros Hbase. exists (finalResearch_of (fst sys) overrides). split.
  - rewrite handleRefineryConfirm_run. unfold run. by rewrite refinery_run_unfold.
  - unfold finalResearch_of. rewrite Hbase. simpl.
    split; intros key; [intros v|]; intros Hk; by rewrite spread_lookup, Hk.
Qed.

(** *** The upload and analysis phases *)

Lemma runAnalysisPhase_spec imgs sys :
  match analyze_call E imgs sys with
  | (Resolved a, _) =>
    match research_call E a imgs sys with
    | (Resolved r, w4) =>
      runAnalysisPhase E imgs sys =
        (Resolved tt,
         (append_log
            (log_entry (fst (locale_time E w4)) "Harvest complete. Ready for catalog setup.")
            (store_research r (fst (researching E a imgs sys))),
          snd (locale_time E w4)))
    | (Rejected e, w4) =>
      runAnalysisPhase E imgs sys = (Rejected e, (fst (researching E a imgs sys), w4))
    | (Pending, w4) =>
      runAnalysisPhase E imgs sys = (Pending, (fst (researching E a imgs sys), w4))
    end
  | (Rejected e, w2) => runAnalysisPhase E imgs sys = (Rejected e, (analysing E sys, w2))
  | (Pending, w2) => runAnalysisPhase E imgs sys = (Pending, (analysing E sys, w2))
  end.
Proof.
  unfold runAnalysisPhase. rewrite bind_setState, bind_addLog, bind_await. cbn [fst snd].
  change (analyzeScreenshot E _ _) with (analyze_call E imgs sys).
  fold (analysis_entry E sys). fold (analysing E sys).
  unfold research_call, researching.
  destruct (analyze_call E imgs sys) as [[a|e|] w2]; cbn [fst snd]; [|done..].
  rewrite !bind_setState, bind_addLog, bind_await. cbn [fst snd].
  destruct (conductResearch E a _) as [[r|e|] w4]; cbn [fst snd]; [|done..].
  by rewrite bind_setState, addLog_unfold.
Qed.

(** The analysis phase leaves the uploads and the gallery alone. *)
Lemma runAnalysisPhase_frame imgs sys :
  let s' := fst (snd (runAnalysisPhase E imgs sys)) in
  uploadedImages s' = uploadedImages (fst sys) ∧ gallery s' = gallery (fst sys).
Proof.
  pose proof (runAnalysisPhase_spec imgs sys) as Hspec.
  destruct (analyze_call E imgs sys) as [[a|e|] w2]; [|by rewrite Hspec..].
  destruct (research_call E a imgs sys) as [[r|e|] w4]; by rewrite Hspec.
Qed.

Lemma read_files_length files w : length (fst (read_files E files w)) = length files.
Proof.
  revert w. induction files as [|file files IH]; intros w; [done|].
  simpl. destruct (read_file E file w) as [ev w1]. specialize (IH w1).
  destruct (read_files E files w1) as [ps w2]. simpl in *. by rewrite IH.
Qed.

Lemma promise_all_length {A} (ps : list (Outcome A)) l :
  promise_all ps = Resolved l → length l = length ps.
Proof.
  revert l. induction ps as [|p ps IH]; intros l; simpl.
  - by intros [= <-].
  - destruct p as [a|e|], (promise_all ps) as [l'|e'|]; try done.
    intros [= <-]. simpl. by rewrite (IH l').
Qed.

Lemma handleFileUpload_spec files sys :
  files ≠ [] →
  run E (handleFileUpload E files) sys =
    match promise_all (conversions E files sys) with
    | Resolved imgs =>
      match runAnalysisPhase E imgs (received E files imgs sys) with
      | (Rejected e, sys') => caught E e sys'
      | (_, sys') => sys'
      end
    | Rejected e => caught E e (converting E files sys)
    | Pending => converting E files sys
    end.
Proof.
  intros Hne. destruct files as [|file rest]; [done|].
  unfold run, handleFileUpload. rewrite bind_setState, bind_addLog, bind_call.
  cbn [fst snd]. unfold try_catch. rewrite bind_unfold. unfold settled at 1.
  change (read_files E (file :: rest) _) with
    (read_files E (file :: rest) (snd (locale_time E (snd sys)))).
  fold (conversions E (file :: rest) sys). fold (converting E (file :: rest) sys).
  destruct (promise_all (conversions E (file :: rest) sys)) as [imgs|e|].
  - rewrite bind_setState, bind_addLog.
    change (runAnalysisPhase E imgs _)
      with (runAnalysisPhase E imgs (received E (file :: rest) imgs sys)).
    destruct (runAnalysisPhase E imgs (received E (file :: rest) imgs sys)) as [[[]|e|] sys'];
      [done| |done].
    rewrite bind_setState, addLog_unfold. done.
  - rewrite bind_setState, addLog_unfold. done.
  - done.
Qed.

(** What holds of an upload of two files: when both conversions E
    resolve, [uploadedImages] holds the two encodings; when one is
    rejected, [uploadedImages] is what it was before the call, the error
    is set, the processing flag is cleared, and step and gallery are
    untouched; and whatever else happens, [uploadedImages] is either the
    two encodings or what it was before. *)
Theorem uploads_all_or_nothing (f1 f2 : File E) sys :
  let s := fst sys in
  let s' := state_after E (handleFileUpload E [f1; f2]) sys in
  let promises := conversions E [f1; f2] sys in
  length promises = 2
  ∧ (∀ imgs, promise_all promises = Resolved imgs →
       uploadedImages s' = imgs ∧ length imgs = 2)
  ∧ (∀ e, promise_all promises = Rejected e →
       uploadedImages s' = uploadedImages s
       ∧ error s' = Some (JsString.or_else (message e) "Forge sequence failed to initialize.")
       ∧ isProcessing s' = false ∧ step s' = UPLOAD ∧ gallery s' = gallery s)
  ∧ (uploadedImages s' = uploadedImages s ∨ length (uploadedImages s') = 2).
Proof.
  intros s s' promises. subst s'. unfold state_after.
  rewrite handleFileUpload_spec by done. fold promises.
  assert (length promises = 2) as Hlen by apply read_files_length.
  split; [done|].
  destruct (promise_all promises) as [imgs|e|] eqn:Hall.
  - assert (length imgs = 2) as Hlen' by (by rewrite (promise_all_length _ _ Hall)).
    pose proof (runAnalysisPhase_frame imgs (received E [f1; f2] imgs sys)) as [Hup _].
    destruct (runAnalysisPhase E imgs (received E [f1; f2] imgs sys)) as [[[]|e|] sys'];
      simpl in Hup; cbn [fst snd caught append_log fail_run set_logs set_error
                         set_isProcessing uploadedImages];
      rewrite Hup; (split; [by intros ? [= <-]|]); (split; [done|]); right; done.
  - split; [done|]. split; [|by left].
    intros ? [= <-]. done.
  - split; [done|]. split; [done|]. by left.
Qed.

(** The upload, analysis and research phases leave the gallery alone. *)
Lemma handleFileUpload_gallery files sys :
  gallery (state_after E (handleFileUpload E files) sys) = gallery (fst sys).
Proof.
  unfold state_after. destruct (decide (files = [])) as [->|Hne]; [done|].
  rewrite handleFileUpload_spec by done.
  destruct (promise_all (conversions E files sys)) as [imgs|e|]; [|done..].
  pose proof (runAnalysisPhase_frame imgs (received E files imgs sys)) as [_ Hg].
  destruct (runAnalysisPhase E imgs (received E files imgs sys)) as [[[]|e|] sys'];
    simpl in Hg; cbn [fst snd caught append_log fail_run set_logs set_error
                      set_isProcessing gallery]; by rewrite Hg.
Qed.

(** Claim C6: a run goes from the upload through analysis and research
    to the refinery, and on from the confirmation; when its asset and
    code phases resolve, the site they assemble is the active site and
    the gallery's first entry, the gallery holds at most 20 entries, and
    the entries behind the first are the first 19 of the gallery as it
    was before the run, in their order.  (With no file the upload does
    nothing: the statement then is about the confirmation from any
    state.) *)
Theorem completed_run_heads_gallery files overrides sys :
  let sys1 := run E (handleFileUpload E files) sys in
  fst (refinery_run E overrides sys1) = Resolved tt →
  let s' := state_after E (handleRefineryConfirm E overrides) sys1 in
  ∃ newSite,
    site s' = Some newSite
    ∧ gallery s' = newSite :: take 19 (gallery (fst sys))
    ∧ length (gallery s') ≤ 20
    ∧ GeneratedSite.assets newSite = generatedAssets s'
    ∧ GeneratedSite.activePageIndex newSite = 0%Z
    ∧ step s' = PREVIEW
    ∧ isProcessing s' = false.
Proof.
  intros sys1 Hres s'.
  destruct (confirmed_run_heads_gallery overrides sys1 Hres) as (newSite & Hsite & Hg & Hrest).
  exists newSite. split; [exact Hsite|]. split; [|exact Hrest].
  etrans; [exact Hg|]. subst sys1. by rewrite <- (handleFileUpload_gallery files sys).
Qed.

(** *** Fatal failures *)

(** A rejected [analyze()] or [research()] under [handleFileUpload] is
    caught E by lines 84-88: the message is the error, the flag is cleared. *)
Lemma upload_failure_surfaced files sys imgs e :
  files ≠ [] →
  promise_all (conversions E files sys) = Resolved imgs →
  fst (runAnalysisPhase E imgs (received E files imgs sys)) = Rejected e →
  let s' := state_after E (handleFileUpload E files) sys in
  error s' = Some (JsString.or_else (message e) "Forge sequence failed to initialize.")
  ∧ isProcessing s' = false.
Proof.
  intros Hne Hall Hrej s'. subst s'. unfold state_after.
  rewrite handleFileUpload_spec, Hall by done.
  destruct (runAnalysisPhase E imgs (received E files imgs sys)) as [r sys'].
  simpl in Hrej. by subst r.
Qed.

Lemma runAnalysisPhase_rejected imgs sys e :
  fst (runAnalysisPhase E imgs sys) = Rejected e ↔
  fst (analyze_call E imgs sys) = Rejected e
  ∨ ∃ a, fst (analyze_call E imgs sys) = Resolved a
         ∧ fst (research_call E a imgs sys) = Rejected e.
Proof.
  pose proof (runAnalysisPhase_spec imgs sys) as Hspec.
  destruct (analyze_call E imgs sys) as [[a|e1|] w2]; simpl.
  - destruct (research_call E a imgs sys) as [[r|e2|] w4] eqn:Hr; rewrite Hspec; simpl.
    + split; [done|]. intros [?|(a' & [= <-] & Ha')]; [done|]. by rewrite Hr in Ha'.
    + split.
      * intros [= ->]. right. exists a. by rewrite Hr.
      * intros [?|(a' & [= <-] & Ha')]; [done|]. rewrite Hr in Ha'.
        simpl in Ha'. by injection Ha' as ->.
    + split; [done|]. intros [?|(a' & [= <-] & Ha')]; [done|]. by rewrite Hr in Ha'.
  - rewrite Hspec. simpl. split; [intros [= ->]; by left|].
    intros [[= ->]|(a' & ? & _)]; done.
  - rewrite Hspec. simpl. split; [done|]. intros [?|(a' & ? & _)]; done.
Qed.

(** A rejected [generateSiteCode()] under [handleRefineryConfirm] is
    caught E by nothing: the step stays [CODING], the flag stays set, the
    error field stays as it was. *)
Lemma code_failure_not_surfaced overrides sys a mc assets sys1 e :
  let s := fst sys in
  let fr := finalResearch_of s overrides in
  analysis s = Some a →
  ResearchResult.marketContent fr = Some mc →
  forge_slots E (assetPrompts a mc fr) (locked E overrides sys) = (Resolved assets, sys1) →
  fst (code_call E a fr assets sys1) = Rejected e →
  let s' := state_after E (handleRefineryConfirm E overrides) sys in
  step s' = CODING ∧ isProcessing s' = true ∧ error s' = error s.
Proof.
  intros s fr Ha Hmc Hforge Hcall s'. subst s'. unfold state_after.
  rewrite handleRefineryConfirm_run. unfold run. rewrite refinery_run_unfold.
  fold s fr. rewrite (runAssetPhase_unfold _ _ _ _ _ Ha Hmc), Hforge.
  pose proof (code_phase_spec a mc fr assets sys1) as Hphase.
  destruct (code_call E a fr assets sys1) as [[pages|e'|] w']; simpl in Hcall; try done.
  rewrite Hphase. cbn [fst snd]. unfold coding_state.
  pose proof (forge_slots_spec (assetPrompts a mc fr) (locked E overrides sys)) as Hspec.
  rewrite Hforge in Hspec. destruct Hspec as [_ [extra ->]]. done.
Qed.

(** *** The handlers move by the updaters *)

Lemma traced_ret {A} (a : A) : traced E (mret a).
Proof. intros sys. apply rtc_refl. Qed.

Lemma traced_throw {A} e : traced E (throw (A:=A) e).
Proof. intros sys. apply rtc_refl. Qed.

Lemma traced_settled {A} (o : Outcome A) : traced E (settled o).
Proof. intros sys. apply rtc_refl. Qed.

Lemma traced_call {A} (f : W E → A * W E) : traced E (call f).
Proof. intros sys. unfold call. destruct (f (snd sys)). apply rtc_refl. Qed.

Lemma traced_await {A} (f : W E → Outcome A * W E) : traced E (await f).
Proof. intros sys. unfold await. destruct (f (snd sys)). apply rtc_refl. Qed.

Lemma traced_action (a : Reach.Action) : traced E (setState (Reach.apply a)).
Proof. intros sys. apply rtc_once. by exists a. Qed.

Lemma traced_bind {A B} (m : M E A) (k : A → M E B) :
  traced E m → (∀ a, traced E (k a)) → traced E (m ≫= k).
Proof.
  intros Hm Hk sys. rewrite bind_unfold. specialize (Hm sys).
  destruct (m sys) as [[a|e|] sys']; [|done..].
  etrans; [exact Hm|]. apply Hk.
Qed.

Lemma traced_try_catch {A} (body : M E A) handler :
  traced E body → (∀ e, traced E (handler e)) → traced E (try_catch body handler).
Proof.
  intros Hb Hh sys. unfold try_catch. specialize (Hb sys).
  destruct (body sys) as [[a|e|] sys']; [done| |done].
  etrans; [exact Hb|]. apply Hh.
Qed.

Lemma traced_detached {A} (m : M E A) : traced E m → traced E (detached m).
Proof. intros Hm sys. apply Hm. Qed.

Lemma traced_addLog msg : traced E (addLog E msg).
Proof.
  apply traced_bind; [apply traced_call|]. intros time.
  apply (traced_action (Reach.ALog _)).
Qed.

Ltac traced_step :=
  first
    [ apply traced_addLog | apply traced_call | apply traced_await
    | apply traced_ret | apply traced_throw | apply traced_settled
    | apply (traced_action Reach.ABeginUpload)
    | apply (traced_action (Reach.AStoreUploads _))
    | apply (traced_action (Reach.AFailRun _))
    | apply (traced_action Reach.AEnterAnalysis)
    | apply (traced_action (Reach.AStoreAnalysis _))
    | apply (traced_action Reach.AEnterResearch)
    | apply (traced_action (Reach.AStoreResearch _))
    | apply (traced_action (Reach.ALockRefinery _))
    | apply (traced_action (Reach.AStoreAssets _))
    | apply (traced_action Reach.AEnterCoding)
    | apply (traced_action (Reach.ACompleteSite _))
    | apply (traced_action (Reach.ADeployment _))
    | apply (traced_action (Reach.AAssetUpdate _ _))
    | apply (traced_action (Reach.ARemix _))
    | apply (traced_action (Reach.APageChange _))
    | apply (traced_action Reach.AReset)
    | apply traced_try_catch; [|intros ?]
    | apply traced_bind; [|intros ?] ].

Lemma traced_runAnalysisPhase imgs : traced E (runAnalysisPhase E imgs).
Proof. unfold runAnalysisPhase. repeat traced_step. Qed.

Lemma traced_forge_slot req : traced E (forge_slot E req).
Proof. unfold forge_slot. destruct (truthy _); repeat traced_step. Qed.

Lemma traced_forge_slots reqs : traced E (forge_slots E reqs).
Proof.
  induction reqs as [|req reqs IH]; simpl; [apply traced_ret|].
  apply traced_bind; [apply traced_forge_slot|]. intros asset.
  apply traced_bind; [apply IH|]. intros assets. apply traced_ret.
Qed.

Lemma traced_runAssetPhase state fr : traced E (runAssetPhase E state fr).
Proof.
  unfold runAssetPhase. destruct (analysis state); [|apply traced_throw].
  destruct (ResearchResult.marketContent fr); [|apply traced_throw].
  apply traced_bind; [apply traced_forge_slots|]. intros assets.
  repeat traced_step.
Qed.

(** Every handler moves the state by a sequence of the updaters that
    [Reach.Action] lists. *)
Lemma handlers_traced :
  (∀ files, traced E (handleFileUpload E files))
  ∧ (∀ overrides, traced E (handleRefineryConfirm E overrides))
  ∧ (∀ d, traced E (handleDeploymentComplete E d))
  ∧ (∀ assetId newUrl, traced E (handleAssetUpdated E assetId newUrl))
  ∧ (∀ st, traced E (handleRemix E st))
  ∧ traced E (handleReset E)
  ∧ traced E (onRetry E)
  ∧ (∀ index, traced E (onPageChange E index)).
Proof.
  repeat split.
  - intros [|file rest]; [apply traced_ret|]. unfold handleFileUpload.
    repeat first [apply traced_runAnalysisPhase | traced_step].
  - intros overrides sys. unfold handleRefineryConfirm.
    refine (traced_bind _ _ _ _ sys); [traced_step|]. intros _.
    apply traced_bind; [traced_step|]. intros _.
    apply traced_detached, traced_runAssetPhase.
  - intros d. unfold handleDeploymentComplete. repeat traced_step.
  - intros assetId newUrl. unfold handleAssetUpdated. repeat traced_step.
  - intros st. unfold handleRemix. repeat traced_step.
  - unfold handleReset. traced_step.
  - intros sys. unfold onRetry. apply traced_detached, traced_runAnalysisPhase.
  - intros index. unfold onPageChange. traced_step.
Qed.

End Steps.
End RunFacts.

(** *** Runs of scripted worlds *)
Module Cases.
Import JsString JsStringFacts Overlap Updaters Handlers Reach Phases Scripted.
Import OverlapFacts MirrorFacts PatcherFacts RunFacts.

Lemma paged_reachable : reachable (λ _, True) paged.
Proof.
  apply reach_step; [|done..]. apply reach_step; [|done|].
  - apply reach_start. constructor.
  - simpl. apply not_elem_of_nil.
Qed.

(** Claim C3, witness: a run completes with a site of two pages, the
    second page is shown, and the site is deployed. *)
Lemma mirrored_mutations_synced_witness :
  synced_but_page paged ∧ synced (deployment_update a_deployment paged).
Proof.
  destruct (mirrored_mutations_synced (λ _, True) paged paged_reachable)
    as (Hpage & _ & Hdeploy & _).
  split; [exact Hpage|apply Hdeploy].
Defined.

(** Claim C3 fails as stated: after a run that completes with a site of
    two pages, showing the second page changes the active site and
    leaves its gallery entry as it was. *)
Lemma mirror_broken_by_page_change :
  ∃ s, reachable (λ _, True) s ∧ ¬ synced s.
Proof.
  exists paged. split; [apply paged_reachable|].
  intros Hs. specialize (Hs (with_activePageIndex 1 two_pages) two_pages).
  discriminate Hs; [reflexivity|by left|reflexivity].
Qed.

(** Claim C2, the code at a failing input: [reset] returns every field
    to its initial value, the gallery among them. *)
Lemma reset_drops_gallery :
  let s := previewing "<p>" "u" in
  let s' := state_after (world all_well) (handleReset (world all_well)) (s, 0) in
  gallery s = [site_of "s1" "<p>" [asset_x "u"]] ∧ s' = INITIAL_STATE ∧ gallery s' = [].
Proof. repeat split. Qed.

(** Whatever the constant [INITIAL_STATE] holds, resetting to it loses
    some gallery. *)
Lemma reset_to_forgets initial :
  ∃ prev, gallery (reset_to initial prev) ≠ gallery prev.
Proof.
  exists (set_gallery (site_of "s1" "<p>" [] :: gallery initial) initial).
  unfold reset_to. cbn [gallery set_gallery]. intros Heq.
  apply (f_equal length) in Heq. cbn [length] in Heq. lia.
Qed.

(** Claim C1, the code at a failing input: [generateSiteCode()] rejects,
    and the run is left in [CODING], processing, with no error message. *)
Lemma code_failure_leaves_run_processing :
  let E := world code_fails in
  let s' := state_after E (handleRefineryConfirm E ∅) (at_editor, 0) in
  on_code code_fails = Rejected (mkError (Some "code generation failed"))
  ∧ step s' = CODING ∧ isProcessing s' = true ∧ error s' = None.
Proof. vm_compute. repeat split. Qed.

(** The handler does not clear [uploadedImages]: a rejected upload in a
    state that holds uploads leaves them in place. *)
Lemma failed_upload_keeps_old_uploads :
  let E := world all_well in
  let files := [LoadEnd (Some "data:image/png;base64,BBBB"); ReadThrows (mkError None)] in
  let s' := state_after E (handleFileUpload E files) (at_editor, 0) in
  promise_all (conversions E files (at_editor, 0)) = Rejected (mkError None)
  ∧ uploadedImages at_editor = [Some "AAAA"]
  ∧ uploadedImages s' = [Some "AAAA"]
  ∧ error s' = Some "Forge sequence failed to initialize.".
Proof. vm_compute. repeat split. Qed.



(** Claim C10, witness: no site, and an asset of that identifier. *)
Lemma hot_swap_without_site_witness :
  let E := world code_fails in
  GeneratedAsset.id <$> find_asset "id0" (generatedAssets stalled) = Some "id0"
  ∧ asset_update "id0" "data:new" stalled = stalled
  ∧ ∃ time,
      state_after E (handleAssetUpdated E "id0" "data:new") (stalled, 0) =
        append_log (log_entry time "Asset id0 hot-swapped.") stalled.
Proof.
  intros E. split; [by vm_compute|].
  exact (hot_swap_without_site E "id0" "data:new" (stalled, 0)
           ltac:(vm_compute; reflexivity)).
Defined.

(** Claim C6, witness: two files are uploaded in a session with twenty
    sites stored, the refinery is confirmed, and every call resolves. *)
Lemma completed_run_heads_gallery_witness :
  let E := world all_well in
  let files := [LoadEnd (Some "data:image/png;base64,AAAA");
                LoadEnd (Some "data:image/png;base64,BBBB")] in
  let sys := (session_start full_gallery, 0) in
  let overrides : ResearchResult.Partial := ∅ in
  let sys1 := run E (handleFileUpload E files) sys in
  let s' := state_after E (handleRefineryConfirm E overrides) sys1 in
  ∃ newSite,
    site s' = Some newSite
    ∧ gallery s' = newSite :: take 19 (gallery (fst sys))
    ∧ length (gallery s') ≤ 20
    ∧ GeneratedSite.assets newSite = generatedAssets s'
    ∧ GeneratedSite.activePageIndex newSite = 0%Z
    ∧ step s' = PREVIEW
    ∧ isProcessing s' = false.
Proof.
  intros E files sys overrides.
  exact (completed_run_heads_gallery E files overrides sys ltac:(vm_compute; reflexivity)).
Defined.

(** Claim C7, witness: [trends] overridden, [marketContent] kept. *)
Lemma confirm_merges_shallowly_witness :
  let E := world all_well in
  let overrides : ResearchResult.Partial :=
    {[ "trends" := ResearchResult.Strings ["bold"] ]} in
  ∃ merged,
    run E (handleRefineryConfirm E overrides) (at_editor, 0) =
      run E (runAssetPhase E at_editor merged) (locked E overrides (at_editor, 0))
    ∧ merged !! "trends" = Some (ResearchResult.Strings ["bold"])
    ∧ merged !! "marketContent" = Some (ResearchResult.Market a_market)
    ∧ merged !! "keywords" = None.
Proof.
  intros E overrides.
  destruct (confirm_merges_shallowly E overrides (at_editor, 0) a_research eq_refl)
    as (merged & Hrun & Hov & Hbase).
  exists merged. split; [exact Hrun|]. split; [|split].
  - by apply Hov.
  - by rewrite Hbase.
  - by rewrite Hbase.
Defined.

Lemma images_settle_hero_fails : images_settle (world hero_fails).
Proof. intros prompt kind w. by destruct kind. Qed.

Lemma code_resolves_hero_fails : code_resolves (world hero_fails).
Proof. intros a r urls w. by eexists. Qed.

(** Claim C8, witness: the hero image is rejected. *)
Lemma failed_slot_gets_fallback_witness :
  let E := world hero_fails in
  let s' := state_after E (handleRefineryConfirm E ∅) (at_editor, 0) in
  fst (refinery_run E ∅ (at_editor, 0)) = Resolved tt
  ∧ step s' = PREVIEW ∧ isProcessing s' = false ∧ error s' = error at_editor
  ∧ ∃ asset assets_post time,
      generatedAssets s' = [] ++ asset :: assets_post
      ∧ GeneratedAsset.url asset = FALLBACK_URL
      ∧ made_for hero_slot asset
      ∧ Forall2 made_for [] []
      ∧ Forall2 made_for
          [mkSlot GeneratedAsset.feature
             "Abstract high-tech professional background for retail" None;
           mkSlot GeneratedAsset.product
             "High-end commercial photography of Loaf. 8K, Clean background." None]
          assets_post
      ∧ log_entry time (warning hero_slot) ∈ logs s'.
Proof.
  intros E.
  apply (failed_slot_gets_fallback E ∅ (at_editor, 0) an_analysis a_market
           [] hero_slot _ [] (locked E ∅ (at_editor, 0))
           (mkError (Some "quota")) 0).
  - reflexivity.
  - vm_compute. reflexivity.
  - vm_compute. reflexivity.
  - reflexivity.
  - reflexivity.
  - reflexivity.
  - exact images_settle_hero_fails.
  - exact code_resolves_hero_fails.
Defined.

(** Two files converted, and one of two rejected. *)
Lemma uploads_all_or_nothing_cases :
  let E := world all_well in
  let ok := LoadEnd (Some "data:image/png;base64,BBBB") in
  let bad := ReadThrows (mkError (Some "unreadable")) in
  uploadedImages (state_after E (handleFileUpload E [ok; ok]) (at_editor, 0))
    = [Some "BBBB"; Some "BBBB"]
  ∧ uploadedImages (state_after E (handleFileUpload E [ok; bad]) (INITIAL_STATE, 0)) = []
  ∧ error (state_after E (handleFileUpload E [ok; bad]) (INITIAL_STATE, 0))
    = Some "unreadable".
Proof.
  intros E ok bad.
  destruct (uploads_all_or_nothing E ok ok (at_editor, 0)) as (_ & Hok & _).
  destruct (uploads_all_or_nothing E ok bad (INITIAL_STATE, 0)) as (_ & _ & Hbad & _).
  split; [by apply Hok|].
  destruct (Hbad (mkError (Some "unreadable")) eq_refl) as (Hup & Herr & _).
  split; [exact Hup|exact Herr].
Qed.



(** The other conditions of claims C4 and C5 are at work as well.  The
    new reference [//cdn/img] ends with a start of the old one, and the
    old one is read again across the end of the new one; the new
    reference [/a/] is not in the page, but is read across the end of
    the page's [/a] and the start of the [/a/] put after it, and the
    swap back cuts there. *)
Lemma hot_swap_overlaps :
  let E := world all_well in
  let pages_after (sys : Sys E) := GeneratedSite.pages <$> site (fst sys) in
  let s := previewing "<a href=/img/a.png/a.png>" "/img/a.png" in
  let t := previewing "<img src=/aOLD>" "OLD" in
  let t1 := run E (handleAssetUpdated E "x" "/a/") (t, 0) in
  ¬ contains "/img/a.png" "//cdn/img" ∧ ¬ contains "//cdn/img" "/img/a.png"
  ∧ pages_after (run E (handleAssetUpdated E "x" "//cdn/img") (s, 0))
    = Some [WebPage.mk "Home" "index.html" "<a href=//cdn/img/a.png>"]
  ∧ contains "<a href=//cdn/img/a.png>" "/img/a.png"
  ∧ ¬ contains "<img src=/aOLD>" "/a/"
  ∧ pages_after t1 = Some [WebPage.mk "Home" "index.html" "<img src=/a/a/>"]
  ∧ pages_after (run E (handleAssetUpdated E "x" "OLD") t1)
    = Some [WebPage.mk "Home" "index.html" "<img src=OLDa/>"].
Proof.
  intros E pages_after s t t1.
  split; [rewrite <- includes_spec; by vm_compute|].
  split; [rewrite <- includes_spec; by vm_compute|].
  split; [by vm_compute|]. split; [by exists "<a href=//cdn", ">"|].
  split; [rewrite <- includes_spec; by vm_compute|].
  split; by vm_compute.
Qed.

(** Claim C10 fails as stated: in a run whose assets are made and whose
    site is not, the handler is called for the first asset, and leaves a
    log line behind. *)
Lemma hot_swap_without_site_logs :
  let E := world code_fails in
  let s' := state_after E (handleAssetUpdated E "id0" "data:new") (stalled, 0) in
  site stalled = None
  ∧ GeneratedAsset.id <$> find_asset "id0" (generatedAssets stalled) = Some "id0"
  ∧ logs s' = logs stalled ++ ["[10:00:00] Asset id0 hot-swapped."]
  ∧ s' ≠ stalled.
Proof.
  intros E s'. split; [by vm_compute|]. split; [by vm_compute|].
  split; [by vm_compute|].
  intros Heq. apply (f_equal (λ s, length (logs s))) in Heq.
  vm_compute in Heq. discriminate.
Qed.

(** Claim C9, the code at a failing input: the second of two files cannot
    be read, its reader ends with no result, and the upload is left
    processing with no error message. *)
Lemma unreadable_file_hangs_upload :
  let E := world all_well in
  let files := [LoadEnd (Some "data:image/png;base64,AAAA"); LoadEnd None] in
  let s' := state_after E (handleFileUpload E files) (INITIAL_STATE, 0) in
  promise_all (conversions E files (INITIAL_STATE, 0)) = Pending
  ∧ uploadedImages s' = [] ∧ error s' = None ∧ isProcessing s' = true ∧ step s' = UPLOAD.
Proof. vm_compute. repeat split. Qed.

End Cases.

(** *** The storage wrapper and the stored gallery *)
Module StorageFacts.
Import JsString Updaters Storage Scripted Samples.

Lemma truthy_Some v : truthy (Some v) = true ↔ v ≠ "".
Proof.
  simpl. rewrite negb_true_iff. split.
  - intros Hv ->. by rewrite String.eqb_refl in Hv.
  - intros Hv. by apply String.eqb_neq.
Qed.

Lemma or_null_Text v : or_null (Text v) = if decide (v = "") then Null else Text v.
Proof. destruct v as [|c v]; [done|]. by rewrite decide_False. Qed.

(** What is read from the cache under the key just written. *)
Lemma cache_read_write key value own :
  cache_read key (cache_write key value own) =
    if decide (key = "__proto__") then Inherited key else Text value.
Proof.
  unfold cache_read, cache_write. destruct (decide (key = "__proto__")); [done|].
  by rewrite lookup_insert_eq.
Qed.

(** What is read from the cache under another key. *)
Lemma cache_read_write_ne key key' value own :
  key' ≠ key → cache_read key' (cache_write key value own) = cache_read key' own.
Proof.
  intros Hk. unfold cache_read, cache_write.
  destruct (decide (key' = "__proto__")); [done|].
  destruct (decide (key = "__proto__")); [done|]. by rewrite lookup_insert_ne.
Qed.

Lemma getItem_setItem key value win :
  let ls := localStorage win in
  let win' := setItem key value win in
  (denied ls = false → refuses ls (items ls) key value = false →
     getItem key win' = Text value)
  ∧ (denied ls = true →
     getItem key win' =
       if decide (key = "__proto__") then Inherited key
       else if decide (value = "") then Null else Text value)
  ∧ (denied ls = false → refuses ls (items ls) key value = true →
     getItem key win' = getItem key win
     ∧ ∃ own, _nanoForgeCache win' = Some own
              ∧ cache_read key own =
                  if decide (key = "__proto__") then Inherited key else Text value).
Proof.
  intros ls win'. subst ls win'. unfold getItem, setItem, ls_getItem, ls_setItem.
  destruct win as [[d it rf] cache]. simpl. split; [|split].
  - intros -> ->. simpl. by rewrite lookup_insert_eq.
  - intros ->. simpl. rewrite cache_read_write.
    destruct (decide (key = "__proto__")); [done|]. apply or_null_Text.
  - intros -> Hr. rewrite Hr. simpl. split; [done|].
    eexists. split; [done|]. apply cache_read_write.
Qed.

(** What [getItem] gives for the key just written.  Where storage works
    and takes the write, it is the value.  Where storage is denied, it
    is read from the fallback cache: the value, unless the value is the
    empty string, for which [|| null] gives [null], and unless the key is
    [__proto__], for which the write is dropped and the read gives the
    cache's prototype.  Where storage works and refuses the write, the
    value goes to the cache, which [getItem] does not read: it gives
    what it gave before. *)
Theorem written_value_read_back key value win :
  let ls := localStorage win in
  let win' := setItem key value win in
  (denied ls = false → refuses ls (items ls) key value = false →
     getItem key win' = Text value)
  ∧ (denied ls = true →
     getItem key win' =
       if decide (key = "__proto__") then Inherited key
       else if decide (value = "") then Null else Text value)
  ∧ (denied ls = false → refuses ls (items ls) key value = true →
     getItem key win' = getItem key win
     ∧ ∃ own, _nanoForgeCache win' = Some own
              ∧ cache_read key own =
                  if decide (key = "__proto__") then Inherited key else Text value).
Proof. apply getItem_setItem. Qed.

(** The three cases, and the key [__proto__]. *)
Lemma written_value_read_back_witness :
  getItem GALLERY_KEY (setItem GALLERY_KEY "[1]" open_window) = Text "[1]"
  ∧ getItem GALLERY_KEY (setItem GALLERY_KEY "[1]" private_window) = Text "[1]"
  ∧ getItem GALLERY_KEY (setItem GALLERY_KEY "" private_window) = Null
  ∧ getItem "__proto__" (setItem "__proto__" "[1]" private_window) = Inherited "__proto__"
  ∧ getItem GALLERY_KEY (setItem GALLERY_KEY "[1]" full_window) = Text "[]".
Proof.
  destruct (written_value_read_back GALLERY_KEY "[1]" open_window) as (Hworks & _ & _).
  destruct (written_value_read_back GALLERY_KEY "[1]" private_window) as (_ & Hdenied & _).
  destruct (written_value_read_back GALLERY_KEY "" private_window) as (_ & Hempty & _).
  destruct (written_value_read_back "__proto__" "[1]" private_window) as (_ & Hproto & _).
  destruct (written_value_read_back GALLERY_KEY "[1]" full_window) as (_ & _ & Hrefused).
  split; [by apply Hworks|]. split; [by apply Hdenied|]. split; [by apply Hempty|].
  split; [by apply Hproto|]. by destruct (Hrefused eq_refl eq_refl) as [-> _].
Defined.

(** A write under one key leaves what [getItem] gives for another key
    as it was, with one exception: the write that makes the fallback
    cache (storage is denied and there was no cache yet) makes the
    members that the cache inherits from [Object.prototype] readable,
    and [getItem] goes from [null] to the member for their names. *)
Theorem write_leaves_other_keys key key' value win :
  key' ≠ key →
  let ls := localStorage win in
  let win' := setItem key value win in
  (denied ls = false ∨ _nanoForgeCache win ≠ None ∨ key' ∉ prototype_members →
     getItem key' win' = getItem key' win)
  ∧ (denied ls = true → _nanoForgeCache win = None → key' ∈ prototype_members →
     getItem key' win = Null ∧ getItem key' win' = Inherited key').
Proof.
  intros Hk ls win'. subst ls win'. unfold getItem, setItem, ls_getItem, ls_setItem.
  destruct win as [[d it rf] cache]. simpl. split.
  - intros Hcase. destruct d; simpl.
    + destruct cache as [own|]; simpl.
      * by rewrite cache_read_write_ne.
      * destruct Hcase as [?|[?|Hmem]]; [done..|].
        rewrite cache_read_write_ne by done. unfold cache_read.
        destruct (decide (key' = "__proto__")) as [->|Hp].
        -- exfalso. apply Hmem. unfold prototype_members.
           repeat first [by constructor 1|constructor 2].
        -- rewrite lookup_empty. by rewrite decide_False.
    + destruct (rf it key value); simpl; [done|]. by rewrite lookup_insert_ne.
  - intros -> -> Hmem. simpl. split; [done|].
    rewrite cache_read_write_ne by done. unfold cache_read.
    destruct (decide (key' = "__proto__")) as [->|Hp]; [done|].
    rewrite lookup_empty. by rewrite decide_True.
Qed.

(** The cache holds a key when the gallery is written; and the cache is
    made by the write. *)
Lemma write_leaves_other_keys_witness :
  getItem "theme" (setItem GALLERY_KEY "[]" themed_window) = Text "dark"
  ∧ getItem "theme" themed_window = Text "dark"
  ∧ getItem "constructor" private_window = Null
  ∧ getItem "constructor" (setItem GALLERY_KEY "[]" private_window) = Inherited "constructor".
Proof.
  destruct (write_leaves_other_keys GALLERY_KEY "theme" "[]" themed_window ltac:(done))
    as [Hsame _].
  destruct (write_leaves_other_keys GALLERY_KEY "constructor" "[]" private_window ltac:(done))
    as [_ Hmade].
  split; [rewrite Hsame; [reflexivity|right; left; done]|]. split; [reflexivity|].
  apply Hmade; [reflexivity|reflexivity|]. by left.
Defined.

Section Codec.
Variable stringify : list GeneratedSite.t → string.
Variable parse : string → option (list GeneratedSite.t).

(** The gallery stored by the effect is the gallery the next mount of
    the component starts with, when storage takes the write or is
    denied altogether, [JSON.parse] undoes [JSON.stringify] on this
    gallery, and the stored text is not empty. *)
Theorem stored_gallery_restored state win g :
  parse (stringify (gallery state)) = Some g →
  stringify (gallery state) ≠ "" →
  (denied (localStorage win) = false →
   refuses (localStorage win) (items (localStorage win)) GALLERY_KEY
     (stringify (gallery state)) = false) →
  initial_state parse (persist_gallery stringify state win) = Some (session_start g).
Proof.
  intros Hparse Hne Hok. unfold initial_state, persist_gallery.
  destruct (getItem_setItem GALLERY_KEY (stringify (gallery state)) win)
    as (Hworks & Hdenied & _).
  assert (getItem GALLERY_KEY (setItem GALLERY_KEY (stringify (gallery state)) win)
          = Text (stringify (gallery state))) as ->.
  { destruct (denied (localStorage win)) eqn:Hd.
    - rewrite Hdenied by done. rewrite decide_False by done. by rewrite decide_False.
    - apply Hworks; [done|]. by apply Hok. }
  rewrite (proj2 (truthy_Some _) Hne). by rewrite Hparse.
Qed.

(** A write that storage refuses is lost to the next mount: it starts
    with what storage held before. *)
Theorem refused_gallery_not_restored state win :
  denied (localStorage win) = false →
  refuses (localStorage win) (items (localStorage win)) GALLERY_KEY
    (stringify (gallery state)) = true →
  initial_state parse (persist_gallery stringify state win) = initial_state parse win.
Proof.
  intros Hd Hr. unfold initial_state, persist_gallery.
  destruct (getItem_setItem GALLERY_KEY (stringify (gallery state)) win)
    as (_ & _ & Hrefused).
  by destruct (Hrefused Hd Hr) as [-> _].
Qed.

End Codec.

(** A gallery of two sites is stored and read back, where storage works
    and where it is denied; with nothing stored the mount starts with no
    gallery. *)
Lemma stored_gallery_restored_witness :
  let state := session_start two_sites in
  initial_state ids_parse (persist_gallery ids_stringify state open_window) = Some state
  ∧ initial_state ids_parse (persist_gallery ids_stringify state private_window) = Some state
  ∧ initial_state ids_parse private_window = Some (session_start [])
  ∧ state ≠ session_start [].
Proof.
  intros state. split; [|split; [|split]].
  - apply (stored_gallery_restored ids_stringify ids_parse state open_window two_sites);
      [by vm_compute|done|done].
  - apply (stored_gallery_restored ids_stringify ids_parse state private_window two_sites);
      [by vm_compute|done|done].
  - reflexivity.
  - discriminate.
Defined.

Lemma refused_gallery_not_restored_witness :
  let stringify := λ _ : list GeneratedSite.t, "[x]" in
  let parse := λ text : string, if decide (text = "[]") then Some [] else None in
  initial_state parse (persist_gallery stringify INITIAL_STATE full_window)
  = initial_state parse full_window.
Proof.
  intros stringify parse.
  apply (refused_gallery_not_restored stringify parse INITIAL_STATE full_window); done.
Defined.

End StorageFacts.

(** *** Uploads, analysis and research *)
Module UploadFacts.
Import JsString JsStringFacts Updaters Handlers Phases Views Scripted Samples RunFacts.

Lemma contains_comma s : contains s "," ↔ ","%char ∈ chars s.
Proof.
  rewrite contains_occurs. change (chars ",") with [","%char]. split.
  - intros (pre & post & ->). rewrite elem_of_app. right. by left.
  - intros (pre & post & ->)%list_elem_of_split. by exists pre, post.
Qed.

Lemma split_comma_cons header rest :
  ¬ contains header "," →
  split "," (header +:+ "," +:+ rest) = header :: split "," rest.
Proof.
  rewrite contains_comma. intros Hh. unfold split.
  rewrite !chars_app. change (chars ",") with [","%char].
  change (split_units [","%char]) with (split_scan [","%char] 0).
  rewrite (split_scan_chunk_sep [","%char] ","%char) by (done || by left).
  rewrite fmap_cons. by rewrite of_chars_chars.
Qed.

Lemma split_comma_none s : ¬ contains s "," → split "," s = [s].
Proof.
  rewrite contains_comma. intros Hs. unfold split.
  change (chars ",") with [","%char].
  change (split_units [","%char]) with (split_scan [","%char] 0).
  rewrite (split_scan_no_marker [","%char] ","%char) by (done || by left).
  simpl. by rewrite of_chars_chars.
Qed.

(** What a conversion resolves with (line 74): for a result with no
    comma, [undefined]; for a header, a comma and a payload, the
    payload; and what follows a second comma is dropped. *)
Theorem conversion_takes_second_part header payload :
  ¬ contains header "," → ¬ contains payload "," →
  promise_of (LoadEnd (Some header)) = Resolved None
  ∧ promise_of (LoadEnd (Some (header +:+ "," +:+ payload))) = Resolved (Some payload)
  ∧ ∀ rest,
      promise_of (LoadEnd (Some (header +:+ "," +:+ payload +:+ "," +:+ rest)))
      = Resolved (Some payload).
Proof.
  intros Hh Hp. unfold promise_of. split; [|split].
  - by rewrite split_comma_none.
  - by rewrite split_comma_cons, split_comma_none.
  - intros rest. by rewrite !split_comma_cons.
Qed.

Lemma conversion_takes_second_part_witness :
  promise_of (LoadEnd (Some "data:image/png;base64")) = Resolved None
  ∧ promise_of (LoadEnd (Some "data:image/png;base64,iVBORw0KGgo="))
    = Resolved (Some "iVBORw0KGgo=")
  ∧ ∀ rest,
      promise_of (LoadEnd (Some ("data:image/png;base64" +:+ "," +:+ "iVBORw0KGgo="
                                   +:+ "," +:+ rest)))
      = Resolved (Some "iVBORw0KGgo=").
Proof.
  apply (conversion_takes_second_part "data:image/png;base64" "iVBORw0KGgo=");
    rewrite <- includes_spec; by vm_compute.
Defined.

Lemma promise_all_resolved {A} (ps : list (Outcome A)) l :
  promise_all ps = Resolved l ↔ ps = Resolved <$> l.
Proof.
  revert l. induction ps as [|p ps IH]; intros l; simpl.
  - split; [by intros [= <-]|]. by destruct l.
  - split.
    + destruct p as [a|e|], (promise_all ps) as [l'|e'|] eqn:Hall; try done.
      intros [= <-]. simpl. f_equal. by apply IH.
    + destruct l as [|a l]; [done|]. intros [= -> ->].
      by rewrite (proj2 (IH l) eq_refl).
Qed.

(** A first rejection in the list is the rejection of the whole. *)
Lemma promise_all_rejected {A} (ps : list (Outcome A)) e :
  promise_all ps = Rejected e ↔
  ∃ pre post, ps = pre ++ Rejected e :: post ∧ Forall (λ p, ∀ e', p ≠ Rejected e') pre.
Proof.
  revert e. induction ps as [|p ps IH]; intros e; simpl.
  - split; [done|]. intros (pre & post & Heq & _). by destruct pre.
  - split.
    + destruct p as [a|e1|].
      * destruct (promise_all ps) as [l'|e'|] eqn:Hall; try done.
        intros [= ->]. destruct (proj1 (IH e) eq_refl) as (pre & post & -> & Hpre).
        exists (Resolved a :: pre), post. split; [done|]. by constructor.
      * intros [= ->]. exists [], ps. split; [done|constructor].
      * destruct (promise_all ps) as [l'|e'|] eqn:Hall; try done.
        intros [= ->]. destruct (proj1 (IH e) eq_refl) as (pre & post & -> & Hpre).
        exists (Pending :: pre), post. split; [done|]. by constructor.
    + intros (pre & post & Heq & Hpre). destruct pre as [|q pre]; simplify_eq/=; [done|].
      apply Forall_cons in Hpre as [Hq Hpre].
      assert (promise_all (pre ++ Rejected e :: post) = Rejected e) as ->
        by (apply IH; by exists pre, post).
      destruct q as [a|e1|]; [done| |done]. by destruct (Hq e1).
Qed.

Section Steps.
Variable E : World.
Implicit Types (sys : Sys E) (s : WorkflowState) (w : W E).

(** Every promise is the conversion of the file at its place. *)
Lemma read_files_each files w :
  Forall2 (λ file p, ∃ w', p = promise_of (fst (read_file E file w')))
    files (fst (read_files E files w)).
Proof.
  revert w. induction files as [|file files IH]; intros w; [constructor|].
  simpl. specialize (IH (snd (read_file E file w))).
  destruct (read_file E file w) as [ev w1] eqn:Hread. simpl in IH.
  destruct (read_files E files w1) as [ps w2]. simpl in *.
  constructor; [|done]. exists w. by rewrite Hread.
Qed.

(** An upload of any number of files.  When every conversion resolves,
    [uploadedImages] holds one encoding per file, each the conversion of
    the file at its place, whatever becomes of the analysis; when one is
    rejected, [uploadedImages] is what it was, the message of the first
    rejection in the list is the error, and the upload area is shown
    again; when none is rejected and one never settles, the run stays
    processing in [UPLOAD] with no error. *)
Theorem upload_stores_all_or_nothing files sys :
  files ≠ [] →
  let s := fst sys in
  let s' := state_after E (handleFileUpload E files) sys in
  let promises := conversions E files sys in
  (∀ imgs, promise_all promises = Resolved imgs →
     uploadedImages s' = imgs
     ∧ Forall2 (λ file img, ∃ w, promise_of (fst (read_file E file w)) = Resolved img)
         files imgs)
  ∧ (∀ e, promise_all promises = Rejected e →
       uploadedImages s' = uploadedImages s
       ∧ error s' = Some (or_else (message e) "Forge sequence failed to initialize.")
       ∧ upload_view s' = true ∧ gallery s' = gallery s
       ∧ ∃ pre post,
           promises = pre ++ Rejected e :: post
           ∧ Forall (λ p, ∀ e', p ≠ Rejected e') pre)
  ∧ (promise_all promises = Pending →
       uploadedImages s' = uploadedImages s
       ∧ error s' = None ∧ step s' = UPLOAD ∧ isProcessing s' = true).
Proof.
  intros Hne s s' promises. subst s'. unfold state_after.
  rewrite handleFileUpload_spec by done. fold promises.
  split; [|split].
  - intros imgs Hall. rewrite Hall.
    pose proof (runAnalysisPhase_frame E imgs (received E files imgs sys)) as [Hup _].
    split.
    + destruct (runAnalysisPhase E imgs (received E files imgs sys)) as [[[]|e|] sys'];
        simpl in Hup; cbn [fst snd caught append_log fail_run set_logs set_error
                           set_isProcessing uploadedImages]; by rewrite Hup.
    + apply promise_all_resolved in Hall. subst promises. unfold conversions in Hall.
      pose proof (read_files_each files (snd (locale_time E (snd sys)))) as Heach.
      rewrite Hall in Heach. apply Forall2_fmap_r in Heach.
      eapply Forall2_impl; [exact Heach|]. intros file img [w' Hw]. by exists w'.
  - intros e He. rewrite He. repeat split. by apply promise_all_rejected.
  - intros ->. done.
Qed.

(** A rejected analysis or research under an upload: the error is set
    and the processing flag cleared, the step stays where the failure
    struck, the uploads stay stored, an analysis made before a failing
    research stays stored too, and none of the upload area, the refinery,
    the progress block and the Studio button is rendered. *)
Theorem failed_analysis_shows_no_view files sys imgs e :
  files ≠ [] →
  promise_all (conversions E files sys) = Resolved imgs →
  fst (runAnalysisPhase E imgs (received E files imgs sys)) = Rejected e →
  let s' := state_after E (handleFileUpload E files) sys in
  let start := received E files imgs sys in
  error s' = Some (or_else (message e) "Forge sequence failed to initialize.")
  ∧ isProcessing s' = false
  ∧ uploadedImages s' = imgs
  ∧ (fst (analyze_call E imgs start) = Rejected e ∧ step s' = ANALYSIS
       ∧ analysis s' = analysis (fst sys)
     ∨ ∃ a, fst (analyze_call E imgs start) = Resolved a
            ∧ fst (research_call E a imgs start) = Rejected e
            ∧ step s' = RESEARCH ∧ analysis s' = Some a)
  ∧ research s' = research (fst sys)
  ∧ upload_view s' = false ∧ refinery_view s' = false
  ∧ progress_view s' = false ∧ studio_button s' = false.
Proof.
  intros Hne Hall Hrej s' start. subst s'. unfold state_after.
  rewrite handleFileUpload_spec, Hall by done. fold start. fold start in Hrej.
  pose proof (runAnalysisPhase_spec E imgs start) as Hspec.
  destruct (analyze_call E imgs start) as [[a|e1|] w2] eqn:Hcall.
  - destruct (research_call E a imgs start) as [[r|e2|] w4] eqn:Hres;
      rewrite Hspec in Hrej |- *; simpl in Hrej; try done.
    injection Hrej as ->. cbn [fst snd]. unfold caught. cbn [fst snd].
    repeat split; try done. right. exists a. by rewrite Hres.
  - rewrite Hspec in Hrej |- *. simpl in Hrej. injection Hrej as ->.
    cbn [fst snd]. unfold caught. cbn [fst snd].
    repeat split; try done. left. done.
  - rewrite Hspec in Hrej. done.
Qed.

End Steps.

(** Two files are read and the research service is down. *)
Lemma failed_analysis_shows_no_view_witness :
  let E := world research_fails in
  let files := [png "AAAA"; png "BBBB"] in
  let s' := state_after E (handleFileUpload E files) (INITIAL_STATE, 0) in
  error s' = Some "search down" ∧ isProcessing s' = false
  ∧ uploadedImages s' = [Some "AAAA"; Some "BBBB"]
  ∧ step s' = RESEARCH ∧ analysis s' = Some an_analysis
  ∧ upload_view s' = false ∧ refinery_view s' = false
  ∧ progress_view s' = false ∧ studio_button s' = false.
Proof.
  intros E files s'.
  destruct (failed_analysis_shows_no_view E files (INITIAL_STATE, 0)
              [Some "AAAA"; Some "BBBB"] (mkError (Some "search down"))
              ltac:(done) ltac:(vm_compute; reflexivity) ltac:(vm_compute; reflexivity))
    as (Herr & Hproc & Hup & Hcase & _ & Hviews).
  split; [exact Herr|]. split; [exact Hproc|]. split; [exact Hup|].
  destruct Hcase as [(Hcall & _)|(a & Hcall & _ & Hstep & Ha)].
  - vm_compute in Hcall. discriminate Hcall.
  - vm_compute in Hcall. injection Hcall as <-. split; [exact Hstep|]. split; [exact Ha|].
    exact Hviews.
Defined.

(** One file is read and one cannot be. *)
Lemma upload_stores_all_or_nothing_witness :
  let E := world all_well in
  let good := [png "AAAA"; png "BBBB"] in
  let bad := [png "AAAA"; ReadThrows (mkError (Some "unreadable"))] in
  uploadedImages (state_after E (handleFileUpload E good) (INITIAL_STATE, 0))
    = [Some "AAAA"; Some "BBBB"]
  ∧ uploadedImages (state_after E (handleFileUpload E bad) (INITIAL_STATE, 0)) = []
  ∧ error (state_after E (handleFileUpload E bad) (INITIAL_STATE, 0)) = Some "unreadable".
Proof.
  intros E good bad.
  destruct (upload_stores_all_or_nothing E good (INITIAL_STATE, 0) ltac:(done))
    as (Hgood & _ & _).
  destruct (upload_stores_all_or_nothing E bad (INITIAL_STATE, 0) ltac:(done))
    as (_ & Hbad & _).
  split.
  - apply (Hgood [Some "AAAA"; Some "BBBB"]). vm_compute. reflexivity.
  - destruct (Hbad (mkError (Some "unreadable")) ltac:(vm_compute; reflexivity))
      as (Hup & Herr & _).
    split; [exact Hup|exact Herr].
Defined.

End UploadFacts.

(** *** The slots and their assets *)
Module AssetFacts.
Import JsString Updaters Handlers Phases Conduct Scripted Samples RunFacts.

Lemma truthy_default (v : option string) : truthy v = true → Some (default "" v) = v.
Proof. by destruct v. Qed.

(** The turn of the loop for a slot that came with a picture. *)
Lemma forge_slot_supplied (E : World) req (sys : Sys E) :
  truthy (slot_existingUrl req) = true →
  forge_slot E req sys =
    let w1 := snd (locale_time E (snd sys)) in
    (Resolved (asset_of (fst (random_id E w1)) req (default "" (slot_existingUrl req))),
     (append_log
        (log_entry (fst (locale_time E (snd sys)))
           ("Using user-uploaded artifact for "
              +:+ GeneratedAsset.kind_name (slot_type req) +:+ "..."))
        (fst sys),
      snd (random_id E w1))).
Proof.
  intros Hex. unfold forge_slot. rewrite Hex, bind_addLog, bind_call. done.
Qed.

Section Steps.
Variable E : World.
Implicit Types (sys : Sys E) (s : WorkflowState) (w : W E).

(** For a slot that came with a picture the image service is not
    called: the turn of the loop is the same whatever the service would
    do, the asset carries the picture as it is, and the world is touched
    by the clock of the log line and the draw of the identifier only. *)
Theorem supplied_picture_skips_service service req sys :
  truthy (slot_existingUrl req) = true →
  forge_slot (with_image_service E service) req sys = forge_slot E req sys
  ∧ ∃ asset sys',
      forge_slot E req sys = (Resolved asset, sys')
      ∧ Some (GeneratedAsset.url asset) = slot_existingUrl req
      ∧ made_for req asset
      ∧ snd sys' = snd (random_id E (snd (locale_time E (snd sys)))).
Proof.
  intros Hex. split.
  - rewrite (forge_slot_supplied E req sys Hex).
    by rewrite (forge_slot_supplied (with_image_service E service) req sys Hex).
  - rewrite (forge_slot_supplied E req sys Hex). cbn zeta.
    eexists _, _. split; [reflexivity|]. split; [|done].
    simpl. by apply truthy_default.
Qed.

Lemma forge_slot_keeps req sys a sys' :
  forge_slot E req sys = (Resolved a, sys') → made_for req a ∧ keeps_supplied req a.
Proof.
  intros Hrun. pose proof (forge_slot_spec E req sys) as Hspec. rewrite Hrun in Hspec.
  cbn beta iota in Hspec. destruct Hspec as [Hmade _]. split; [exact Hmade|]. intros Hex.
  rewrite (forge_slot_supplied E req sys Hex) in Hrun. injection Hrun as <- _.
  simpl. by apply truthy_default.
Qed.

Lemma forge_slots_keep reqs sys assets sys' :
  forge_slots E reqs sys = (Resolved assets, sys') →
  Forall2 (λ req a, made_for req a ∧ keeps_supplied req a) reqs assets.
Proof.
  revert sys assets. induction reqs as [|req reqs IH]; intros sys assets.
  - simpl. intros [= <- _]. constructor.
  - rewrite forge_slots_cons.
    destruct (forge_slot E req sys) as [[a|e|] sys1] eqn:Hslot; [|done..].
    destruct (forge_slots E reqs sys1) as [[rest|e|] sys2] eqn:Hrest; [|done..].
    intros [= <- <-]. constructor; [by eapply forge_slot_keeps|by eapply IH].
Qed.

(** However the loop over the slots ends, it has changed the log only. *)
Lemma forge_slot_pending_frame req sys :
  logs_grow (fst sys) (fst (snd (forge_slot E req sys))).
Proof.
  unfold forge_slot. destruct (truthy (slot_existingUrl req)).
  - rewrite bind_addLog, bind_call. apply logs_grow_append.
  - rewrite bind_addLog. unfold try_catch. rewrite bind_await. cbn [fst snd].
    destruct (generateNanoImage E _ _ _) as [[url|e|] w1]; cbn [fst snd].
    + rewrite bind_call. apply logs_grow_append.
    + rewrite bind_addLog, bind_call. cbn [fst snd].
      eapply logs_grow_trans; apply logs_grow_append.
    + apply logs_grow_append.
Qed.

Lemma forge_slots_pending_frame reqs sys :
  logs_grow (fst sys) (fst (snd (forge_slots E reqs sys))).
Proof.
  revert sys. induction reqs as [|req reqs IH]; intros sys; [apply logs_grow_refl|].
  rewrite forge_slots_cons. pose proof (forge_slot_pending_frame req sys) as H1.
  destruct (forge_slot E req sys) as [[a|e|] sys1]; [|done..].
  specialize (IH sys1). eapply logs_grow_trans; [exact H1|].
  by destruct (forge_slots E reqs sys1) as [[assets|e|] sys2].
Qed.

Lemma product_slot_pictures p a :
  made_for (product_slot p) a → keeps_supplied (product_slot p) a → pictures p a.
Proof.
  unfold product_slot, pictures, keeps_supplied.
  destruct (truthy (ProductItem.image p)) eqn:Himg; simpl.
  - rewrite Himg. intros (Ht & Hp & _) Hk. by rewrite (Hk eq_refl).
  - by intros (Ht & Hp & _) _.
Qed.

(** What a resolved run leaves in [generatedAssets]: one asset per slot,
    in the order of the slots, that is the hero, the feature, and one per
    product of the merged catalog in the catalog's order; a product's
    asset carries the user's picture where the product has one. *)
Theorem run_makes_one_asset_per_slot overrides sys :
  fst (refinery_run E overrides sys) = Resolved tt →
  let s := fst sys in
  let fr := finalResearch_of s overrides in
  let catalog := default [] (ResearchResult.products fr) in
  let s' := state_after E (handleRefineryConfirm E overrides) sys in
  ∃ a mc,
    analysis s = Some a ∧ ResearchResult.marketContent fr = Some mc
    ∧ Forall2 (λ req asset, made_for req asset ∧ keeps_supplied req asset)
        (assetPrompts a mc fr) (generatedAssets s')
    ∧ length (generatedAssets s') = 2 + length catalog
    ∧ Forall2 pictures catalog (drop 2 (generatedAssets s')).
Proof.
  intros Hres s fr catalog s'. subst s'. unfold state_after.
  rewrite handleRefineryConfirm_run. unfold run.
  destruct (refinery_run E overrides sys) as [r sys'] eqn:Hrun.
  simpl in Hres. subst r. rewrite refinery_run_unfold in Hrun.
  apply runAssetPhase_resolved in Hrun
    as (a & mc & assets & sys1 & pages & id & now & time & Ha & Hmc & Hforge & Hcall & Hs').
  fold s in Ha. fold s fr in Hmc, Hforge.
  exists a, mc. split; [done|]. split; [done|].
  cbn [snd]. rewrite Hs'. unfold coding_state.
  change (generatedAssets _) with assets.
  pose proof (forge_slots_keep _ _ _ _ Hforge) as Hkeep.
  split; [done|].
  assert (assetPrompts a mc fr =
            [ mkSlot GeneratedAsset.hero
                ("High-end minimalist hero visual for " +:+ AnalysisResult.industry a
                   +:+ ". Theme: " +:+ ResearchResult.valueProposition mc) None;
              mkSlot GeneratedAsset.feature
                ("Abstract high-tech professional background for "
                   +:+ AnalysisResult.industry a) None ]
            ++ (product_slot <$> catalog)) as Hslots.
  { unfold assetPrompts, catalog. by destruct (ResearchResult.products fr). }
  rewrite Hslots in Hkeep.
  apply Forall2_app_inv_l in Hkeep as (two & rest & Htwo & Hrest & ->).
  apply Forall2_length in Htwo as Hlen2. simpl in Hlen2.
  apply Forall2_length in Hrest as Hlenr. rewrite length_fmap in Hlenr.
  split; [rewrite length_app; lia|].
  replace (drop 2 (two ++ rest)) with rest
    by (by rewrite Hlen2, drop_app_length).
  apply Forall2_fmap_l in Hrest.
  eapply Forall2_impl; [exact Hrest|]. intros p asset [Hm Hk]. by apply product_slot_pictures.
Qed.

(** The site of a resolved run is what the code service returned for
    the analysis, the merged research and the references of the assets in
    slot order: its pages are the pages returned, its assets the working
    assets, its name the value proposition (or the default name when that
    is empty), its analysis the analysis, and it has no deployment
    record. *)
Theorem site_is_what_code_service_returned overrides sys :
  fst (refinery_run E overrides sys) = Resolved tt →
  let s := fst sys in
  let fr := finalResearch_of s overrides in
  let s' := state_after E (handleRefineryConfirm E overrides) sys in
  ∃ a mc sys1 pages st,
    analysis s = Some a ∧ ResearchResult.marketContent fr = Some mc
    ∧ forge_slots E (assetPrompts a mc fr) (locked E overrides sys)
      = (Resolved (generatedAssets s'), sys1)
    ∧ fst (code_call E a fr (generatedAssets s') sys1) = Resolved pages
    ∧ site s' = Some st
    ∧ GeneratedSite.pages st = pages
    ∧ GeneratedSite.assets st = generatedAssets s'
    ∧ GeneratedSite.name st
      = or_else (Some (ResearchResult.valueProposition mc)) "AI Generated Store"
    ∧ GeneratedSite.analysis st = Some a
    ∧ GeneratedSite.deployment st = None.
Proof.
  intros Hres s fr s'. subst s'. unfold state_after.
  rewrite handleRefineryConfirm_run. unfold run.
  destruct (refinery_run E overrides sys) as [r sys'] eqn:Hrun.
  simpl in Hres. subst r. rewrite refinery_run_unfold in Hrun.
  apply runAssetPhase_resolved in Hrun
    as (a & mc & assets & sys1 & pages & id & now & time & Ha & Hmc & Hforge & Hcall & Hs').
  fold s in Ha. fold s fr in Hmc, Hforge, Hcall.
  cbn [snd]. rewrite Hs'. unfold coding_state.
  change (generatedAssets _) with assets.
  exists a, mc, sys1, pages. eexists. split; [done|]. split; [done|].
  split; [done|]. split; [done|]. split; [reflexivity|done].
Qed.

(** An asset phase that cannot start, because the state holds no
    analysis or the merged research no market content, or that cannot
    go on, because an image call never settles, leaves the run in
    [GENERATION], processing, with no error set, and with assets, site
    and gallery as they were: nothing catches the failure. *)
Theorem stalled_asset_phase_is_silent overrides sys :
  let s := fst sys in
  let fr := finalResearch_of s overrides in
  let s' := state_after E (handleRefineryConfirm E overrides) sys in
  (∀ a mc, analysis s = Some a → ResearchResult.marketContent fr = Some mc →
     fst (forge_slots E (assetPrompts a mc fr) (locked E overrides sys)) = Pending) →
  step s' = GENERATION ∧ isProcessing s' = true
  ∧ (error s', generatedAssets s', site s', gallery s')
    = (error s, generatedAssets s, site s, gallery s)
  ∧ researchOverrides s' = Some overrides.
Proof.
  intros s fr s' Hcase. subst s'. unfold state_after.
  rewrite handleRefineryConfirm_run. unfold run.
  rewrite refinery_run_unfold. fold s fr.
  assert (∀ s0, logs_grow (fst (locked E overrides sys)) s0 →
            step s0 = GENERATION ∧ isProcessing s0 = true
            ∧ (error s0, generatedAssets s0, site s0, gallery s0)
              = (error s, generatedAssets s, site s, gallery s)
            ∧ researchOverrides s0 = Some overrides) as Hframe.
  { intros s0 [extra ->]. done. }
  destruct (analysis s) as [a|] eqn:Ha;
    [|unfold runAssetPhase; rewrite Ha; apply Hframe, logs_grow_refl].
  destruct (ResearchResult.marketContent fr) as [mc|] eqn:Hmc;
    [|unfold runAssetPhase; rewrite Ha, Hmc; apply Hframe, logs_grow_refl].
  specialize (Hcase a mc eq_refl eq_refl).
  rewrite (runAssetPhase_unfold E _ _ _ _ _ Ha Hmc).
  pose proof (forge_slots_pending_frame (assetPrompts a mc fr) (locked E overrides sys))
    as Hgrow.
  destruct (forge_slots E (assetPrompts a mc fr) (locked E overrides sys))
    as [[assets|e|] sys1]; [done..|].
  by apply Hframe.
Qed.

End Steps.

(** The image service never answers. *)
Lemma stalled_asset_phase_is_silent_witness :
  let E := world images_hang in
  let overrides : ResearchResult.Partial := ∅ in
  let s' := state_after E (handleRefineryConfirm E overrides) (at_editor, 0) in
  step s' = GENERATION ∧ isProcessing s' = true
  ∧ (error s', generatedAssets s', site s', gallery s')
    = (error at_editor, generatedAssets at_editor, site at_editor, gallery at_editor)
  ∧ researchOverrides s' = Some overrides.
Proof.
  intros E overrides.
  apply (stalled_asset_phase_is_silent E overrides (at_editor, 0)).
  intros a mc Ha Hmc. vm_compute in Ha. injection Ha as <-.
  vm_compute in Hmc. injection Hmc as <-. by vm_compute.
Defined.

Lemma site_is_what_code_service_returned_witness :
  let E := world all_well in
  let overrides : ResearchResult.Partial := ∅ in
  let s' := state_after E (handleRefineryConfirm E overrides) (at_editor, 0) in
  ∃ st,
    site s' = Some st
    ∧ GeneratedSite.pages st = [a_page]
    ∧ GeneratedSite.assets st = generatedAssets s'
    ∧ GeneratedSite.name st = "Fresh bread daily".
Proof.
  intros E overrides s'.
  destruct (site_is_what_code_service_returned E overrides (at_editor, 0)
              ltac:(vm_compute; reflexivity))
    as (a & mc & sys1 & pages & st & Ha & Hmc & _ & Hcall & Hst & Hpages & Hassets & Hname & _).
  exists st. split; [exact Hst|].
  vm_compute in Hcall. injection Hcall as <-.
  vm_compute in Hmc. injection Hmc as <-.
  split; [exact Hpages|]. split; [exact Hassets|]. exact Hname.
Defined.

(** A product with a picture of the user's. *)
Lemma supplied_picture_skips_service_witness :
  let E := world all_well in
  let service := λ (_ : string) (_ : GeneratedAsset.Kind) (n : nat),
                   (Rejected (mkError (Some "not called")) : Outcome string, n) in
  let req := product_slot own_product in
  forge_slot (with_image_service E service) req (at_editor, 0) = forge_slot E req (at_editor, 0)
  ∧ ∃ asset sys',
      forge_slot E req (at_editor, 0) = (Resolved asset, sys')
      ∧ Some (GeneratedAsset.url asset) = Some "data:image/png;base64,QlVO"
      ∧ made_for req asset
      ∧ snd sys' = 1.
Proof.
  intros E service req.
  exact (supplied_picture_skips_service E service req (at_editor, 0) eq_refl).
Defined.

(** The refinery is confirmed with a catalog of two products, the second
    with a picture of the user's. *)
Lemma run_makes_one_asset_per_slot_witness :
  let E := world all_well in
  let s' := state_after E (handleRefineryConfirm E catalog) (at_editor, 0) in
  length (generatedAssets s') = 4
  ∧ Forall2 pictures [a_product; own_product] (drop 2 (generatedAssets s'))
  ∧ GeneratedAsset.url <$> generatedAssets s'
    = ["data:img"; "data:img"; "data:img"; "data:image/png;base64,QlVO"].
Proof.
  intros E s'.
  destruct (run_makes_one_asset_per_slot E catalog (at_editor, 0)
              ltac:(vm_compute; reflexivity)) as (a & mc & _ & _ & _ & Hlen & Hpics).
  split; [exact Hlen|]. split; [exact Hpics|]. by vm_compute.
Defined.

End AssetFacts.

(** *** Deployment, hot swap and remix *)
Module SiteFacts.
Import JsString JsStringFacts Updaters Handlers Reach Phases Views Conduct Scripted Samples.
Import MirrorFacts PatcherFacts RunFacts.

(** **** Up to the log *)

Lemma same_but_logs_refl s : same_but_logs s s.
Proof. done. Qed.

Lemma same_but_logs_trans s1 s2 s3 :
  same_but_logs s1 s2 → same_but_logs s2 s3 → same_but_logs s1 s3.
Proof. unfold same_but_logs. congruence. Qed.

Lemma same_but_logs_set l s : same_but_logs (set_logs l s) s.
Proof. done. Qed.

Lemma same_but_logs_append entry s : same_but_logs (append_log entry s) s.
Proof. done. Qed.

Lemma set_logs_own s : set_logs (logs s) s = s.
Proof. by destruct s. Qed.

Lemma deployment_update_logs d l s :
  deployment_update d (set_logs l s) = set_logs l (deployment_update d s).
Proof. unfold deployment_update. simpl. by destruct (site s). Qed.

Lemma asset_update_logs assetId newUrl l s :
  asset_update assetId newUrl (set_logs l s) = set_logs l (asset_update assetId newUrl s).
Proof.
  unfold asset_update. simpl. destruct (site s); [|done].
  by destruct (find_asset assetId (generatedAssets s)).
Qed.

(** An updater that passes the log through acts alike on states that
    differ in the log only. *)
Lemma same_but_logs_updater (f : WorkflowState → WorkflowState) s1 s2 :
  (∀ l s, f (set_logs l s) = set_logs l (f s)) →
  same_but_logs s1 s2 → same_but_logs (f s1) (f s2).
Proof.
  intros Hf Hs. unfold same_but_logs in *.
  rewrite <- !Hf. by rewrite Hs.
Qed.

(** **** The updaters, composed *)

Lemma mirror_mirror u1 u2 g :
  GeneratedSite.id u1 = GeneratedSite.id u2 → mirror u2 (mirror u1 g) = mirror u2 g.
Proof.
  intros Hid. unfold mirror. rewrite <- list_fmap_compose. apply list_fmap_ext.
  intros _ x _. simpl. destruct (decide (GeneratedSite.id x = GeneratedSite.id u1)) as [Hx|Hx].
  - rewrite decide_True by done. rewrite decide_True by congruence. done.
  - done.
Qed.

Lemma attach_deployment_deployment d st :
  GeneratedSite.deployment (attach_deployment d st) = Some d.
Proof. by destruct d. Qed.

Lemma attach_deployment_twice d1 d2 st :
  attach_deployment d2 (attach_deployment d1 st) = attach_deployment d2 st.
Proof. done. Qed.

Lemma deployment_update_twice d1 d2 s :
  deployment_update d2 (deployment_update d1 s) = deployment_update d2 s.
Proof.
  unfold deployment_update. destruct (site s) as [st|] eqn:Hst; simpl; [|by rewrite Hst].
  by rewrite mirror_mirror.
Qed.

Lemma swap_url_twice assetId u v assets :
  swap_url assetId u (swap_url assetId v assets) = swap_url assetId u assets.
Proof.
  unfold swap_url. rewrite <- list_fmap_compose. apply list_fmap_ext.
  intros _ a _. simpl. destruct (decide (GeneratedAsset.id a = assetId)); simpl.
  - by rewrite decide_True.
  - by rewrite decide_False.
Qed.

Lemma patch_pages_same u pages : patch_pages u u pages = pages.
Proof.
  unfold patch_pages. rewrite <- (list_fmap_id pages) at 2. apply list_fmap_ext.
  intros _ [name filename code] _. unfold WebPage.with_code, replace_all. simpl.
  by rewrite join_split.
Qed.

Lemma asset_update_twice assetId u s :
  asset_update assetId u (asset_update assetId u s) = asset_update assetId u s.
Proof.
  destruct (site s) as [st|] eqn:Hst; [|by rewrite !(asset_update_no_site _ _ s Hst)].
  destruct (find_asset assetId (generatedAssets s)) as [a|] eqn:Ha;
    [|by rewrite !(asset_update_unknown _ _ s Ha)].
  rewrite (asset_update_found _ _ _ _ _ Hst Ha). cbn zeta.
  erewrite asset_update_found; [|reflexivity|simpl; by apply find_asset_swap].
  simpl. rewrite swap_url_twice, patch_pages_same.
  by rewrite mirror_mirror.
Qed.

Lemma deployment_asset_update_comm d assetId u s :
  asset_update assetId u (deployment_update d s)
  = deployment_update d (asset_update assetId u s).
Proof.
  destruct (site s) as [st|] eqn:Hst.
  - destruct (find_asset assetId (generatedAssets s)) as [a|] eqn:Ha.
    + rewrite (asset_update_found _ _ _ _ _ Hst Ha). cbn zeta.
      unfold deployment_update at 2. cbn [site set_gallery set_site set_generatedAssets].
      unfold deployment_update. rewrite Hst.
      erewrite asset_update_found; [|reflexivity|exact Ha].
      simpl. by rewrite !mirror_mirror.
    + rewrite (asset_update_unknown _ _ s Ha).
      apply asset_update_unknown. unfold deployment_update. by rewrite Hst.
  - rewrite (asset_update_no_site _ _ s Hst).
    apply asset_update_no_site. unfold deployment_update. by rewrite Hst.
Qed.

Section Handler.
Variable E : World.
Implicit Types (sys : Sys E) (s : WorkflowState).

Lemma handleDeploymentComplete_run d sys :
  run E (handleDeploymentComplete E d) sys =
    (append_log
       (log_entry (fst (locale_time E (snd sys)))
          ("DEPLOYMENT SYNC VERIFIED: " +:+ show (DeploymentState.url d)))
       (deployment_update d (fst sys)),
     snd (locale_time E (snd sys))).
Proof.
  unfold run, handleDeploymentComplete. by rewrite bind_setState, addLog_unfold.
Qed.

Lemma handleRemix_run st sys :
  run E (handleRemix E st) sys =
    (append_log
       (log_entry (fst (locale_time E (snd sys))) ("Reloading archive: " +:+ GeneratedSite.name st))
       (remix_update st (fst sys)),
     snd (locale_time E (snd sys))).
Proof. unfold run, handleRemix. by rewrite bind_setState, addLog_unfold. Qed.

Lemma handleAssetUpdated_same assetId u sys :
  same_but_logs (state_after E (handleAssetUpdated E assetId u) sys)
    (asset_update assetId u (fst sys)).
Proof. unfold state_after. by rewrite handleAssetUpdated_run. Qed.

Lemma handleDeploymentComplete_same d sys :
  same_but_logs (state_after E (handleDeploymentComplete E d) sys)
    (deployment_update d (fst sys)).
Proof. unfold state_after. by rewrite handleDeploymentComplete_run. Qed.

(** **** Deployment *)

(** With a site active, the handler attaches the record it is given, as
    it is, to the active site, whose other fields stay; every gallery
    entry with the site's identifier becomes the new site, and every
    other entry stays at its place; nothing else but the log changes. *)
Theorem deployment_recorded d sys st :
  site (fst sys) = Some st →
  let s := fst sys in
  let s' := state_after E (handleDeploymentComplete E d) sys in
  ∃ st',
    site s' = Some st'
    ∧ GeneratedSite.deployment st' = Some d
    ∧ st' = attach_deployment d st
    ∧ (GeneratedSite.id st', GeneratedSite.name st', GeneratedSite.pages st',
       GeneratedSite.assets st', GeneratedSite.timestamp st')
      = (GeneratedSite.id st, GeneratedSite.name st, GeneratedSite.pages st,
         GeneratedSite.assets st, GeneratedSite.timestamp st)
    ∧ length (gallery s') = length (gallery s)
    ∧ (∀ i g, gallery s !! i = Some g →
         gallery s' !! i
         = Some (if decide (GeneratedSite.id g = GeneratedSite.id st) then st' else g))
    ∧ same_but_logs s' (set_gallery (gallery s') (set_site (Some st') s)).
Proof.
  intros Hst s s'. subst s s'. unfold state_after. rewrite handleDeploymentComplete_run.
  cbn [fst]. unfold deployment_update. rewrite Hst.
  exists (attach_deployment d st). cbn -[mirror attach_deployment].
  split; [done|]. split; [apply attach_deployment_deployment|].
  split; [done|]. split; [done|].
  split; [unfold mirror; by rewrite length_fmap|]. split; [|done].
  intros i g Hg. unfold mirror. by rewrite list_lookup_fmap, Hg.
Qed.

(** Of two deployments recorded one after the other the second alone
    counts: the state is as if the first had not been recorded, up to
    the log. *)
Theorem last_deployment_wins d1 d2 sys :
  let sys1 := run E (handleDeploymentComplete E d1) sys in
  same_but_logs
    (state_after E (handleDeploymentComplete E d2) sys1)
    (state_after E (handleDeploymentComplete E d2) sys).
Proof.
  intros sys1. subst sys1. unfold state_after. rewrite !handleDeploymentComplete_run.
  cbn [fst snd]. unfold same_but_logs, append_log.
  rewrite !deployment_update_logs. cbn [set_logs logs]. simpl.
  rewrite <- (deployment_update_twice d1 d2 (fst sys)). done.
Qed.

(** Recording a deployment and swapping an asset can be done in either
    order: the states differ in the log at most. *)
Theorem deployment_and_swap_commute d assetId newRef sys :
  same_but_logs
    (state_after E (handleAssetUpdated E assetId newRef)
       (run E (handleDeploymentComplete E d) sys))
    (state_after E (handleDeploymentComplete E d)
       (run E (handleAssetUpdated E assetId newRef) sys)).
Proof.
  unfold state_after.
  rewrite !handleDeploymentComplete_run, !handleAssetUpdated_run. cbn [fst snd].
  unfold same_but_logs, append_log.
  rewrite !deployment_update_logs, !asset_update_logs. cbn [set_logs logs]. simpl.
  by rewrite deployment_asset_update_comm.
Qed.

(** **** Hot swap *)

(** Swapping an asset to the same reference twice is the same as
    swapping it once, up to the log. *)
Theorem swap_twice_is_once assetId newRef sys :
  let sys1 := run E (handleAssetUpdated E assetId newRef) sys in
  same_but_logs (state_after E (handleAssetUpdated E assetId newRef) sys1) (fst sys1).
Proof.
  intros sys1. subst sys1. unfold state_after. rewrite !handleAssetUpdated_run.
  cbn [fst snd]. unfold same_but_logs, append_log.
  rewrite !asset_update_logs. cbn [set_logs logs]. simpl.
  by rewrite asset_update_twice.
Qed.

Lemma swap_url_shape assetId u assets :
  Forall2 (λ a a', GeneratedAsset.id a' = GeneratedAsset.id a
                   ∧ GeneratedAsset.type a' = GeneratedAsset.type a
                   ∧ GeneratedAsset.prompt a' = GeneratedAsset.prompt a
                   ∧ (GeneratedAsset.id a ≠ assetId → a' = a))
    assets (swap_url assetId u assets).
Proof.
  unfold swap_url. apply Forall2_fmap_r, Forall_Forall2_diag, Forall_forall.
  intros a _. simpl. by destruct (decide (GeneratedAsset.id a = assetId)).
Qed.

Lemma patch_pages_shape old new pages :
  Forall2 (λ p p', WebPage.name p' = WebPage.name p ∧ WebPage.filename p' = WebPage.filename p)
    pages (patch_pages old new pages).
Proof.
  unfold patch_pages. apply Forall2_fmap_r, Forall_Forall2_diag, Forall_forall. done.
Qed.

(** What a swap never touches: the step, the flags, the error, the
    uploads, analysis and research; the identifiers of the gallery; the
    number of assets, their identifiers, kinds and prompts, and every
    asset with another identifier; the active site's identifier, name,
    time, deployment record and shown page, and its pages' names and file
    names.  A swap for an identifier that no asset has changes the log
    only. *)
Theorem swap_keeps_shape assetId newRef sys :
  let s := fst sys in
  let s' := state_after E (handleAssetUpdated E assetId newRef) sys in
  (step s', isProcessing s', error s', uploadedImages s', analysis s', research s')
  = (step s, isProcessing s, error s, uploadedImages s, analysis s, research s)
  ∧ gallery_ids s' = gallery_ids s
  ∧ Forall2 (λ a a', GeneratedAsset.id a' = GeneratedAsset.id a
                     ∧ GeneratedAsset.type a' = GeneratedAsset.type a
                     ∧ GeneratedAsset.prompt a' = GeneratedAsset.prompt a
                     ∧ (GeneratedAsset.id a ≠ assetId → a' = a))
      (generatedAssets s) (generatedAssets s')
  ∧ (∀ st, site s = Some st →
       ∃ st', site s' = Some st'
         ∧ (GeneratedSite.id st', GeneratedSite.name st', GeneratedSite.timestamp st',
            GeneratedSite.deployment st', GeneratedSite.activePageIndex st')
           = (GeneratedSite.id st, GeneratedSite.name st, GeneratedSite.timestamp st,
              GeneratedSite.deployment st, GeneratedSite.activePageIndex st)
         ∧ Forall2 (λ p p', WebPage.name p' = WebPage.name p
                            ∧ WebPage.filename p' = WebPage.filename p)
             (GeneratedSite.pages st) (GeneratedSite.pages st'))
  ∧ (find_asset assetId (generatedAssets s) = None → same_but_logs s' s).
Proof.
  intros s s'. subst s'. unfold state_after. rewrite handleAssetUpdated_run. cbn [fst].
  fold s. destruct (site s) as [st|] eqn:Hst.
  - destruct (find_asset assetId (generatedAssets s)) as [a|] eqn:Ha.
    + rewrite (asset_update_found _ _ _ _ _ Hst Ha). cbn.
      split; [done|]. split; [apply mirror_ids|]. split; [apply swap_url_shape|].
      split; [|done]. intros _ [= <-]. eexists. split; [reflexivity|]. split; [done|].
      apply patch_pages_shape.
    + rewrite (asset_update_unknown _ _ s Ha). cbn.
      split; [done|]. split; [done|].
      split; [apply Forall_Forall2_diag, Forall_forall; done|].
      split; [|done]. intros _ [= <-]. exists st. rewrite Hst. split; [done|]. split; [done|].
      apply Forall_Forall2_diag, Forall_forall. done.
  - rewrite (asset_update_no_site _ _ s Hst). cbn.
    split; [done|]. split; [done|].
    split; [apply Forall_Forall2_diag, Forall_forall; done|].
    split; [done|]. done.
Qed.

(** Two assets with one reference (two slots that both got the
    fallback, say): a swap of the one rewrites, in every page, the
    occurrences of the reference they share, while the entry of the
    other stays as it was and goes on naming a reference that the swap
    has taken out of the pages. *)
Theorem swap_rewrites_shared_reference assetId newRef sys st a b :
  site (fst sys) = Some st →
  find_asset assetId (generatedAssets (fst sys)) = Some a →
  b ∈ generatedAssets (fst sys) →
  GeneratedAsset.id b ≠ assetId →
  GeneratedAsset.url b = GeneratedAsset.url a →
  let s' := state_after E (handleAssetUpdated E assetId newRef) sys in
  b ∈ generatedAssets s'
  ∧ ∃ st',
      site s' = Some st'
      ∧ GeneratedSite.assets st' = generatedAssets s'
      ∧ Forall2 (patched (GeneratedAsset.url b) newRef)
          (GeneratedSite.pages st) (GeneratedSite.pages st').
Proof.
  intros Hst Ha Hb Hid Hurl s'.
  destruct (hot_swap_effect E assetId newRef sys st a Hst Ha)
    as (st' & Hst' & _ & Hpatched & Hassets & _).
  fold s' in Hst', Hassets. split.
  - subst s'. unfold state_after. rewrite handleAssetUpdated_run. cbn [fst].
    rewrite (asset_update_found _ _ _ _ _ Hst Ha). cbn.
    unfold swap_url. apply list_elem_of_fmap. exists b. split; [|done].
    by rewrite decide_False.
  - exists st'. rewrite Hurl. done.
Qed.

(** **** Remix *)

(** A remix makes the given site the active one and shows it, with the
    site's own assets and analysis as the working ones and no uploads;
    the gallery, the research and the error stay as they were; no service
    is called, only the clock for the log line.  The site is live: a swap
    of one of its assets right after patches its pages. *)
Theorem remixed_site_is_live st assetId newRef a sys :
  find_asset assetId (GeneratedSite.assets st) = Some a →
  let s := fst sys in
  let sys1 := run E (handleRemix E st) sys in
  let s1 := fst sys1 in
  let s2 := state_after E (handleAssetUpdated E assetId newRef) sys1 in
  (site s1 = Some st ∧ preview_frame s1 = true ∧ isProcessing s1 = false
   ∧ generatedAssets s1 = GeneratedSite.assets st
   ∧ analysis s1 = GeneratedSite.analysis st
   ∧ uploadedImages s1 = []
   ∧ (gallery s1, research s1, error s1) = (gallery s, research s, error s)
   ∧ snd sys1 = snd (locale_time E (snd sys)))
  ∧ ∃ st2,
      site s2 = Some st2
      ∧ GeneratedSite.id st2 = GeneratedSite.id st
      ∧ GeneratedSite.pages st2
        = patch_pages (GeneratedAsset.url a) newRef (GeneratedSite.pages st)
      ∧ GeneratedSite.assets st2 = swap_url assetId newRef (GeneratedSite.assets st).
Proof.
  intros Ha s sys1 s1 s2. subst s2 s1 sys1. rewrite handleRemix_run. cbn [fst snd].
  split; [done|].
  unfold state_after. rewrite handleAssetUpdated_run. cbn [fst snd].
  unfold append_log. rewrite asset_update_logs.
  erewrite asset_update_found; [|reflexivity|exact Ha].
  eexists. split; [reflexivity|]. done.
Qed.

End Handler.

Lemma deployment_recorded_witness :
  let E := world all_well in
  let st := site_of "s1" "<p>" [] in
  let s' := state_after E (handleDeploymentComplete E a_deployment) (first_run, 0) in
  ∃ st',
    site s' = Some st'
    ∧ GeneratedSite.deployment st' = Some a_deployment
    ∧ gallery s' = [st'].
Proof.
  intros E st s'.
  destruct (deployment_recorded E a_deployment (first_run, 0) st eq_refl)
    as (st' & Hst' & Hd & Heq & _ & _ & Hg & _).
  exists st'. split; [exact Hst'|]. split; [exact Hd|].
  subst st'. reflexivity.
Defined.

(** Two slots got the fallback, and the first one's reference is
    swapped. *)
Lemma swap_rewrites_shared_reference_witness :
  let E := world all_well in
  let a := GeneratedAsset.mk "x" GeneratedAsset.hero FALLBACK_URL "a hero" None in
  let b := GeneratedAsset.mk "y" GeneratedAsset.feature FALLBACK_URL "a feature" None in
  let code := "<img src=" +:+ FALLBACK_URL +:+ "><img src=" +:+ FALLBACK_URL +:+ ">" in
  let st := site_of "s1" code [a; b] in
  let s := store_assets [a; b] (complete_site st INITIAL_STATE) in
  let s' := state_after E (handleAssetUpdated E "x" "data:new") (s, 0) in
  b ∈ generatedAssets s'
  ∧ GeneratedSite.pages <$> site s'
    = Some [WebPage.mk "Home" "index.html" "<img src=data:new><img src=data:new>"].
Proof.
  intros E a b code st s s'.
  destruct (swap_rewrites_shared_reference E "x" "data:new" (s, 0) st a b
              eq_refl eq_refl ltac:(right; left) ltac:(done) eq_refl)
    as (Hb & st' & Hst' & _).
  split; [exact Hb|]. by vm_compute.
Defined.

Lemma remixed_site_is_live_witness :
  let E := world all_well in
  let st := site_of "s1" "<img src=u1>" [asset_x "u1"] in
  let sys1 := run E (handleRemix E st) (session_start [st], 0) in
  let s2 := state_after E (handleAssetUpdated E "x" "u2") sys1 in
  site (fst sys1) = Some st
  ∧ GeneratedSite.pages <$> site s2 = Some [WebPage.mk "Home" "index.html" "<img src=u2>"].
Proof.
  intros E st sys1 s2.
  destruct (remixed_site_is_live E st "x" "u2" (asset_x "u1") (session_start [st], 0) eq_refl)
    as ((Hst & _) & st2 & Hst2 & _ & Hpages & _).
  split; [exact Hst|].
  change (site s2 = Some st2) in Hst2. rewrite Hst2. simpl. by rewrite Hpages.
Defined.

End SiteFacts.

(** *** The log *)
Module LogFacts.
Import JsString Updaters Handlers Phases Conduct Scripted Samples RunFacts.

Section Steps.
Variable E : World.
Implicit Types (sys : Sys E) (s : WorkflowState).

Lemma appends_ret {A} (a : A) : appends E (mret a).
Proof. intros sys. done. Qed.

Lemma appends_throw {A} e : appends E (throw (A:=A) e).
Proof. intros sys. done. Qed.

Lemma appends_settled {A} (o : Outcome A) : appends E (settled o).
Proof. intros sys. done. Qed.

Lemma appends_call {A} (f : W E → A * W E) : appends E (call f).
Proof. intros sys. unfold call. by destruct (f (snd sys)). Qed.

Lemma appends_await {A} (f : W E → Outcome A * W E) : appends E (await f).
Proof. intros sys. unfold await. by destruct (f (snd sys)). Qed.

Lemma appends_setState f :
  (∀ s, logs s `prefix_of` logs (f s)) → appends E (setState f).
Proof. intros Hf sys. apply Hf. Qed.

Lemma appends_bind {A B} (m : M E A) (k : A → M E B) :
  appends E m → (∀ a, appends E (k a)) → appends E (m ≫= k).
Proof.
  intros Hm Hk sys. rewrite bind_unfold. specialize (Hm sys).
  destruct (m sys) as [[a|e|] sys']; [|done..].
  etrans; [exact Hm|]. apply Hk.
Qed.

Lemma appends_try_catch {A} (body : M E A) handler :
  appends E body → (∀ e, appends E (handler e)) → appends E (try_catch body handler).
Proof.
  intros Hb Hh sys. unfold try_catch. specialize (Hb sys).
  destruct (body sys) as [[a|e|] sys']; [done| |done].
  etrans; [exact Hb|]. apply Hh.
Qed.

Lemma appends_detached {A} (m : M E A) : appends E m → appends E (detached m).
Proof. intros Hm sys. apply Hm. Qed.

Lemma appends_addLog msg : appends E (addLog E msg).
Proof.
  apply appends_bind; [apply appends_call|]. intros time.
  apply appends_setState. intros s. by apply prefix_app_r.
Qed.

Lemma deployment_update_keeps_logs d s : logs (deployment_update d s) = logs s.
Proof. unfold deployment_update. by destruct (site s). Qed.

Lemma asset_update_keeps_logs assetId newUrl s : logs (asset_update assetId newUrl s) = logs s.
Proof.
  unfold asset_update. destruct (site s); [|done].
  by destruct (find_asset assetId (generatedAssets s)).
Qed.

Ltac appends_step :=
  first
    [ apply appends_addLog | apply appends_call | apply appends_await
    | apply appends_ret | apply appends_throw | apply appends_settled
    | apply appends_setState; intros ?; done
    | apply appends_try_catch; [|intros ?]
    | apply appends_bind; [|intros ?] ].

Lemma appends_runAnalysisPhase imgs : appends E (runAnalysisPhase E imgs).
Proof. unfold runAnalysisPhase. repeat appends_step. Qed.

Lemma appends_forge_slot req : appends E (forge_slot E req).
Proof. unfold forge_slot. destruct (truthy _); repeat appends_step. Qed.

Lemma appends_forge_slots reqs : appends E (forge_slots E reqs).
Proof.
  induction reqs as [|req reqs IH]; simpl; [apply appends_ret|].
  apply appends_bind; [apply appends_forge_slot|]. intros asset.
  apply appends_bind; [apply IH|]. intros assets. apply appends_ret.
Qed.

Lemma appends_runAssetPhase state fr : appends E (runAssetPhase E state fr).
Proof.
  unfold runAssetPhase. destruct (analysis state); [|apply appends_throw].
  destruct (ResearchResult.marketContent fr); [|apply appends_throw].
  apply appends_bind; [apply appends_forge_slots|]. intros assets.
  repeat appends_step.
Qed.

(** Every handler but the upload and the reset leaves the log it finds
    in place and adds to its end, however its calls turn out. *)
Theorem handlers_add_to_log :
  (∀ overrides, appends E (handleRefineryConfirm E overrides))
  ∧ (∀ d, appends E (handleDeploymentComplete E d))
  ∧ (∀ assetId newUrl, appends E (handleAssetUpdated E assetId newUrl))
  ∧ (∀ st, appends E (handleRemix E st))
  ∧ appends E (onRetry E)
  ∧ (∀ index, appends E (onPageChange E index)).
Proof.
  repeat split.
  - intros overrides sys. unfold handleRefineryConfirm.
    refine (appends_bind _ _ _ _ sys); [appends_step|]. intros _.
    apply appends_bind; [appends_step|]. intros _.
    apply appends_detached, appends_runAssetPhase.
  - intros d. unfold handleDeploymentComplete.
    apply appends_bind; [|intros _; apply appends_addLog].
    apply appends_setState. intros s. by rewrite deployment_update_keeps_logs.
  - intros assetId newUrl. unfold handleAssetUpdated.
    apply appends_bind; [|intros _; apply appends_addLog].
    apply appends_setState. intros s. by rewrite asset_update_keeps_logs.
  - intros st. unfold handleRemix. repeat appends_step.
  - intros sys. unfold onRetry. apply appends_detached, appends_runAnalysisPhase.
  - intros index. unfold onPageChange. appends_step.
Qed.

(** An upload of at least one file starts the log anew: the state it
    leaves does not depend on the log it found, and its log starts with
    the line of the upload. *)
Theorem upload_restarts_log files sys :
  files ≠ [] →
  (∀ old, state_after E (handleFileUpload E files) (set_logs old (fst sys), snd sys)
          = state_after E (handleFileUpload E files) sys)
  ∧ [log_entry (fst (locale_time E (snd sys))) "Initializing Neural Forge kernel..."]
    `prefix_of` logs (state_after E (handleFileUpload E files) sys).
Proof.
  intros Hne. destruct files as [|file rest]; [done|]. split.
  - intros old. unfold state_after, run, handleFileUpload. by rewrite !bind_setState.
  - unfold state_after, run, handleFileUpload. rewrite bind_setState, bind_addLog.
    cbn [fst snd].
    match goal with
    | |- _ `prefix_of` logs (fst (snd (?k ?sys1))) =>
      change (logs (fst sys1) `prefix_of` logs (fst (snd (k sys1))));
      generalize sys1
    end.
    change (appends E ((λ _ : (),
      promises ← call (read_files E (file :: rest));
      try_catch
        (base64Images ← settled (promise_all promises);
         setState (store_uploads base64Images);;
         addLog E ("Blueprints received: " +:+ pretty (length (file :: rest))
                     +:+ " design files.");;
         runAnalysisPhase E base64Images)
        (λ err,
         setState (fail_run (or_else (message err) "Forge sequence failed to initialize."));;
         addLog E ("[ERROR] " +:+ show (message err)))) ())).
    repeat first [apply appends_runAnalysisPhase | appends_step].
Qed.

End Steps.

Lemma upload_restarts_log_witness :
  let E := world all_well in
  let files := [png "AAAA"] in
  ["[10:00:00] Initializing Neural Forge kernel..."]
    `prefix_of` logs (state_after E (handleFileUpload E files) (at_editor, 0)).
Proof.
  intros E files.
  exact (proj2 (upload_restarts_log E files (at_editor, 0) ltac:(done))).
Defined.

End LogFacts.

(** *** What is rendered, and when *)
Module ViewFacts.
Import JsString Updaters Handlers Reach Phases Views Conduct Scripted Samples RunFacts.

(** Of the upload area, the refinery and the progress block at most one
    is rendered, in any state; the Studio button comes with the progress
    block only. *)
Theorem main_views_exclude_each_other s :
  upload_view s && refinery_view s = false
  ∧ upload_view s && progress_view s = false
  ∧ refinery_view s && progress_view s = false
  ∧ (studio_button s = true → progress_view s = true).
Proof.
  unfold upload_view, refinery_view, progress_view, studio_button.
  destruct (step s), (isProcessing s), (research s); done.
Qed.

(** **** States that any sequence of updaters reaches *)

Lemma apply_gallery_length a s :
  length (gallery (apply a s)) ≤ max 20 (length (gallery s)).
Proof.
  destruct a; try (simpl; lia).
  - change (gallery (apply (ACompleteSite newSite) s)) with (take 20 (newSite :: gallery s)).
    rewrite length_take. lia.
  - simpl. unfold deployment_update. destruct (site s); [|lia].
    cbn [gallery set_gallery]. unfold mirror. rewrite length_fmap. lia.
  - simpl. unfold asset_update. destruct (site s); [|lia].
    destruct (find_asset assetId (generatedAssets s)); [|lia].
    cbn [gallery set_gallery]. unfold mirror. rewrite length_fmap. lia.
Qed.

(** Whatever the handlers do, in whatever order their updates arrive:
    the gallery never holds more than twenty sites, or than it held at
    the start if that was more. *)
Theorem gallery_never_outgrows_cap s s' :
  rtc step_to s s' → length (gallery s') ≤ max 20 (length (gallery s)).
Proof.
  induction 1 as [s|s1 s2 s3 [a ->] _ IH]; [lia|].
  pose proof (apply_gallery_length a s1). lia.
Qed.

Lemma apply_settled_steps a s : settled_steps s → settled_steps (apply a s).
Proof.
  unfold settled_steps. intros [Hr Hp].
  destruct a; simpl; try done; try (split; [done|]; by intros [|]).
  - unfold deployment_update. by destruct (site s).
  - unfold asset_update. destruct (site s); [|done].
    by destruct (find_asset assetId (generatedAssets s)).
Qed.

Lemma rtc_settled_steps s s' : step s = UPLOAD → rtc step_to s s' → settled_steps s'.
Proof.
  intros Hs Hrtc.
  assert (settled_steps s) as Hstart
    by (split; [by rewrite Hs|]; rewrite Hs; by intros [|]).
  clear Hs. induction Hrtc as [s|s1 s2 s3 [a ->] _ IH]; [done|].
  by apply IH, apply_settled_steps.
Qed.

(** Whatever the handlers do, in whatever order their updates arrive,
    from a state in [UPLOAD]: the step [RECIPE] is never entered, and
    nothing is being processed in [EDITOR] and in [PREVIEW], so that the
    spinner is never rendered with the refinery or with the preview. *)
Theorem never_processing_at_rest s s' :
  step s = UPLOAD → rtc step_to s s' →
  step s' ≠ RECIPE
  ∧ (step s' = EDITOR ∨ step s' = PREVIEW → isProcessing s' = false)
  ∧ spinner s' && (refinery_view s' || preview_frame s') = false.
Proof.
  intros Hs Hrtc. destruct (rtc_settled_steps s s' Hs Hrtc) as [Hr Hp].
  split; [done|]. split; [done|].
  unfold spinner, refinery_view, preview_frame, progress_view.
  destruct (step s') eqn:Hstep; try (by destruct (isProcessing s'), (research s')).
  rewrite Hp by (by right). done.
Qed.

End ViewFacts.

(** *** The screens of a session *)
Module UiFacts.
Import JsString Updaters Handlers Reach Phases Views Conduct Scripted Samples.
Import PatcherFacts RunFacts AssetFacts SiteFacts ViewFacts Ui.

(** In the steps of a run under way nothing is asked of the state. *)
Lemma coherent_under_way s :
  step s = ANALYSIS ∨ step s = RESEARCH ∨ step s = GENERATION ∨ step s = CODING →
  coherent s.
Proof.
  unfold coherent, upload_view. intros Hs. split; [|split].
  - intros Hup. destruct Hs as [Hs|[Hs|[Hs|Hs]]]; by rewrite Hs in Hup.
  - intros He. destruct Hs as [Hs|[Hs|[Hs|Hs]]]; by rewrite Hs in He.
  - intros He. destruct Hs as [Hs|[Hs|[Hs|Hs]]]; by rewrite Hs in He.
Qed.

(** A change of the log, the error or the gallery is of no account. *)
Lemma coherent_frame s s' :
  (step s', isProcessing s', uploadedImages s', analysis s', research s',
   generatedAssets s', site s')
  = (step s, isProcessing s, uploadedImages s, analysis s, research s,
     generatedAssets s, site s) →
  coherent s → coherent s'.
Proof.
  intros [= Hstep Hproc Hup Ha Hr Hga Hsite]. unfold coherent, upload_view, fresh.
  by rewrite Hstep, Hproc, Hup, Ha, Hr, Hga, Hsite.
Qed.

Lemma coherent_logs_grow s s' : logs_grow s s' → coherent s → coherent s'.
Proof. intros [extra ->]. by apply coherent_frame. Qed.

Section Steps.
Variable E : World.
Implicit Types (sys : Sys E) (s : WorkflowState) (u : Screen E).

(** Where the analysis phase leaves the state. *)
Lemma runAnalysisPhase_steps imgs sys :
  let s' := fst (snd (runAnalysisPhase E imgs sys)) in
  match fst (runAnalysisPhase E imgs sys) with
  | Resolved _ => step s' = EDITOR ∧ is_Some (analysis s') ∧ is_Some (research s')
  | _ => step s' = ANALYSIS ∨ step s' = RESEARCH
  end.
Proof.
  pose proof (runAnalysisPhase_spec E imgs sys) as Hspec.
  destruct (analyze_call E imgs sys) as [[a|e|] w2]; [|rewrite Hspec; by left..].
  destruct (research_call E a imgs sys) as [[r|e|] w4]; rewrite Hspec; cbn.
  - by repeat split.
  - by right.
  - by right.
Qed.

Lemma runAnalysisPhase_coherent imgs sys :
  coherent (fst (snd (runAnalysisPhase E imgs sys))).
Proof.
  pose proof (runAnalysisPhase_steps imgs sys) as Hsteps. cbn zeta in Hsteps.
  destruct (fst (runAnalysisPhase E imgs sys)).
  - destruct Hsteps as (Hstep & Ha & Hr). unfold coherent, upload_view.
    rewrite Hstep. by repeat split.
  - apply coherent_under_way. tauto.
  - apply coherent_under_way. tauto.
Qed.

(** Where the asset phase leaves a state that it finds in
    [GENERATION]. *)
Lemma runAssetPhase_coherent state fr sys :
  step (fst sys) = GENERATION → coherent (fst (snd (runAssetPhase E state fr sys))).
Proof.
  intros Hstep.
  assert (coherent (fst sys)) as Hsys by (apply coherent_under_way; tauto).
  destruct (analysis state) as [a|] eqn:Ha;
    [|by unfold runAssetPhase; rewrite Ha].
  destruct (ResearchResult.marketContent fr) as [mc|] eqn:Hmc;
    [|by unfold runAssetPhase; rewrite Ha, Hmc].
  rewrite (runAssetPhase_unfold E _ _ _ _ _ Ha Hmc).
  pose proof (forge_slots_pending_frame E (assetPrompts a mc fr) sys) as Hgrow.
  destruct (forge_slots E (assetPrompts a mc fr) sys) as [[assets|e|] sys1];
    [|by eapply coherent_logs_grow..].
  pose proof (code_phase_spec E a mc fr assets sys1) as Hcode.
  destruct (code_call E a fr assets sys1) as [[pages|e|] w1].
  - destruct Hcode as (id & now & time & w' & ->). cbn [fst snd].
    unfold coherent, upload_view. cbn. repeat split; try done.
    intros _. by eexists.
  - rewrite Hcode. apply coherent_under_way. cbn. tauto.
  - rewrite Hcode. apply coherent_under_way. cbn. tauto.
Qed.

Lemma asset_update_coherent assetId newUrl s :
  (upload_view s = true → generatedAssets s = [] → False) →
  coherent s → coherent (asset_update assetId newUrl s).
Proof.
  intros Hguard Hs. destruct (site s) as [st|] eqn:Hst;
    [|by rewrite asset_update_no_site].
  destruct (find_asset assetId (generatedAssets s)) as [a|] eqn:Ha;
    [|by rewrite asset_update_unknown].
  rewrite (asset_update_found _ _ _ _ _ Hst Ha). cbn zeta.
  destruct Hs as (Hup & Hed & Hpre). unfold coherent, upload_view. cbn.
  split; [|split; [done|]].
  - intros Hview. exfalso. apply Hguard; [done|]. by apply Hup.
  - intros _. by eexists.
Qed.

Lemma deployment_update_coherent d s : coherent s → coherent (deployment_update d s).
Proof.
  intros Hs. unfold deployment_update. destruct (site s) as [st|] eqn:Hst; [|done].
  destruct Hs as (Hup & Hed & Hpre). unfold coherent, upload_view, fresh. cbn.
  split; [|split; [done|]].
  - intros Hview. destruct (Hup Hview) as (_ & _ & _ & _ & Hnone). congruence.
  - intros Hp. destruct (Hpre Hp) as (st' & Heq & Hassets).
    assert (st' = st) as -> by congruence. by eexists.
Qed.

Lemma page_change_coherent index s : coherent s → coherent (page_change index s).
Proof.
  intros (Hup & Hed & Hpre). unfold coherent, upload_view, fresh, page_change. cbn.
  split; [|split; [done|]].
  - intros Hview. destruct (Hup Hview) as (? & ? & ? & ? & Hnone). by rewrite Hnone.
  - intros Hp. destruct (Hpre Hp) as (st & Hst & Hassets). rewrite Hst. by eexists.
Qed.

Lemma perform_coherent ev u :
  offered ev u = true → coherent (state u) → coherent (state (perform ev u)).
Proof.
  destruct u as [sys0 open]. unfold state. destruct ev; cbn [offered perform sys fst].
  - (* upload *)
    intros Hview Hs. destruct (decide (files = [])) as [->|Hne]; [done|].
    rewrite handleFileUpload_spec by done.
    destruct (promise_all (conversions E files sys0)) as [imgs|e|].
    + pose proof (runAnalysisPhase_coherent imgs (received E files imgs sys0)) as Hco.
      pose proof (runAnalysisPhase_steps imgs (received E files imgs sys0)) as Hsteps.
      cbn zeta in Hsteps.
      destruct (runAnalysisPhase E imgs (received E files imgs sys0)) as [[[]|e|] sys'];
        [done| |done].
      cbn [fst snd] in *. apply coherent_under_way. unfold caught. cbn. tauto.
    + unfold caught, converting. cbn [fst snd].
      destruct Hs as (Hup & _). specialize (Hup Hview).
      unfold coherent, upload_view. cbn. split; [by intros _|]. by split.
    + unfold converting. cbn [fst snd]. unfold coherent, upload_view. cbn.
      split; [done|]. by split.
  - (* remix *)
    intros _ _. rewrite handleRemix_run. cbn [fst]. unfold coherent, upload_view. cbn.
    repeat split; try done. intros _. by eexists.
  - (* confirm *)
    intros _ _. rewrite handleRefineryConfirm_run. unfold run.
    rewrite refinery_run_unfold. by apply runAssetPhase_coherent.
  - (* retry *)
    intros _ _. unfold run, onRetry, detached. cbn [fst snd].
    apply runAnalysisPhase_coherent.
  - (* deployment *)
    intros _ Hs. rewrite handleDeploymentComplete_run. cbn [fst].
    eapply coherent_logs_grow; [apply logs_grow_append|].
    by apply deployment_update_coherent.
  - (* page change *)
    intros _ Hs. by apply page_change_coherent.
  - done.
  - done.
  - (* hot swap *)
    intros Hview Hs. rewrite handleAssetUpdated_run. cbn [fst].
    eapply coherent_logs_grow; [apply logs_grow_append|].
    apply asset_update_coherent; [|done].
    intros _ Hnil. unfold asset_studio in Hview. rewrite Hnil in Hview.
    by destruct open.
  - (* reset *)
    intros _ _. unfold coherent, upload_view, fresh. cbn. by repeat split.
Qed.

Lemma reachable_coherent saved u : reachable E saved u → coherent (state u).
Proof.
  induction 1 as [w|u ev _ IH Hoff].
  - unfold coherent, upload_view, fresh, state. cbn. by repeat split.
  - by apply perform_coherent.
Qed.

(** The state moves by the updaters under every event. *)
Lemma perform_traced ev u : rtc step_to (state u) (state (perform ev u)).
Proof.
  destruct (handlers_traced E) as (Hup & Hconf & Hdep & Hswap & Hremix & Hreset & Hretry & Hpage).
  destruct u as [sys0 open]. unfold state.
  destruct ev; cbn [perform sys]; try apply rtc_refl.
  - apply Hup.
  - apply Hremix.
  - apply Hconf.
  - apply Hretry.
  - apply Hdep.
  - apply Hpage.
  - apply Hswap.
  - apply Hreset.
Qed.

Lemma reachable_traced saved u :
  reachable E saved u → rtc step_to (session_start saved) (state u).
Proof.
  induction 1 as [w|u ev _ IH Hoff]; [apply rtc_refl|].
  etrans; [exact IH|]. apply perform_traced.
Qed.

(** Whenever the upload area is rendered, the state holds nothing of an
    earlier run: no uploads, no analysis, no research, no assets, no
    site.  (In sessions in which every handler has run to its end before
    the next event.) *)
Theorem upload_area_comes_with_fresh_state saved u :
  reachable E saved u → upload_view (state u) = true → fresh (state u).
Proof. intros Hreach. by apply (reachable_coherent saved u Hreach). Qed.

(** Whenever the refinery is rendered, the state holds an analysis and
    a research: what [handleRefineryConfirm] and [runAssetPhase] read
    with [!] is there.  (In sessions as above.) *)
Theorem refinery_comes_with_analysis saved u :
  reachable E saved u → refinery_view (state u) = true →
  ∃ a r, analysis (state u) = Some a ∧ research (state u) = Some r.
Proof.
  intros Hreach Hview. destruct (reachable_coherent saved u Hreach) as (_ & Hed & _).
  unfold refinery_view in Hview. apply andb_true_iff in Hview as [Hstep _].
  apply bool_decide_eq_true in Hstep. destruct (Hed Hstep) as [[a Ha] [r Hr]].
  by exists a, r.
Qed.

(** In [PREVIEW] there is an active site, the preview is rendered
    without the spinner, and the site's assets are the working assets,
    so that the studio edits the assets of the site that is shown.  (In
    sessions as above.) *)
Theorem preview_shows_site_of_working_assets saved u :
  reachable E saved u → step (state u) = PREVIEW →
  ∃ st,
    site (state u) = Some st
    ∧ GeneratedSite.assets st = generatedAssets (state u)
    ∧ preview_frame (state u) = true
    ∧ spinner (state u) = false.
Proof.
  intros Hreach Hstep. destruct (reachable_coherent saved u Hreach) as (_ & _ & Hpre).
  destruct (Hpre Hstep) as (st & Hst & Hassets). exists st.
  split; [done|]. split; [done|].
  destruct (rtc_settled_steps (session_start saved) (state u) eq_refl
              (reachable_traced saved u Hreach)) as (_ & Hproc).
  unfold preview_frame, spinner, progress_view.
  rewrite Hstep, Hst, Hproc by (by right). done.
Qed.

(** A retry whose analysis or research is rejected ends in silence: the
    rejection is caught by nothing, the error field stays as it was, the
    site stays in the state, and none of the upload area, the refinery,
    the progress block and the Studio button is rendered. *)
Theorem failed_retry_shows_no_view sys e :
  isProcessing (fst sys) = false →
  fst (runAnalysisPhase E (uploadedImages (fst sys)) sys) = Rejected e →
  let s := fst sys in
  let s' := state_after E (onRetry E) sys in
  (step s' = ANALYSIS ∨ step s' = RESEARCH)
  ∧ (error s', site s', isProcessing s') = (error s, site s, false)
  ∧ upload_view s' = false ∧ refinery_view s' = false
  ∧ progress_view s' = false ∧ studio_button s' = false.
Proof.
  intros Hproc Hrej s s'. subst s'. unfold state_after, run, onRetry, detached.
  cbn [fst snd]. fold s. fold s in Hrej, Hproc.
  pose proof (runAnalysisPhase_spec E (uploadedImages s) sys) as Hspec.
  destruct (analyze_call E (uploadedImages s) sys) as [[a|e1|] w2].
  - destruct (research_call E a (uploadedImages s) sys) as [[r|e2|] w4];
      rewrite Hspec in Hrej |- *; cbn [fst] in Hrej; try done.
    unfold upload_view, refinery_view, progress_view, studio_button. cbn.
    fold s. rewrite Hproc. repeat split; try done. by right.
  - rewrite Hspec. unfold upload_view, refinery_view, progress_view, studio_button. cbn.
    fold s. rewrite Hproc. repeat split; try done. by left.
  - by rewrite Hspec in Hrej.
Qed.

End Steps.

Lemma opening_reachable : reachable (world all_well) full_gallery opening.
Proof. apply reach_start. Qed.

Lemma at_refinery_reachable : reachable (world all_well) full_gallery at_refinery.
Proof. apply reach_event; [apply opening_reachable|]. by vm_compute. Qed.

Lemma at_preview_reachable : reachable (world all_well) full_gallery at_preview.
Proof. apply reach_event; [apply at_refinery_reachable|]. by vm_compute. Qed.

(** The upload area is shown again after an upload that could not be
    read. *)
Lemma upload_area_comes_with_fresh_state_witness : fresh (state after_failed_upload).
Proof.
  apply (upload_area_comes_with_fresh_state (world all_well) full_gallery).
  - apply reach_event; [apply opening_reachable|]. by vm_compute.
  - by vm_compute.
Defined.

Lemma refinery_comes_with_analysis_witness :
  ∃ a r, analysis (state at_refinery) = Some a ∧ research (state at_refinery) = Some r.
Proof.
  apply (refinery_comes_with_analysis (world all_well) full_gallery).
  - apply at_refinery_reachable.
  - by vm_compute.
Defined.

Lemma preview_shows_site_of_working_assets_witness :
  ∃ st,
    site (state at_preview) = Some st
    ∧ GeneratedSite.assets st = generatedAssets (state at_preview)
    ∧ preview_frame (state at_preview) = true
    ∧ spinner (state at_preview) = false.
Proof.
  apply (preview_shows_site_of_working_assets (world all_well) full_gallery).
  - apply at_preview_reachable.
  - by vm_compute.
Defined.

(** The gallery of twenty takes the new site and stays at twenty. *)
Lemma gallery_never_outgrows_cap_witness :
  length (gallery (state at_preview)) ≤ max 20 (length (gallery (session_start full_gallery))).
Proof.
  apply gallery_never_outgrows_cap.
  apply (reachable_traced (world all_well)), at_preview_reachable.
Defined.

Lemma never_processing_at_rest_witness :
  step (state at_preview) ≠ RECIPE
  ∧ (step (state at_preview) = EDITOR ∨ step (state at_preview) = PREVIEW →
     isProcessing (state at_preview) = false)
  ∧ spinner (state at_preview)
    && (refinery_view (state at_preview) || preview_frame (state at_preview)) = false.
Proof.
  apply (never_processing_at_rest (session_start full_gallery)); [reflexivity|].
  apply (reachable_traced (world all_well)), at_preview_reachable.
Defined.

(** A site is in preview, and the research service is down when the
    user retries. *)
Lemma failed_retry_shows_no_view_witness :
  let E := world research_fails in
  let s := previewing "<p>" "u" in
  let s' := state_after E (onRetry E) (s, 0) in
  (step s' = ANALYSIS ∨ step s' = RESEARCH)
  ∧ (error s', site s', isProcessing s') = (error s, site s, false)
  ∧ upload_view s' = false ∧ refinery_view s' = false
  ∧ progress_view s' = false ∧ studio_button s' = false.
Proof.
  intros E s.
  exact (failed_retry_shows_no_view E (s, 0) (mkError (Some "search down"))
           eq_refl ltac:(vm_compute; reflexivity)).
Defined.

End UiFacts.
